(** * Smart Traffic Management System: core logic of the web client

    A shallow embedding of the data-transforming functions of
    [TrafficDashboard.js] and [TrafficMap.js], and the properties the
    design document states about them.

    Conventions of the embedding.
    - A JavaScript number is a rational ([Q]).  The functions below only
      copy, compare, add and multiply numbers; payloads come from
      [JSON.parse], which never produces [NaN] or an infinity.  Vehicle
      counts are integers ([Z]).
    - [undefined] / a missing field is [None].
    - An array is a [list]; [findIndex] is stdpp's [list_find], an
      update by index is stdpp's [<[i:=x]>].
    - Outcomes of network calls and of [Math.random] are arguments of
      the function that consumes them. *)

From Stdlib Require Import QArith Qminmax Qabs ZArith Lia Permutation.
From Stdlib Require Import Ascii String Lqa Qround.
From stdpp Require Import base option list strings pretty.

Local Open Scope Z_scope.

(** * Part I: the program *)

(** ** TrafficDashboard.js: signal arbitration *)

Module Dashboard.

(** A lane of [trafficData] is an object from vehicle type to count. *)
Definition laneCounts := list (string * Z).

Record TrafficData := {
  lane_1 : option laneCounts;
  lane_2 : option laneCounts;
  lane_3 : option laneCounts;
  ambulance_detected : bool
}.

Inductive signal := green | red.

Record SignalState := {
  sig_lane_1 : signal;
  sig_lane_2 : signal;
  sig_lane_3 : signal
}.

(** [trafficData[lane]] for the three keys the component uses. *)
Definition lane_lookup (td : TrafficData) (lane : string) : option laneCounts :=
  if String.eqb lane "lane_1" then lane_1 td
  else if String.eqb lane "lane_2" then lane_2 td
  else if String.eqb lane "lane_3" then lane_3 td
  else None.

(** [Object.values(trafficData[lane] || {}).reduce((a, b) => a + b, 0)] *)
Definition getTotal (td : TrafficData) (lane : string) : Z :=
  fold_left (fun a b => a + b) (map snd (default [] (lane_lookup td lane))) 0.

Definition updateSignals (td : TrafficData) : SignalState :=
  let l1 := getTotal td "lane_1" in
  let l2 := getTotal td "lane_2" in
  let l3 := getTotal td "lane_3" in
  let minLane := "lane_1"%string in
  let minValue := l1 in
  let '(minLane, minValue) :=
    if l2 <? minValue then ("lane_2"%string, l2) else (minLane, minValue) in
  let '(minLane, minValue) :=
    if l3 <? minValue then ("lane_3"%string, l3) else (minLane, minValue) in
  {| sig_lane_1 := if String.eqb minLane "lane_1" then green else red;
     sig_lane_2 := if String.eqb minLane "lane_2" then green else red;
     sig_lane_3 := if String.eqb minLane "lane_3" then green else red |}.

Definition is_green (s : signal) : bool :=
  match s with green => true | red => false end.

Definition green_count (s : SignalState) : nat :=
  (if is_green (sig_lane_1 s) then 1 else 0) +
  (if is_green (sig_lane_2 s) then 1 else 0) +
  (if is_green (sig_lane_3 s) then 1 else 0).

Definition red_count (s : SignalState) : nat :=
  (if is_green (sig_lane_1 s) then 0 else 1) +
  (if is_green (sig_lane_2 s) then 0 else 1) +
  (if is_green (sig_lane_3 s) then 0 else 1).

(** Sample payloads with lane totals 5, 3, 8 and 4, 4, 9. *)
Definition sample_538 : TrafficData :=
  {| lane_1 := Some [("car"%string, 3); ("bike"%string, 2)];
     lane_2 := Some [("car"%string, 2); ("bus"%string, 1)];
     lane_3 := Some [("car"%string, 5); ("truck"%string, 3)];
     ambulance_detected := false |}.

Definition sample_449 : TrafficData :=
  {| lane_1 := Some [("car"%string, 4)];
     lane_2 := Some [("bike"%string, 1); ("car"%string, 3)];
     lane_3 := Some [("car"%string, 9)];
     ambulance_detected := false |}.

End Dashboard.

(** ** Numbers *)

Local Open Scope Q_scope.

(** [x < y] on numbers, as a boolean. *)
Definition Qltb (x y : Q) : bool := negb (Qle_bool y x).

(** A natural number (an index, a length) as a number. *)
Definition Qof_nat (n : nat) : Q := inject_Z (Z.of_nat n).

(** Truthiness of a number: every number but 0 (there is no [NaN]). *)
Definition truthy (x : Q) : bool := negb (Qeq_bool x 0).

(** [Math.min(x, ...xs)] and [Math.max(x, ...xs)] with at least one
    argument. *)
Definition Math_min (x : Q) (xs : list Q) : Q := fold_left Qmin xs x.
Definition Math_max (x : Q) (xs : list Q) : Q := fold_left Qmax xs x.

(** ** Arrays *)

(** [array.sort(cmp)].  The language requires the sort to be stable, and
    for a comparator that is a difference of keys the stable sorted
    order is unique; insertion from the right computes it. *)
Section ArraySort.
Context {A : Type} (cmp : A -> A -> Q).

Fixpoint sort_insert (x : A) (l : list A) : list A :=
  match l with
  | [] => [x]
  | y :: l' => if Qltb 0 (cmp x y) then y :: sort_insert x l' else x :: l
  end.

Definition array_sort (l : list A) : list A := fold_right sort_insert [] l.
End ArraySort.

(** ** TrafficMap.js: class RouteService, geometry *)

Module RouteService.

(** A coordinate pair [[lat, lng]]. *)
Definition coord : Type := Q * Q.

(** A box [[[minLat, minLng], [maxLat, maxLng]]]. *)
Definition box : Type := coord * coord.

Definition in_box (b : box) (p : coord) : Prop :=
  fst (fst b) <= fst p /\ fst p <= fst (snd b) /\
  snd (fst b) <= snd p /\ snd p <= snd (snd b).

(** Same point, comparing numbers by value. *)
Definition coord_eq (p q : coord) : Prop :=
  fst p == fst q /\ snd p == snd q.

(** The box spanned by the non-empty array [c :: cs] of pairs: the
    [return] expression shared by the two bounds functions.  [lats] and
    [lngs] are the latitudes and longitudes after the first. *)
Definition span (c : coord) (cs : list coord) : box :=
  let lats := map fst cs in
  let lngs := map snd cs in
  ((Math_min (fst c) lats, Math_min (snd c) lngs),
   (Math_max (fst c) lats, Math_max (snd c) lngs)).

Definition calculateRouteBounds (coordinates : option (list coord))
  : option box :=
  match coordinates with
  | None => None
  | Some [] => None
  | Some (c :: cs) => Some (span c cs)
  end.

(** [p && p[0] && p[1]] *)
Definition valid_point (p : option coord) : bool :=
  match p with
  | None => false
  | Some c => truthy (fst c) && truthy (snd c)
  end.

(** [points.filter(p => p && p[0] && p[1])], as an array of pairs. *)
Definition validPoints (points : list (option coord)) : list coord :=
  omap (fun p => if valid_point p then p else None) points.

Definition calculateBoundsFromPoints (points : option (list (option coord)))
  : option box :=
  match points with
  | None => None
  | Some [] => None
  | Some pts =>
      match validPoints pts with
      | [] => None
      | c :: cs => Some (span c cs)
      end
  end.

(** [createCurvedRoute]; [rand1] and [rand2] are the two values drawn
    from [Math.random()], in call order. *)
Definition createCurvedRoute (rand1 rand2 : Q) (start end_ : option coord)
  : list coord :=
  match start, end_ with
  | Some start, Some end_ =>
      let numPoints := 20%nat in
      let midLat := (fst start + fst end_) / 2 in
      let midLng := (snd start + snd end_) / 2 in
      let controlLat := midLat + (rand1 - (1#2)) * (1#100) in
      let controlLng := midLng + (rand2 - (1#2)) * (1#100) in
      map (fun i : nat =>
             let t := Qof_nat i / Qof_nat numPoints in
             let lat := (1 - t) ^ 2 * fst start +
                        2 * (1 - t) * t * controlLat +
                        t ^ 2 * fst end_ in
             let lng := (1 - t) ^ 2 * snd start +
                        2 * (1 - t) * t * controlLng +
                        t ^ 2 * snd end_ in
             (lat, lng))
          (seq 0 (S numPoints))
  | _, _ => []
  end.

(** The quadratic Bezier curve with end points [p0], [p2] and control
    point [p1], at parameter [t]. *)
Definition bezier2 (p0 p1 p2 : coord) (t : Q) : coord :=
  ((1 - t) ^ 2 * fst p0 + 2 * (1 - t) * t * fst p1 + t ^ 2 * fst p2,
   (1 - t) ^ 2 * snd p0 + 2 * (1 - t) * t * snd p1 + t ^ 2 * snd p2).

(** The control point [createCurvedRoute] uses for given draws. *)
Definition controlPoint (rand1 rand2 : Q) (s e : coord) : coord :=
  ((fst s + fst e) / 2 + (rand1 - (1#2)) * (1#100),
   (snd s + snd e) / 2 + (rand2 - (1#2)) * (1#100)).

(** *** Place-name matching *)

(** Strings are ASCII text, one character per code unit. *)
Definition is_upper (c : ascii) : bool :=
  let n := nat_of_ascii c in (65 <=? n)%nat && (n <=? 90)%nat.

Definition is_word (c : ascii) : bool :=
  let n := nat_of_ascii c in
  ((48 <=? n)%nat && (n <=? 57)%nat) || ((65 <=? n)%nat && (n <=? 90)%nat) ||
  ((97 <=? n)%nat && (n <=? 122)%nat) || (n =? 95)%nat.

(** [\s] on ASCII: tab, line feed, vertical tab, form feed, carriage
    return, space. *)
Definition is_space (c : ascii) : bool :=
  let n := nat_of_ascii c in
  ((9 <=? n)%nat && (n <=? 13)%nat) || (n =? 32)%nat.

Definition lower_char (c : ascii) : ascii :=
  if is_upper c then ascii_of_nat (nat_of_ascii c + 32) else c.

Fixpoint toLowerCase (s : string) : string :=
  match s with
  | EmptyString => EmptyString
  | String c s' => String (lower_char c) (toLowerCase s')
  end.

(** [str.replace(/[^\w\s]/g, '')] *)
Fixpoint strip_punct (s : string) : string :=
  match s with
  | EmptyString => EmptyString
  | String c s' =>
      if is_word c || is_space c then String c (strip_punct s')
      else strip_punct s'
  end.

Fixpoint trimStart (s : string) : string :=
  match s with
  | EmptyString => EmptyString
  | String c s' => if is_space c then trimStart s' else s
  end.

(** Drops trailing white space: a white-space character is kept only
    when something is kept after it. *)
Fixpoint trimEnd (s : string) : string :=
  match s with
  | EmptyString => EmptyString
  | String c s' =>
      match trimEnd s' with
      | EmptyString => if is_space c then EmptyString else String c EmptyString
      | r => String c r
      end
  end.

Definition trim (s : string) : string := trimEnd (trimStart s).

Definition normalize (str : string) : string :=
  trim (strip_punct (toLowerCase str)).

(** [s.includes(t)] on strings. *)
Fixpoint includes (s t : string) : bool :=
  String.prefix t s ||
  match s with
  | EmptyString => false
  | String _ s' => includes s' t
  end.

(** [s.split(/\s+/)]: [cur] is the piece being read. *)
Fixpoint split_ws_from (cur : string) (in_gap : bool) (s : string)
  : list string :=
  match s with
  | EmptyString => [cur]
  | String c s' =>
      if is_space c then
        if in_gap then split_ws_from cur true s'
        else cur :: split_ws_from EmptyString true s'
      else split_ws_from (String.append cur (String c EmptyString)) false s'
  end.

Definition split_ws (s : string) : list string :=
  split_ws_from EmptyString false s.

(** [words.includes(word)] on arrays of strings. *)
Definition array_includes (words : list string) (word : string) : bool :=
  existsb (String.eqb word) words.

(** One row of the edit-distance matrix from the row above it:
    [matrix[i][0] = i], and for [j >= 1] the minimum of the three
    neighbours.  [left] is [matrix[i][j-1]], [diag] is
    [matrix[i-1][j-1]], [above] holds [matrix[i-1][j..]]. *)
Fixpoint lev_row (bi : ascii) (a : string) (left diag : nat) (above : list nat)
  : list nat :=
  match a, above with
  | String aj a', up :: above' =>
      let cost := if Ascii.eqb aj bi then 0%nat else 1%nat in
      let v := Nat.min (Nat.min (up + 1) (left + 1)) (diag + cost) in
      v :: lev_row bi a' v up above'
  | _, _ => []
  end.

Fixpoint lev_rows (b : string) (a : string) (i : nat) (row : list nat)
  : list nat :=
  match b with
  | EmptyString => row
  | String bi b' =>
      let next :=
        match row with
        | [] => []
        | d :: above => S i :: lev_row bi a (S i) d above
        end in
      lev_rows b' a (S i) next
  end.

Definition levenshteinDistance (a b : string) : nat :=
  if (String.length a =? 0)%nat || (String.length b =? 0)%nat
  then Nat.max (String.length a) (String.length b)
  else List.last (lev_rows b a 0 (seq 0 (S (String.length a)))) 0%nat.

Record Candidate := {
  name : string;
  lat : Q;
  lng : Q
}.

(** The body of the [candidates.map] callback: the composite score of
    one candidate against the normalised input. *)
Definition score_of (inputNorm : string) (candidate : Candidate) : Q :=
  let candidateNorm := normalize (name candidate) in
  if String.eqb candidateNorm inputNorm then 1
  else
    let score : Q :=
      if includes candidateNorm inputNorm || includes inputNorm candidateNorm
      then 8#10 else 0 in
    let inputWords := split_ws inputNorm in
    let candidateWords := split_ws candidateNorm in
    let overlap :=
      List.length
        (List.filter (fun word => array_includes candidateWords word)
                     inputWords) in
    let score :=
      Qmax score
           (Qof_nat overlap /
            Qof_nat (Nat.max (List.length inputWords)
                             (List.length candidateWords))) in
    let maxLength :=
      Nat.max (String.length inputNorm) (String.length candidateNorm) in
    if (0 <? maxLength)%nat then
      let distance := levenshteinDistance inputNorm candidateNorm in
      let similarity := 1 - Qof_nat distance / Qof_nat maxLength in
      Qmax score (similarity * (7#10))
    else score.

Definition fuzzyMatchLocation (input : string) (candidates : list Candidate)
  : option Candidate :=
  if (String.length input =? 0)%nat then None
  else
    let inputNorm := normalize input in
    let scores :=
      map (fun candidate => (candidate, score_of inputNorm candidate))
          candidates in
    let scores := array_sort (fun a b => snd b - snd a) scores in
    match scores with
    | top :: _ => if Qltb (3#10) (snd top) then Some (fst top) else None
    | [] => None
    end.

(** *** Routes *)

Record Route := {
  geometry : list coord;
  distance : Q;
  duration : Q;
  confidence : option Q;      (* [None]: not a finite number *)
  type : string;
  isFallback : bool;
  bounds : option box;
  congestion_level : option string
}.

(** [x || 0] on a number. *)
Definition or_zero (x : Q) : Q := if truthy x then x else 0.

(** One entry of [response.data.routes]; [osrm_coordinates] are
    [[lng, lat]] pairs. *)
Record OsrmRoute := {
  osrm_coordinates : option (list coord);
  osrm_distance : Q;
  osrm_duration : Q
}.

(** What [axios.get] on the routing URL does: it throws, or it answers
    with [response.data.routes]. *)
Inductive OsrmReply :=
  | OsrmFailure
  | OsrmReplied (routes : option (list OsrmRoute)).

Definition getRouteType (route : OsrmRoute) (index : nat) : string :=
  if (index =? 0)%nat then "OPTIMAL"
  else if Qltb (osrm_distance route) (osrm_distance route * (12#10))
  then "ALTERNATIVE"
  else if Qltb (osrm_duration route) (osrm_duration route * (13#10))
  then "TIME_SAVER"
  else "SCENIC".

(** [Math.min(0.95, (duration / 60) / (distance / 1000 * 60 * 3))]; with
    distance 0 the quotient is infinite or undefined. *)
Definition osrm_confidence (route : OsrmRoute) : option Q :=
  if truthy (osrm_distance route) then
    Some (Qmin (95#100)
               ((osrm_duration route / 60) /
                (osrm_distance route / 1000 * 60 * 3)))
  else if Qltb 0 (osrm_duration route) then Some (95#100)
  else None.

Definition osrm_to_route (index : nat) (route : OsrmRoute) : Route :=
  let geometry :=
    match osrm_coordinates route with
    | Some cs => map (fun coord : coord => (snd coord, fst coord)) cs
    | None => []
    end in
  {| geometry := geometry;
     distance := or_zero (osrm_distance route);
     duration := or_zero (osrm_duration route);
     confidence := osrm_confidence route;
     type := getRouteType route index;
     isFallback := false;
     bounds := if (0 <? List.length geometry)%nat
               then calculateRouteBounds (Some geometry) else None;
     congestion_level := None |}.

Section Routing.

(** [RouteService.calculateDistance]: the haversine great-circle
    distance in metres.  It is built from [Math.sin], [Math.cos],
    [Math.atan2] and [Math.sqrt], which have no rational counterpart;
    the routing functions take it as given. *)
Variable calculateDistance : Q -> Q -> Q -> Q -> Q.

(** The synthetic route: the object literal of the [catch] branch of
    [getRoute], repeated in the [catch] branch of
    [autoCalculateRoute]. *)
Definition fallbackRoute (rand1 rand2 : Q) (start end_ : coord) : Route :=
  let fallbackGeometry :=
    createCurvedRoute rand1 rand2 (Some start) (Some end_) in
  {| geometry := fallbackGeometry;
     distance :=
       calculateDistance (fst start) (snd start) (fst end_) (snd end_);
     duration :=
       calculateDistance (fst start) (snd start) (fst end_) (snd end_)
       / 1000 * 60 * 3;
     confidence := Some (3#10);
     type := "DIRECT";
     isFallback := true;
     bounds :=
       calculateBoundsFromPoints
         (Some (Some start :: Some end_ :: map Some fallbackGeometry));
     congestion_level := None |}.

(** [getRoute]: [inl] is the thrown error, [inr None] is [null]. *)
Definition getRoute (start end_ : option coord) (rand1 rand2 : Q)
           (reply : OsrmReply) : string + option (list Route) :=
  match start, end_ with
  | Some s, Some e =>
      if valid_point start && valid_point end_ then
        match reply with
        | OsrmReplied (Some (r :: rs)) =>
            inr (Some (imap osrm_to_route (r :: rs)))
        | OsrmReplied _ => inr None
        | OsrmFailure => inr (Some [fallbackRoute rand1 rand2 s e])
        end
      else inl "Invalid start or end coordinates"%string
  | _, _ => inl "Invalid start or end coordinates"%string
  end.

End Routing.

(** Two entries of the component's [sampleLocations]. *)
Definition mgRoad : Candidate :=
  {| name := "MG Road, Bangalore"; lat := 129758#10000; lng := 776050#10000 |}.

Definition cubbonPark : Candidate :=
  {| name := "Cubbon Park, Bangalore";
     lat := 129765#10000; lng := 775929#10000 |}.

(** *** Edit distance, as a recurrence *)

(** The characters of a string, first to last. *)
Definition chars (s : string) : list ascii := list_ascii_of_string s.

Definition subst_cost (c d : ascii) : nat := if Ascii.eqb c d then 0 else 1.

(** The edit-distance recurrence on two sequences read from their
    heads: delete, insert or substitute the first character. *)
Fixpoint edit (x : list ascii) : list ascii -> nat :=
  match x with
  | [] => fun y => List.length y
  | c :: x' =>
      fix edit_c (y : list ascii) : nat :=
        match y with
        | [] => S (List.length x')
        | d :: y' =>
            Nat.min (Nat.min (edit x' y + 1) (edit_c y' + 1))
                    (edit x' y' + subst_cost d c)
        end
  end.

(** Row [x] of the matrix past column [y]: the entries comparing the
    processed part [x] of [b] (newest character first) with the
    processed part of [a] extended by one, two, ... characters of the
    rest of [a]. *)
Fixpoint row_tail (x y : list ascii) (a : list ascii) : list nat :=
  match a with
  | [] => []
  | aj :: a' => edit x (aj :: y) :: row_tail x (aj :: y) a'
  end.


(** *** Predicates on strings *)

Fixpoint all_chars (P : ascii -> bool) (s : string) : bool :=
  match s with
  | EmptyString => true
  | String c s' => P c && all_chars P s'
  end.

(** A character [normalize] lets through: a lower-case letter, a digit,
    an underscore or white space. *)
Definition clean_char (c : ascii) : bool :=
  (is_word c || is_space c) && negb (is_upper c).


(** A string that does not begin with white space. *)
Definition starts_clean (s : string) : bool :=
  match s with
  | EmptyString => true
  | String c _ => negb (is_space c)
  end.

End RouteService.

(** ** TrafficMap.js: the map component *)

Module TrafficMap.

Import RouteService.

(** *** Traffic points *)

(** A traffic point, or an observation about one: every field may be
    absent from the object. *)
Record TrafficPoint := {
  id : option string;
  lat : option Q;
  lng : option Q;
  level : option string;
  vehicle_count : option Z;
  ambulance_detected : option bool;
  location_name : option string;
  timestamp : option string;
  user_id : option string
}.

(** One field of [{...old, ...new}]. *)
Definition spread_field {A : Type} (old new : option A) : option A :=
  match new with
  | Some v => Some v
  | None => old
  end.

(** [{ ...point, ...data }] *)
Definition spread (point data : TrafficPoint) : TrafficPoint :=
  {| id := spread_field (id point) (id data);
     lat := spread_field (lat point) (lat data);
     lng := spread_field (lng point) (lng data);
     level := spread_field (level point) (level data);
     vehicle_count := spread_field (vehicle_count point) (vehicle_count data);
     ambulance_detected :=
       spread_field (ambulance_detected point) (ambulance_detected data);
     location_name := spread_field (location_name point) (location_name data);
     timestamp := spread_field (timestamp point) (timestamp data);
     user_id := spread_field (user_id point) (user_id data) |}.

(** [a === b] on optional strings and on optional numbers. *)
Definition str_eq (a b : option string) : bool :=
  match a, b with
  | Some x, Some y => String.eqb x y
  | None, None => true
  | _, _ => false
  end.

Definition num_eq (a b : option Q) : bool :=
  match a, b with
  | Some x, Some y => Qeq_bool x y
  | None, None => true
  | _, _ => false
  end.

(** [Math.abs(a - b) < 0.001]; with an absent operand the difference is
    not a number and the comparison is false. *)
Definition within_threshold (a b : option Q) : bool :=
  match a, b with
  | Some x, Some y => Qltb (Qabs (x - y)) (1#1000)
  | _, _ => false
  end.

(** The [findIndex] predicate of the [traffic_update] handler. *)
Definition same_point (data point : TrafficPoint) : bool :=
  str_eq (id point) (id data) ||
  (within_threshold (lat point) (lat data) &&
   within_threshold (lng point) (lng data)).

(** The [setTrafficData] updater of the [traffic_update] handler. *)
Definition mergeTrafficUpdate (prev : list TrafficPoint) (data : TrafficPoint)
  : list TrafficPoint :=
  match list_find (fun point => same_point data point = true) prev with
  | Some (existingIndex, existing) =>
      <[existingIndex := spread existing data]> prev
  | None => prev ++ [data]
  end.

(** A message of the push channel. *)
Record WsMessage := {
  msg_type : string;
  msg_data : option TrafficPoint
}.

Definition ws_onmessage (prev : list TrafficPoint) (data : WsMessage)
  : list TrafficPoint :=
  match msg_data data with
  | Some d =>
      if String.eqb (msg_type data) "traffic_update"
      then mergeTrafficUpdate prev d else prev
  | None => prev
  end.

(** Both coordinates of the two points are within the threshold. *)
Definition near (a b : TrafficPoint) : bool :=
  within_threshold (lat a) (lat b) && within_threshold (lng a) (lng b).

(** The observation carries an id and both coordinates. *)
Definition keyed (d : TrafficPoint) : bool :=
  match id d, lat d, lng d with
  | Some _, Some _, Some _ => true
  | _, _, _ => false
  end.

(** Two observations that do not conflict, as the design document puts
    it: different ids, not within the threshold of each other, and not
    both within the threshold of one existing point. *)
Definition non_conflicting (prev : list TrafficPoint)
           (d1 d2 : TrafficPoint) : Prop :=
  id d1 <> id d2 /\
  near d1 d2 = false /\
  forall p, In p prev -> ~ (near p d1 = true /\ near p d2 = true).

(** *** Statistics *)

Record TrafficStats := {
  total_vehicles : Z;
  congested_points : nat;
  avg_speed : Q;
  data_points : nat
}.

(** [points.reduce((sum, point) => sum + (point.vehicle_count || 0), 0)] *)
Definition sumVehicles (points : list TrafficPoint) : Z :=
  fold_left (fun sum point => (sum + default 0 (vehicle_count point))%Z)
            points 0%Z.

Definition is_congested (point : TrafficPoint) : bool :=
  str_eq (level point) (Some "high"%string) ||
  str_eq (level point) (Some "medium"%string).

(** [points.filter(point => point.level === 'high' ||
    point.level === 'medium').length] *)
Definition countCongested (points : list TrafficPoint) : nat :=
  List.length (List.filter is_congested points).

(** The statistics block of [fetchBackendData]: the collection and the
    statistics set from one array of points.  [collective_avg_speed] is
    [collectiveTraffic?.avg_speed]. *)
Definition fetchBackendData_stats (trafficPoints : list TrafficPoint)
           (collective_avg_speed : option Q)
  : list TrafficPoint * TrafficStats :=
  let totalVehicles := sumVehicles trafficPoints in
  let congestedPoints := countCongested trafficPoints in
  (trafficPoints,
   {| total_vehicles := totalVehicles;
      congested_points := congestedPoints;
      avg_speed :=
        match collective_avg_speed with
        | Some v => if truthy v then v
                    else if (0 <? List.length trafficPoints)%nat then 30 else 0
        | None => if (0 <? List.length trafficPoints)%nat then 30 else 0
        end;
      data_points := List.length trafficPoints |}).

(** [handleTrafficUpdate]: the new collection and the new statistics.
    The statistics are computed from [trafficData], the collection as it
    was before the update. *)
Definition handleTrafficUpdate (trafficData : list TrafficPoint)
           (stats : TrafficStats) (updatedTrafficPoint : TrafficPoint)
  : list TrafficPoint * TrafficStats :=
  let hit point :=
    num_eq (lat point) (lat updatedTrafficPoint) &&
    num_eq (lng point) (lng updatedTrafficPoint) in
  let trafficData' :=
    map (fun point => if hit point then spread point updatedTrafficPoint
                      else point) trafficData in
  let totalVehicles :=
    (sumVehicles trafficData
     + default 0 (vehicle_count updatedTrafficPoint)
     - default 0 (List.find hit trafficData ≫= vehicle_count))%Z in
  let congestedPoints := countCongested trafficData in
  (trafficData',
   {| total_vehicles := totalVehicles;
      congested_points := congestedPoints;
      avg_speed := avg_speed stats;
      data_points := data_points stats |}).

(** *** Recommendations *)

(** A route object in an array: [ref] is the identity of the object,
    which [===] and [!==] compare. *)
Record RouteObj := {
  ref : nat;
  route : Route
}.

Definition same_object (a b : RouteObj) : bool := Nat.eqb (ref a) (ref b).

(** [!x || y !== x] for a route [x] that may be [undefined]. *)
Definition absent_or_other (x : option RouteObj) (y : RouteObj) : bool :=
  match x with
  | None => true
  | Some x => negb (same_object y x)
  end.

(** A recommendation; the title, description and icon texts are left
    out. *)
Record Recommendation := {
  rec_type : string;
  rec_route : RouteObj
}.

Definition generateRouteRecommendations (routes : list RouteObj)
  : list Recommendation :=
  let recommendations : list Recommendation := [] in
  let validRoutes :=
    List.filter (fun r => Qltb 0 (distance (route r)) &&
                          Qltb 0 (duration (route r))) routes in
  if (List.length validRoutes <? 1)%nat then []
  else
    let aiRoute :=
      List.find (fun r => String.eqb (type (route r)) "AI_OPTIMIZED")
                validRoutes in
    let recommendations :=
      match aiRoute with
      | Some r =>
          recommendations ++
          [{| rec_type := "AI_OPTIMIZED"; rec_route := r |}]
      | None => recommendations
      end in
    let enhancedRoute :=
      List.find (fun r => String.eqb (type (route r)) "ENHANCED_ROUTE")
                validRoutes in
    let recommendations :=
      match enhancedRoute with
      | Some r =>
          recommendations ++
          [{| rec_type := "ENHANCED_ROUTE"; rec_route := r |}]
      | None => recommendations
      end in
    let sortedByTime :=
      array_sort (fun a b => duration (route a) - duration (route b))
                 validRoutes in
    let sortedByDistance :=
      array_sort (fun a b => distance (route a) - distance (route b))
                 validRoutes in
    let recommendations :=
      match sortedByTime with
      | fastest :: _ =>
          if absent_or_other aiRoute fastest &&
             absent_or_other enhancedRoute fastest
          then recommendations ++
               [{| rec_type := "TIME_SAVER"; rec_route := fastest |}]
          else recommendations
      | [] => recommendations
      end in
    let recommendations :=
      match sortedByDistance with
      | shortest :: _ =>
          if absent_or_other aiRoute shortest &&
             absent_or_other enhancedRoute shortest
          then recommendations ++
               [{| rec_type := "DISTANCE_SAVER"; rec_route := shortest |}]
          else recommendations
      | [] => recommendations
      end in
    recommendations.

(** The pieces of [generateRouteRecommendations], named: the filter
    predicate, the [find] predicate, the entry pushed for a found route
    and the guarded entry pushed for the head of a sorted array. *)
Definition usable (r : RouteObj) : bool :=
  Qltb 0 (distance (route r)) && Qltb 0 (duration (route r)).

Definition has_type (t : string) (r : RouteObj) : bool :=
  String.eqb (type (route r)) t.

Definition pick (t : string) (found : option RouteObj) : list Recommendation :=
  match found with
  | Some r => [{| rec_type := t; rec_route := r |}]
  | None => []
  end.

Definition saver (t : string) (ai enh : option RouteObj)
           (sorted : list RouteObj) : list Recommendation :=
  match sorted with
  | first :: _ =>
      if absent_or_other ai first && absent_or_other enh first
      then [{| rec_type := t; rec_route := first |}]
      else []
  | [] => []
  end.

(** The categories, in priority order. *)
Definition categories : list string :=
  ["AI_OPTIMIZED"; "ENHANCED_ROUTE"; "TIME_SAVER"; "DISTANCE_SAVER"]%string.

(** Two entries may share a route object only as the fastest and the
    shortest route. *)
Definition repeat_allowed (x y : Recommendation) : Prop :=
  ref (rec_route x) = ref (rec_route y) ->
  rec_type x = "TIME_SAVER"%string /\ rec_type y = "DISTANCE_SAVER"%string.

(** An optimised route and a second route from the external router. *)
Definition optimisedObj : RouteObj :=
  {| ref := 1;
     route := {| geometry := [(1, 1); (2, 2)];
                 distance := 1200; duration := 500;
                 confidence := Some (9#10);
                 type := "AI_OPTIMIZED"; isFallback := false;
                 bounds := Some ((1, 1), (2, 2));
                 congestion_level := None |} |}.

(** No two entries of a recommendation list point to the same object. *)
Fixpoint distinct_routes (recs : list Recommendation) : bool :=
  match recs with
  | [] => true
  | r :: recs' =>
      forallb (fun r' => negb (same_object (rec_route r) (rec_route r'))) recs'
      && distinct_routes recs'
  end.

(** *** Route acquisition *)

(** [optimizedRoute.optimal_route] of the optimiser's answer; [path]
    holds the [[p.lat, p.lng]] pairs. *)
Record OptimalRoute := {
  path : option (list coord);
  distance_km : option Q;
  estimated_time_min : option Q;
  opt_confidence : option Q;
  opt_congestion_level : option string
}.

(** The answer of [start_end_route]. *)
Record StartEndRoute := {
  se_path : option (list coord);
  se_distance_km : option Q;
  se_estimated_time_min : option Q
}.

(** [x || d] on an optional number. *)
Definition num_or (x : option Q) (d : Q) : Q :=
  match x with
  | Some v => if truthy v then v else d
  | None => d
  end.

(** [path?.length > 0 ? calculateBoundsFromPoints(path.map(...)) : null] *)
Definition path_bounds (path : option (list coord)) : option box :=
  match path with
  | Some (p :: ps) => calculateBoundsFromPoints (Some (map Some (p :: ps)))
  | _ => None
  end.

(** The object built by [fetchAiOptimizedRoute]. *)
Definition aiRoute (optimal_route : OptimalRoute) : Route :=
  {| geometry := default [] (path optimal_route);
     distance := num_or (distance_km optimal_route) 0 * 1000;
     duration := num_or (estimated_time_min optimal_route) 0 * 60;
     confidence := Some (num_or (opt_confidence optimal_route) (9#10));
     type := "AI_OPTIMIZED";
     isFallback := false;
     bounds := path_bounds (path optimal_route);
     congestion_level := opt_congestion_level optimal_route |}.

(** The object built from the answer of [start_end_route]. *)
Definition enhancedRoute (startEndRoute : StartEndRoute)
           (path : list coord) : Route :=
  {| geometry := path;
     distance := num_or (se_distance_km startEndRoute) 0 * 1000;
     duration := num_or (se_estimated_time_min startEndRoute) 0 * 60;
     confidence := Some (8#10);
     type := "ENHANCED_ROUTE";
     isFallback := false;
     bounds := path_bounds (Some path);
     congestion_level := None |}.

(** What the three routing sources answer during one run of
    [autoCalculateRoute], and the random draws of the two places that
    build a synthetic route.  [None] for a server-side source: the
    request failed (the service wrapper returns [null]) or the answer
    has no [optimal_route]. *)
Record Sources := {
  optimizedRoute : option OptimalRoute;
  startEndRoute : option StartEndRoute;
  osrm : OsrmReply;
  draws_getRoute : Q * Q;
  draws_catch : Q * Q
}.

(** The routes of the two server-side sources, in the order in which
    [autoCalculateRoute] has them in [routes] before it asks the
    external router. *)
Definition served (net : Sources) : list Route :=
  match optimizedRoute net with
  | Some o => [aiRoute o]
  | None => []
  end ++
  match startEndRoute net ≫= se_path, startEndRoute net with
  | Some path, Some r => [enhancedRoute r path]
  | _, _ => []
  end.

Section Acquisition.

Variable calculateDistance : Q -> Q -> Q -> Q -> Q.

(** [autoCalculateRoute]: the [routes] state it leaves, from the
    [routes] state it finds. *)
Definition autoCalculateRoute (selectedStart selectedEnd : option coord)
           (net : Sources) (routes : list Route) : list Route :=
  match selectedStart, selectedEnd with
  | Some s, Some e =>
      if valid_point selectedStart && valid_point selectedEnd then
        (* setRoutes([]) *)
        let routes : list Route := [] in
        (* fetchAiOptimizedRoute: setRoutes(prev => [aiRoute, ...prev]) *)
        let routes :=
          match optimizedRoute net with
          | Some o => aiRoute o :: routes
          | None => routes
          end in
        (* setRoutes(prev => [...prev, enhancedRoute]) *)
        let routes :=
          match startEndRoute net with
          | Some r =>
              match se_path r with
              | Some path => routes ++ [enhancedRoute r path]
              | None => routes
              end
          | None => routes
          end in
        let fallback :=
          [fallbackRoute calculateDistance
                         (fst (draws_catch net)) (snd (draws_catch net)) s e] in
        match getRoute calculateDistance selectedStart selectedEnd
                       (fst (draws_getRoute net)) (snd (draws_getRoute net))
                       (osrm net) with
        | inr (Some routeOptions) =>
            let validRoutes :=
              List.filter (fun route => (0 <? List.length (geometry route))%nat)
                          routeOptions in
            if (0 <? List.length validRoutes)%nat
            then routes ++ validRoutes
            else fallback
        | _ => fallback
        end
      else routes
  | _, _ => routes
  end.

End Acquisition.

(** *** Sample data *)

(** An observation with an id and coordinates and nothing else. *)
Definition bare (i : string) (la lo : Q) : TrafficPoint :=
  {| id := Some i; lat := Some la; lng := Some lo;
     level := None; vehicle_count := None; ambulance_detected := None;
     location_name := None; timestamp := None; user_id := None |}.

(** A stored point with a level and a vehicle count. *)
Definition stored (i : string) (la lo : Q) (lv : string) (n : Z)
  : TrafficPoint :=
  {| id := Some i; lat := Some la; lng := Some lo;
     level := Some lv; vehicle_count := Some n;
     ambulance_detected := Some false;
     location_name := None; timestamp := None; user_id := None |}.

(** Statistics that agree with the one-point collection
    [[stored "p1" 1 1 "low" 5]]. *)
Definition stats_one_low : TrafficStats :=
  {| total_vehicles := 5; congested_points := 0;
     avg_speed := 30; data_points := 1 |}.

(** Statistics that agree with the two-point collection
    [[stored "p1" 1 1 "low" 5; stored "p2" 1 1 "low" 7]]. *)
Definition stats_two_low : TrafficStats :=
  {| total_vehicles := 12; congested_points := 0;
     avg_speed := 30; data_points := 2 |}.

(** A single usable route, as the external router returns it. *)
Definition soleRoute : RouteObj :=
  {| ref := 0;
     route := {| geometry := [(1, 1); (2, 2)];
                 distance := 1000; duration := 600;
                 confidence := Some (95#100);
                 type := "OPTIMAL"; isFallback := false;
                 bounds := Some ((1, 1), (2, 2));
                 congestion_level := None |} |}.

(** An optimiser answer whose path has a vertex on the equator. *)
Definition equatorAnswer : OptimalRoute :=
  {| path := Some [(0, 5); (1, 6)];
     distance_km := Some 2; estimated_time_min := Some 5;
     opt_confidence := Some (9#10); opt_congestion_level := None |}.

(** The optimiser answers and the external router fails. *)
Definition optimiserOnly : Sources :=
  {| optimizedRoute := Some equatorAnswer;
     startEndRoute := None;
     osrm := OsrmFailure;
     draws_getRoute := (1#2, 1#2);
     draws_catch := (1#2, 1#2) |}.

(** Every source fails. *)
Definition allFail : Sources :=
  {| optimizedRoute := None;
     startEndRoute := None;
     osrm := OsrmFailure;
     draws_getRoute := (1#4, 3#4);
     draws_catch := (1#2, 1#2) |}.

(** *** Predicates on points *)

(** The fields an observation carries are the fields of the point. *)
Definition absorbed (data point : TrafficPoint) : Prop :=
  spread point data = point.


(** The test of the [map] callback of [handleTrafficUpdate]. *)
Definition hit (u point : TrafficPoint) : bool :=
  num_eq (lat point) (lat u) && num_eq (lng point) (lng u).

End TrafficMap.

(** ** TrafficMap.js: class TrafficBackendService *)

Module TrafficBackendService.

Import RouteService TrafficMap.

(** What the program reads from its surroundings while it builds
    points: the clock, the clock as an ISO string, and [Math.random()].
    Each is indexed by the number of the point being built, counted
    from 0 over one call; a point draws twice, for its latitude and for
    its longitude. *)
Record Env := {
  now : nat -> Z;
  isoNow : nat -> string;
  random : nat -> Q
}.

(** The answer of [latest_traffic], as far as the client reads it. *)
Record LaneData := {
  ld_lane_1 : option Z;
  ld_lane_2 : option Z;
  ld_lane_3 : option Z;
  ld_ambulance_detected : option bool;
  ld_timestamp : option string;
  ld_user_id : option string;
  ld_traffic_points : option (list TrafficPoint)
}.

Definition baseLats : list Q :=
  [129716#10000; 129758#10000; 129279#10000; 129784#10000; 129698#10000].
Definition baseLngs : list Q :=
  [775946#10000; 776050#10000; 776271#10000; 776408#10000; 777500#10000].

(** [laneData[lane]] *)
Definition lane_count (laneData : LaneData) (lane : string) : option Z :=
  if String.eqb lane "lane_1" then ld_lane_1 laneData
  else if String.eqb lane "lane_2" then ld_lane_2 laneData
  else if String.eqb lane "lane_3" then ld_lane_3 laneData
  else None.

(** [Math.ceil(count / 5)] on an integer count. *)
Definition ceil_div5 (count : Z) : Z := (- ((- count) / 5))%Z.

(** [Math.min(3, Math.ceil(count / 5))] *)
Definition pointsToCreate (count : Z) : nat :=
  Z.to_nat (Z.min 3 (ceil_div5 count)).

Definition level_of (count : Z) : string :=
  if (15 <? count)%Z then "high"
  else if (8 <? count)%Z then "medium"
  else "low".

(** [x || d] on an optional string and an optional boolean. *)
Definition str_or (x : option string) (d : string) : string :=
  match x with
  | Some s => if (String.length s =? 0)%nat then d else s
  | None => d
  end.

(** [Math.floor(count / pointsToCreate) || 1] *)
Definition share (count : Z) (k : nat) : Z :=
  let q := (count / Z.of_nat k)%Z in
  if (q =? 0)%Z then 1%Z else q.

(** The points pushed for one lane by the body of the [forEach]
    callback; [pushed] is the length of [trafficPoints] when the
    callback starts. *)
Definition lanePoints (env : Env) (laneData : LaneData)
           (lane : string) (laneIndex : nat) (pushed : nat)
  : list TrafficPoint :=
  let count := default 0%Z (lane_count laneData lane) in
  if (0 <? count)%Z then
    let level := level_of count in
    let pointsToCreate := pointsToCreate count in
    map (fun i : nat =>
           let n := (pushed + i)%nat in
           let pointIndex :=
             ((laneIndex * pointsToCreate + i) mod List.length baseLats)%nat in
           {| id := Some (String.append "traffic_"
                          (String.append (pretty (now env n))
                          (String.append "_"
                          (String.append lane
                          (String.append "_" (pretty i))))));
              lat := Some (nth pointIndex baseLats 0 +
                           (random env (2 * n) - (1#2)) * (1#100));
              lng := Some (nth pointIndex baseLngs 0 +
                           (random env (2 * n + 1) - (1#2)) * (1#100));
              level := Some level;
              vehicle_count := Some (share count pointsToCreate);
              ambulance_detected :=
                Some (default false (ld_ambulance_detected laneData));
              location_name :=
                Some (String.append "Traffic Point "
                                    (pretty (laneIndex * 3 + i + 1)%nat));
              timestamp :=
                Some (str_or (ld_timestamp laneData) (isoNow env n));
              user_id := Some (str_or (ld_user_id laneData) "system") |})
        (seq 0 pointsToCreate)
  else [].

Definition createTrafficPointsFromLaneData (env : Env) (laneData : LaneData)
  : list TrafficPoint :=
  let trafficPoints : list TrafficPoint := [] in
  let trafficPoints :=
    trafficPoints ++
    lanePoints env laneData "lane_1" 0 (List.length trafficPoints) in
  let trafficPoints :=
    trafficPoints ++
    lanePoints env laneData "lane_2" 1 (List.length trafficPoints) in
  let trafficPoints :=
    trafficPoints ++
    lanePoints env laneData "lane_3" 2 (List.length trafficPoints) in
  trafficPoints.

(** The sum of the lane counts that are positive. *)
Definition positive_total (laneData : LaneData) : Z :=
  (Z.max 0 (default 0 (ld_lane_1 laneData)) +
   Z.max 0 (default 0 (ld_lane_2 laneData)) +
   Z.max 0 (default 0 (ld_lane_3 laneData)))%Z.

(** Sample surroundings: every draw is 1/2. *)
Definition midEnv : Env :=
  {| now := fun _ => 0%Z; isoNow := fun _ => ""%string;
     random := fun _ => 1#2 |}.

(** A report of 12, 0 and 20 vehicles on the three lanes. *)
Definition sampleLanes : LaneData :=
  {| ld_lane_1 := Some 12%Z; ld_lane_2 := Some 0%Z; ld_lane_3 := Some 20%Z;
     ld_ambulance_detected := None; ld_timestamp := None;
     ld_user_id := None; ld_traffic_points := None |}.

End TrafficBackendService.

(** ** TrafficMap.js: what the map component loads *)

Module MapComponent.

Import RouteService TrafficMap TrafficBackendService.

(** *** [TrafficBackendService.fetchLatestTraffic] *)

(** The outcome of the request for [latest_traffic]: it fails, or it
    answers with a body, which is an object or null.  A
    [traffic_points] field of the body is absent or an array. *)
Inductive LatestReply :=
| LatestFailed
| LatestAnswered (backendData : option LaneData).

(** [backendData.lane_1 !== undefined || backendData.lane_2 !== undefined
    || backendData.lane_3 !== undefined] *)
Definition lanes_reported (backendData : LaneData) : bool :=
  bool_decide (is_Some (ld_lane_1 backendData)) ||
  bool_decide (is_Some (ld_lane_2 backendData)) ||
  bool_decide (is_Some (ld_lane_3 backendData)).

(** [{ traffic_points: trafficPoints, ...backendData }]: a field of
    [backendData] with the same name comes later and wins. *)
Definition with_default_points (trafficPoints : list TrafficPoint)
           (backendData : LaneData) : LaneData :=
  {| ld_lane_1 := ld_lane_1 backendData;
     ld_lane_2 := ld_lane_2 backendData;
     ld_lane_3 := ld_lane_3 backendData;
     ld_ambulance_detected := ld_ambulance_detected backendData;
     ld_timestamp := ld_timestamp backendData;
     ld_user_id := ld_user_id backendData;
     ld_traffic_points :=
       Some (default trafficPoints (ld_traffic_points backendData)) |}.

Definition fetchLatestTraffic (env : Env) (reply : LatestReply) : LaneData :=
  match reply with
  | LatestAnswered (Some backendData) =>
      if lanes_reported backendData then
        let trafficPoints := createTrafficPointsFromLaneData env backendData in
        with_default_points trafficPoints backendData
      else
        match ld_traffic_points backendData with
        | Some _ => backendData
        | None => with_default_points [] backendData
        end
  | _ =>
      (* reading a field of a null body throws; the catch answers *)
      {| ld_lane_1 := None; ld_lane_2 := None; ld_lane_3 := None;
         ld_ambulance_detected := None;
         ld_timestamp := Some (isoNow env 0);
         ld_user_id := None;
         ld_traffic_points := Some [] |}
  end.

(** *** [createInitialTrafficData] *)

(** [levels[Math.floor(Math.random() * levels.length)]] *)
Definition pick_level (r : Q) : option string :=
  let k := Qfloor (r * 3) in
  if (k <? 0)%Z then None
  else nth_error ["low"; "medium"; "high"]%string (Z.to_nat k).

(** The loop of [createInitialTrafficData], from iteration [i] on, for
    [remaining] iterations; [drawn] counts the calls of [Math.random]
    made so far.  A level outside the three cases of the [switch]
    leaves the vehicle count at 0 and draws nothing. *)
Fixpoint initialLoop (env : Env) (remaining i drawn : nat)
  : list TrafficPoint :=
  match remaining with
  | O => []
  | S remaining' =>
      let lat := nth (i mod List.length baseLats) baseLats 0 +
                 (random env drawn - (1#2)) * (2#100) in
      let lng := nth (i mod List.length baseLngs) baseLngs 0 +
                 (random env (drawn + 1) - (1#2)) * (2#100) in
      let level := pick_level (random env (drawn + 2)) in
      let '(vehicleCount, drawn') :=
        match level with
        | Some lv =>
            if String.eqb lv "low" then
              ((Qfloor (random env (drawn + 3) * 10) + 1)%Z, (drawn + 4)%nat)
            else if String.eqb lv "medium" then
              ((Qfloor (random env (drawn + 3) * 15) + 10)%Z, (drawn + 4)%nat)
            else if String.eqb lv "high" then
              ((Qfloor (random env (drawn + 3) * 30) + 20)%Z, (drawn + 4)%nat)
            else (0%Z, (drawn + 3)%nat)
        | None => (0%Z, (drawn + 3)%nat)
        end in
      {| id := Some (String.append "traffic_"
                     (String.append (pretty (now env i))
                     (String.append "_" (pretty i))));
         lat := Some lat;
         lng := Some lng;
         level := level;
         vehicle_count := Some vehicleCount;
         ambulance_detected := Some (Qltb (9#10) (random env drawn'));
         location_name :=
           Some (String.append "Traffic Point " (pretty (i + 1)%nat));
         timestamp := Some (isoNow env i);
         user_id := Some "system"%string |}
      :: initialLoop env remaining' (S i) (S drawn')
  end.

Definition createInitialTrafficData (env : Env) : list TrafficPoint :=
  initialLoop env 12 0 0.

(** What holds of a demonstration point. *)
Definition demo_point (p : TrafficPoint) : Prop :=
  exists la lo lv v,
    lat p = Some la /\ lng p = Some lo /\
    level p = Some lv /\ vehicle_count p = Some v /\
    129179#10000 <= la /\ la <= 129884#10000 /\
    775846#10000 <= lo /\ lo <= 777600#10000 /\
    valid_point (Some (la, lo)) = true /\
    ((lv = "low"%string /\ 1 <= v <= 10)%Z \/
     (lv = "medium"%string /\ 10 <= v <= 24)%Z \/
     (lv = "high"%string /\ 20 <= v <= 49)%Z).

(** *** [fetchBackendData] of the component *)

(** What the component reads of the object
    [TrafficBackendService.fetchBackendData] answers with. *)
Record BackendData := {
  latestTraffic : option LaneData;
  collective_avg_speed : option Q      (* [collectiveTraffic?.avg_speed] *)
}.

(** The outcome of the request for [collective_traffic]: on failure
    the service answers with zeros of its own. *)
Inductive CollectiveReply :=
| CollectiveFailed
| CollectiveAnswered (avg_speed : option Q).

Definition fetchCollectiveTraffic_avg_speed (reply : CollectiveReply)
  : option Q :=
  match reply with
  | CollectiveFailed => Some 0
  | CollectiveAnswered v => v
  end.

(** [TrafficBackendService.fetchBackendData]: each of the fetchers it
    waits for catches its own failure, so the [catch] that answers null
    is not reached. *)
Definition service_fetchBackendData (env : Env) (latest : LatestReply)
           (collective : CollectiveReply) : option BackendData :=
  Some {| latestTraffic := Some (fetchLatestTraffic env latest);
          collective_avg_speed := fetchCollectiveTraffic_avg_speed collective |}.

Inductive BackendStatus := connected | simulated.

(** The points the component stores, chosen from [latestTraffic]. *)
Definition chooseTrafficPoints (env : Env) (latestTraffic : option LaneData)
  : list TrafficPoint :=
  match latestTraffic with
  | Some lt =>
      match ld_traffic_points lt with
      | Some (p :: l) => p :: l
      | _ =>
          if lanes_reported lt then createTrafficPointsFromLaneData env lt
          else createInitialTrafficData env
      end
  | None => createInitialTrafficData env
  end.

(** The component's [fetchBackendData]: the status, the collection and
    the statistics it sets for an answer of the service. *)
Definition fetchBackendData (env : Env) (backendData : option BackendData)
  : BackendStatus * (list TrafficPoint * TrafficStats) :=
  match backendData with
  | Some bd =>
      let trafficPoints := chooseTrafficPoints env (latestTraffic bd) in
      (connected,
       fetchBackendData_stats trafficPoints (collective_avg_speed bd))
  | None =>
      let trafficPoints := createInitialTrafficData env in
      (simulated,
       (trafficPoints,
        {| total_vehicles := sumVehicles trafficPoints;
           congested_points := countCongested trafficPoints;
           avg_speed := 30;
           data_points := List.length trafficPoints |}))
  end.

(** One refresh: the service is asked, the component stores. *)
Definition refresh (serviceEnv env : Env) (latest : LatestReply)
           (collective : CollectiveReply)
  : BackendStatus * (list TrafficPoint * TrafficStats) :=
  fetchBackendData env (service_fetchBackendData serviceEnv latest collective).

End MapComponent.

(** ** TrafficMap.js: place suggestions *)

Module Places.

Import RouteService.

(** [s.split(',')]: the pieces between commas, [cur] being the piece
    that is read. *)
Fixpoint split_comma_from (cur : string) (s : string) : list string :=
  match s with
  | EmptyString => [cur]
  | String c s' =>
      if Ascii.eqb c ","%char then cur :: split_comma_from EmptyString s'
      else split_comma_from (String.append cur (String c EmptyString)) s'
  end.

Definition split_comma (s : string) : list string :=
  split_comma_from EmptyString s.

(** [pieces.join(',')] *)
Fixpoint join_comma (pieces : list string) : string :=
  match pieces with
  | [] => EmptyString
  | [p] => p
  | p :: rest => String.append p (String ","%char (join_comma rest))
  end.

(** [s.split(',')[0]] *)
Definition first_part (s : string) : string :=
  List.hd EmptyString (split_comma s).

(** [x || d] on strings and on numbers. *)
Definition string_or (x : string) (d : string) : string :=
  if (String.length x =? 0)%nat then d else x.

Definition number_or (x : Q) (d : Q) : Q := if truthy x then x else d.

(** An entry of the answer of the geocoder.  [item_lat] and
    [item_lon] are the results of [parseFloat], [None] for [NaN]. *)
Record NominatimItem := {
  display_name : option string;
  item_lat : option Q;
  item_lon : option Q;
  item_type : option string;
  item_importance : option Q
}.

(** The outcome of the search request: the request or the decoding of
    its body throws, the answer is not [ok], or the body is an array. *)
Inductive SearchReply :=
| SearchFailed
| SearchNotOk
| SearchOk (data : list NominatimItem).

Record Suggestion := {
  s_name : string;
  s_lat : Q;
  s_lng : Q;
  s_type : string;
  s_importance : Q
}.

(** [RouteService.getPlaceSuggestions] *)
Definition getPlaceSuggestions (query : string) (reply : SearchReply)
  : list Suggestion :=
  if (String.length query <? 2)%nat then []
  else
    match reply with
    | SearchOk data =>
        map (fun item =>
               {| s_name :=
                    string_or
                      (default EmptyString
                         ((fun d => join_comma (take 2 (split_comma d)))
                            <$> display_name item))
                      query;
                  s_lat := number_or (default 0 (item_lat item)) (129716#10000);
                  s_lng := number_or (default 0 (item_lon item)) (775946#10000);
                  s_type :=
                    string_or (default EmptyString (item_type item)) "unknown";
                  s_importance := default 0 (item_importance item) |})
            data
    | _ => []
    end.

(** The test of the [find] callback: [item] is as near as 0.001 degrees
    to [current] in both coordinates. *)
Definition nearby (item current : Suggestion) : bool :=
  Qltb (Qabs (s_lat item - s_lat current)) (1#1000) &&
  Qltb (Qabs (s_lng item - s_lng current)) (1#1000).

(** The [reduce] that keeps a suggestion when none kept so far is
    nearby. *)
Definition keepDistinct (allSuggestions : list Suggestion) : list Suggestion :=
  fold_left
    (fun acc current =>
       match List.find (fun item => nearby item current) acc with
       | Some _ => acc
       | None => acc ++ [current]
       end)
    allSuggestions [].

(** The filter on the sample locations. *)
Definition sample_matches (input : string) (loc : Candidate) : bool :=
  includes (toLowerCase (name loc)) (toLowerCase input) ||
  includes (toLowerCase input) (first_part (toLowerCase (name loc))).

Definition fromSample (loc : Candidate) : Suggestion :=
  {| s_name := name loc;
     s_lat := number_or (lat loc) (129716#10000);
     s_lng := number_or (lng loc) (775946#10000);
     s_type := "sample";
     s_importance := 1 |}.

(** [allSuggestions] of the effect of [PlaceSuggestions]. *)
Definition allSuggestions (input : string) (sampleLocations : list Candidate)
           (reply : SearchReply) : list Suggestion :=
  let sampleMatches :=
    take 3 (List.filter (sample_matches input) sampleLocations) in
  let apiSuggestions := getPlaceSuggestions input reply in
  map fromSample sampleMatches ++ apiSuggestions.

(** The suggestions the effect of [PlaceSuggestions] stores. *)
Definition suggestions (input : string) (sampleLocations : list Candidate)
           (reply : SearchReply) : list Suggestion :=
  if (String.length input <? 2)%nat then []
  else take 7 (keepDistinct (allSuggestions input sampleLocations reply)).

(** [handleFromSuggestionSelect], on the text of the From box and the
    selected start: a missing suggestion or one with a zero coordinate
    changes nothing. *)
Definition handleFromSuggestionSelect (suggestion : option Suggestion)
           (fromLocation : string) (selectedStart : option coord)
  : string * option coord :=
  match suggestion with
  | Some s =>
      if negb (truthy (s_lat s)) || negb (truthy (s_lng s))
      then (fromLocation, selectedStart)
      else (s_name s, Some (s_lat s, s_lng s))
  | None => (fromLocation, selectedStart)
  end.

(** No two suggestions of a list, taken in their order, are nearby. *)
Definition apart (l : list Suggestion) : Prop :=
  ForallOrdPairs (fun a b => nearby a b = false) l.

End Places.

(** ** TrafficMap.js: geocoding of a typed location *)

Module Geocoding.

Import RouteService Places.











End Geocoding.

(** ** TrafficMap.js: the simulated navigation *)

Module Navigation.

Import RouteService.

(** [geometry[Math.min(Math.floor((progress / 100) * (geometry.length - 1)),
    geometry.length - 1)]]: the expression [startNavigation] and
    [NavigationProgressMarker] both use.  An index below 0 reads
    [undefined]. *)
Definition progressPosition (geometry : list coord) (progress : Q)
  : option coord :=
  let last := (Z.of_nat (List.length geometry) - 1)%Z in
  let progressIndex := Qfloor (progress / 100 * inject_Z last) in
  let index := Z.min progressIndex last in
  if (index <? 0)%Z then None else nth_error geometry (Z.to_nat index).

(** [NavigationProgressMarker]: the position of the marker, [None]
    when the component renders nothing. *)
Definition NavigationProgressMarker (route : option Route) (progress : Q)
  : option coord :=
  match route with
  | Some route =>
      if (List.length (geometry route) =? 0)%nat || Qeq_bool progress 0
      then None
      else
        match progressPosition (geometry route) progress with
        | Some position =>
            if truthy (fst position) && truthy (snd position)
            then Some position else None
        | None => None
        end
  | None => None
  end.

(** The state the navigation writes: the progress, the flag, whether
    the interval is still set, and, as logs, the messages spoken and
    the positions the map was flown to. *)
Record NavState := {
  navProgress : Q;
  isNavigating : bool;
  ticking : bool;
  spoken : list string;
  flownTo : list coord
}.

(** [startNavigation] with a selected route; [instruction] is the text
    it composes for the first message. *)
Definition startNavigation (instruction : string) : NavState :=
  {| navProgress := 0;
     isNavigating := true;
     ticking := true;
     spoken := [String.append "Navigation started. " instruction];
     flownTo := [] |}.

(** One run of the callback of the interval. *)
Definition tick (mapReady : bool) (selectedRoute : Route) (st : NavState)
  : NavState :=
  let prev := navProgress st in
  if Qle_bool 100 prev then
    {| navProgress := 100;
       isNavigating := false;
       ticking := false;
       spoken := spoken st ++ ["You have arrived at your destination!"%string];
       flownTo := flownTo st |}
  else
    {| navProgress := prev + (1#2);
       isNavigating := isNavigating st;
       ticking := ticking st;
       spoken :=
         spoken st ++
         (if Qeq_bool prev 25
          then ["Continue straight for 2 kilometers."%string] else []) ++
         (if Qeq_bool prev 50
          then ["Take the next right turn."%string] else []) ++
         (if Qeq_bool prev 75
          then ["Destination is approaching on your left."%string] else []);
       flownTo :=
         if mapReady then
           match progressPosition (geometry selectedRoute) prev with
           | Some position =>
               if truthy (fst position) && truthy (snd position)
               then flownTo st ++ [position] else flownTo st
           | None => flownTo st
           end
         else flownTo st |}.

(** The interval fires as long as it is set. *)
Definition fire (mapReady : bool) (selectedRoute : Route) (st : NavState)
  : NavState :=
  if ticking st then tick mapReady selectedRoute st else st.

(** The state after [n] periods of the interval. *)
Fixpoint after (n : nat) (mapReady : bool) (selectedRoute : Route)
         (st : NavState) : NavState :=
  match n with
  | O => st
  | S n' => fire mapReady selectedRoute (after n' mapReady selectedRoute st)
  end.

(** The messages of a whole navigation, each with the number of the
    period after which it has been spoken. *)
Definition schedule : list (nat * string) :=
  [(50%nat, "Continue straight for 2 kilometers.");
   (100%nat, "Take the next right turn.");
   (150%nat, "Destination is approaching on your left.");
   (200%nat, "You have arrived at your destination!")]%string.

Definition announced (n : nat) : list string :=
  map snd (List.filter (fun e => (fst e <? n)%nat) schedule).

End Navigation.

(** ** TrafficMap.js: what the map is fitted to *)

Module MapView.

Import RouteService.

(** [autoZoomToLocations]: the bounds it sets, [None] when it returns
    without setting any. *)
Definition autoZoomToLocations (selectedStart selectedEnd : option coord)
  : option box :=
  match selectedStart, selectedEnd with
  | Some s, Some e =>
      if valid_point selectedStart && valid_point selectedEnd then
        Some ((Qmin (fst s) (fst e), Qmin (snd s) (snd e)),
              (Qmax (fst s) (fst e), Qmax (snd s) (snd e)))
      else None
  | _, _ => None
  end.

(** The effect on [selectedRoute]: the bounds it sets, [None] when it
    sets none.  [Math.min(...lats)] has at least two arguments here. *)
Definition fitSelectedRoute (selectedRoute : option Route)
           (selectedStart selectedEnd : option coord) : option box :=
  match selectedRoute with
  | Some route =>
      if (0 <? List.length (geometry route))%nat then
        let allPoints :=
          validPoints
            (selectedStart :: selectedEnd :: map Some (geometry route)) in
        match allPoints with
        | c :: c' :: cs => Some (span c (c' :: cs))
        | _ => None
        end
      else None
  | None => None
  end.

(** [getAllPointsForBounds]; [None] is null. *)
Definition getAllPointsForBounds (selectedStart selectedEnd : option coord)
           (selectedRoute : option Route) (userLocation : option coord)
  : option (list coord) :=
  let points : list coord := [] in
  let points := points ++ validPoints [selectedStart] in
  let points := points ++ validPoints [selectedEnd] in
  let points :=
    match selectedRoute with
    | Some route => points ++ validPoints (map Some (geometry route))
    | None => points
    end in
  let points := points ++ validPoints [userLocation] in
  if (0 <? List.length points)%nat then Some points else None.

Definition getInitialCenter (userLocation selectedStart : option coord)
  : coord :=
  match userLocation with
  | Some u =>
      if valid_point userLocation then u
      else
        match selectedStart with
        | Some s => if valid_point selectedStart then s
                    else (129716#10000, 775946#10000)
        | None => (129716#10000, 775946#10000)
        end
  | None =>
      match selectedStart with
      | Some s => if valid_point selectedStart then s
                  else (129716#10000, 775946#10000)
      | None => (129716#10000, 775946#10000)
      end
  end.

Definition getInitialZoom (userLocation selectedStart : option coord) : Z :=
  if valid_point userLocation then 15%Z
  else if valid_point selectedStart then 14%Z
  else 12%Z.

End MapView.

(** ** CameraFeed.js: the traffic panel *)

Module CameraFeed.

Import RouteService.

Record PanelData := {
  lane1 : Z;
  lane2 : Z;
  lane3 : Z;
  congestion : string;
  signalStatus : string
}.

(** [Math.max(0, prev + Math.floor(Math.random() * 3) - 1)] *)
Definition drift (prev : Z) (r : Q) : Z :=
  Z.max 0 (prev + Qfloor (r * 3) - 1).

(** The updater of the [catch] of [processFrame]: simulated data, from
    four draws. *)
Definition simulate (r1 r2 r3 r4 : Q) (prev : PanelData) : PanelData :=
  let lane1 := drift (lane1 prev) r1 in
  let lane2 := drift (lane2 prev) r2 in
  let lane3 := drift (lane3 prev) r3 in
  let total := (lane1 + lane2 + lane3)%Z in
  {| lane1 := lane1;
     lane2 := lane2;
     lane3 := lane3;
     congestion :=
       if (15 <? total)%Z then "High"
       else if (8 <? total)%Z then "Medium" else "Low";
     signalStatus := if Qltb (8#10) r4 then "Red" else "Green" |}.

(** [getCongestionColor]; [None] is a missing label. *)
Definition getCongestionColor (congestion : option string) : string :=
  match toLowerCase <$> congestion with
  | Some c =>
      if String.eqb c "high" then "#ff4444"
      else if String.eqb c "medium" then "#ffaa00"
      else if String.eqb c "low" then "#44ff44"
      else "#ffffff"
  | None => "#ffffff"
  end.

(** The state the component starts with. *)
Definition initialPanel : PanelData :=
  {| lane1 := 0; lane2 := 0; lane3 := 0;
     congestion := "Low"; signalStatus := "Green" |}.

End CameraFeed.

(** ** TrafficDashboard.js: a later payload *)

Module DashboardSamples.

Import Dashboard.
Local Open Scope Z_scope.

(** A payload with lane totals 7, 2, 8: against [sample_538], the
    lane that was green has emptied and a red one has filled. *)
Definition sample_728 : TrafficData :=
  {| lane_1 := Some [("car"%string, 4); ("bike"%string, 3)];
     lane_2 := Some [("bus"%string, 2)];
     lane_3 := Some [("car"%string, 5); ("truck"%string, 3)];
     ambulance_detected := true |}.

End DashboardSamples.

(** * Part II: the properties *)

(** ** Signal arbitration *)

Module DashboardFacts.

Import Dashboard.
Local Open Scope Z_scope.

Lemma fold_left_add_sum (l : list Z) (a : Z) :
  fold_left (fun a b => a + b) l a = a + fold_right Z.add 0 l.
Proof.
  revert a. induction l as [|x l IH]; intros a; simpl.
  - lia.
  - rewrite IH. lia.
Qed.

Lemma getTotal_sum td lane :
  getTotal td lane =
  fold_right Z.add 0 (map snd (default [] (lane_lookup td lane))).
Proof. unfold getTotal. rewrite fold_left_add_sum. lia. Qed.

(** C1. A lane total is the sum of the lane's per-type counts.
    Whatever the totals are, [updateSignals] makes exactly one lane
    green and the other two red.  The green lane is the first
    lane, in the order lane_1, lane_2, lane_3, whose total is the
    minimum of the three: lane_1 unless a later lane is strictly
    smaller, lane_2 only when strictly below lane_1 and not above
    lane_3, lane_3 only when strictly below both.  Totals 5, 3, 8 give
    lane_2 green; totals 4, 4, 9 give lane_1 green. *)
Theorem updateSignals_first_minimum :
  (forall td lane,
     getTotal td lane =
     fold_right Z.add 0 (map snd (default [] (lane_lookup td lane)))) /\
  (forall td,
     let l1 := getTotal td "lane_1" in
     let l2 := getTotal td "lane_2" in
     let l3 := getTotal td "lane_3" in
     let s := updateSignals td in
     green_count s = 1%nat /\ red_count s = 2%nat /\
     (sig_lane_1 s = green <-> l1 <= l2 /\ l1 <= l3) /\
     (sig_lane_2 s = green <-> l2 < l1 /\ l2 <= l3) /\
     (sig_lane_3 s = green <-> l3 < l1 /\ l3 < l2)) /\
  (getTotal sample_538 "lane_1" = 5 /\ getTotal sample_538 "lane_2" = 3 /\
   getTotal sample_538 "lane_3" = 8 /\
   updateSignals sample_538 =
     {| sig_lane_1 := red; sig_lane_2 := green; sig_lane_3 := red |}) /\
  (getTotal sample_449 "lane_1" = 4 /\ getTotal sample_449 "lane_2" = 4 /\
   getTotal sample_449 "lane_3" = 9 /\
   updateSignals sample_449 =
     {| sig_lane_1 := green; sig_lane_2 := red; sig_lane_3 := red |}).
Proof.
  split; [exact getTotal_sum|].
  split; [| split; repeat split; reflexivity].
  intros td. cbv zeta. unfold updateSignals, green_count, red_count.
  generalize (getTotal td "lane_1") (getTotal td "lane_2")
             (getTotal td "lane_3").
  intros l1 l2 l3.
  destruct (Z.ltb_spec l2 l1) as [H21|H21];
    [destruct (Z.ltb_spec l3 l2) as [H3|H3]
    | destruct (Z.ltb_spec l3 l1) as [H3|H3]];
    cbn; repeat split; intros; try lia; try discriminate; auto.
Qed.

End DashboardFacts.

(** ** Facts about numbers *)

Lemma Qltb_lt x y : Qltb x y = true <-> x < y.
Proof.
  unfold Qltb. rewrite negb_true_iff, <- not_true_iff_false, Qle_bool_iff.
  split; [apply Qnot_le_lt | apply Qlt_not_le].
Qed.

Lemma Qltb_ge x y : Qltb x y = false <-> y <= x.
Proof.
  unfold Qltb. rewrite negb_false_iff. apply Qle_bool_iff.
Qed.

Lemma truthy_nonzero x : truthy x = true <-> ~ x == 0.
Proof.
  unfold truthy. rewrite negb_true_iff, <- not_true_iff_false, Qeq_bool_iff.
  tauto.
Qed.

Lemma Math_min_le_acc xs : forall x, Math_min x xs <= x.
Proof.
  induction xs as [|y xs IH]; intros x; simpl.
  - apply Qle_refl.
  - eapply Qle_trans; [apply IH | apply Q.le_min_l].
Qed.

Lemma Math_min_le x xs y : In y (x :: xs) -> Math_min x xs <= y.
Proof.
  revert x. induction xs as [|z xs IH]; intros x [Hy|Hy]; simpl in *.
  - subst. apply Qle_refl.
  - contradiction.
  - subst. eapply Qle_trans; [apply Math_min_le_acc | apply Q.le_min_l].
  - destruct Hy as [Hy|Hy].
    + subst. eapply Qle_trans; [apply Math_min_le_acc | apply Q.le_min_r].
    + apply IH. right. exact Hy.
Qed.

Lemma Math_max_ge_acc xs : forall x, x <= Math_max x xs.
Proof.
  induction xs as [|y xs IH]; intros x; simpl.
  - apply Qle_refl.
  - eapply Qle_trans; [apply Q.le_max_l | apply IH].
Qed.

Lemma Math_max_ge x xs y : In y (x :: xs) -> y <= Math_max x xs.
Proof.
  revert x. induction xs as [|z xs IH]; intros x [Hy|Hy]; simpl in *.
  - subst. apply Qle_refl.
  - contradiction.
  - subst. eapply Qle_trans; [apply Q.le_max_l | apply Math_max_ge_acc].
  - destruct Hy as [Hy|Hy].
    + subst. eapply Qle_trans; [apply Q.le_max_r | apply Math_max_ge_acc].
    + apply IH. right. exact Hy.
Qed.

(** ** Facts about arrays *)

(** What [array_sort] does for a comparator that orders by a rank: the
    result is a rearrangement whose first element has the least rank. *)
Section ArraySortFacts.
Context {A : Type} (cmp : A -> A -> Q) (rank : A -> Q).
Hypothesis cmp_rank : forall a b, 0 < cmp a b <-> rank b < rank a.

Lemma sort_insert_perm x l : Permutation (sort_insert cmp x l) (x :: l).
Proof.
  induction l as [|y l IH]; simpl.
  - reflexivity.
  - destruct (Qltb 0 (cmp x y)).
    + rewrite IH. apply perm_swap.
    + reflexivity.
Qed.

Lemma array_sort_perm l : Permutation (array_sort cmp l) l.
Proof.
  induction l as [|x l IH]; simpl.
  - reflexivity.
  - rewrite sort_insert_perm. apply perm_skip, IH.
Qed.

Lemma array_sort_nil l : array_sort cmp l = [] -> l = [].
Proof.
  intros H. apply Permutation_nil. rewrite <- H.
  apply array_sort_perm.
Qed.

Lemma array_sort_head l h t :
  array_sort cmp l = h :: t ->
  In h l /\ forall y, In y l -> rank h <= rank y.
Proof.
  revert h t. induction l as [|x l IH]; intros h t; simpl.
  - discriminate.
  - destruct (array_sort cmp l) as [|h' t'] eqn:E; simpl.
    + apply array_sort_nil in E. subst l.
      intros [= <- <-]. split; [now left|].
      intros y [<-|[]]. apply Qle_refl.
    + destruct (IH h' t' eq_refl) as [Hin Hmin].
      destruct (Qltb 0 (cmp x h')) eqn:C; intros [= <- <-].
      * apply Qltb_lt, cmp_rank in C.
        split; [now right|].
        intros y [<-|Hy]; [now apply Qlt_le_weak | now apply Hmin].
      * apply Qltb_ge in C.
        assert (Hx : rank x <= rank h').
        { apply Qnot_lt_le. intros Hlt. apply cmp_rank in Hlt.
          exact (Qlt_not_le _ _ Hlt C). }
        split; [now left|].
        intros y [<-|Hy]; [apply Qle_refl|].
        eapply Qle_trans; [exact Hx | now apply Hmin].
Qed.
End ArraySortFacts.

(** ** [findIndex] after an update *)

Section FindIndexFacts.
Context {A : Type} (P : A -> Prop) `{forall x, Decision (P x)}.

Lemma list_find_insert_other (l : list A) i j x y :
  list_find P l = Some (j, y) -> i <> j -> ~ P x ->
  list_find P (<[i := x]> l) = Some (j, y).
Proof.
  intros F Hij Hx. apply list_find_insert_Some.
  destruct (Nat.lt_ge_cases j i) as [Hlt|Hge].
  - left. now split.
  - right. right. left.
    assert (Hi : (i < j)%nat) by lia.
    repeat split; auto.
    intros z Hz. apply list_find_Some in F. destruct F as (_ & _ & Hmin).
    now apply (Hmin i z).
Qed.

Lemma list_find_insert_none (l : list A) i x :
  list_find P l = None -> ~ P x -> list_find P (<[i := x]> l) = None.
Proof.
  rewrite !list_find_None. intros Hl Hx. now apply Forall_insert.
Qed.

Lemma list_find_snoc_none (l : list A) x :
  list_find P l = None -> ~ P x -> list_find P (l ++ [x]) = None.
Proof.
  intros Hl Hx. apply list_find_app_None. split; [exact Hl|].
  apply list_find_None. repeat constructor. exact Hx.
Qed.

Lemma list_find_none_In (l : list A) x :
  list_find P l = None -> In x l -> ~ P x.
Proof.
  rewrite list_find_None, Forall_forall. intros Hl Hx.
  apply Hl. now apply list_elem_of_In.
Qed.

Lemma list_find_some_In (l : list A) i x :
  list_find P l = Some (i, x) -> In x l /\ P x.
Proof.
  intros F. apply list_find_Some in F. destruct F as (Hi & Hx & _).
  split; [|exact Hx]. apply list_elem_of_In. eapply list_elem_of_lookup_2, Hi.
Qed.
End FindIndexFacts.

(** ** Route service *)

Module RouteServiceFacts.

Import RouteService.

(** *** Facts about the bounds functions *)

Lemma span_in_box c cs p : In p (c :: cs) -> in_box (span c cs) p.
Proof.
  intros Hp. unfold in_box, span; simpl.
  assert (Hlat : In (fst p) (fst c :: map fst cs))
    by (change (In (fst p) (map fst (c :: cs))); now apply in_map).
  assert (Hlng : In (snd p) (snd c :: map snd cs))
    by (change (In (snd p) (map snd (c :: cs))); now apply in_map).
  repeat split;
    first [ now apply Math_min_le | now apply Math_max_ge ].
Qed.

Lemma calculateRouteBounds_in_box coordinates p :
  In p coordinates ->
  exists b, calculateRouteBounds (Some coordinates) = Some b /\ in_box b p.
Proof.
  destruct coordinates as [|c cs]; [intros []|]. intros Hp.
  exists (span c cs). split; [reflexivity | now apply span_in_box].
Qed.

Lemma valid_point_nonzero c :
  valid_point (Some c) = true <-> ~ fst c == 0 /\ ~ snd c == 0.
Proof.
  simpl. rewrite andb_true_iff, !truthy_nonzero. tauto.
Qed.

Lemma validPoints_In pts c :
  In c (validPoints pts) <-> In (Some c) pts /\ valid_point (Some c) = true.
Proof.
  unfold validPoints. induction pts as [|p pts IH]; simpl.
  - tauto.
  - destruct (valid_point p) eqn:V.
    + destruct p as [c'|]; [|discriminate]. simpl. rewrite IH.
      split.
      * intros [->|[? ?]]; [split; [now left | exact V] | tauto].
      * intros [[[= ->]|?] ?]; [now left | tauto].
    + simpl. rewrite IH. split; [tauto|].
      intros [[->|?] Hv]; [simpl in V; congruence | tauto].
Qed.

Lemma validPoints_app l1 l2 :
  validPoints (l1 ++ l2) = validPoints l1 ++ validPoints l2.
Proof.
  unfold validPoints. apply omap_app.
Qed.

Lemma calculateBoundsFromPoints_valid pts :
  calculateBoundsFromPoints (Some pts) =
  calculateRouteBounds (Some (validPoints pts)).
Proof.
  destruct pts as [|p pts]; [reflexivity|].
  unfold calculateBoundsFromPoints, calculateRouteBounds.
  now destruct (validPoints (p :: pts)).
Qed.

Lemma calculateBoundsFromPoints_in_box pts c :
  In (Some c) pts -> valid_point (Some c) = true ->
  exists b, calculateBoundsFromPoints (Some pts) = Some b /\ in_box b c.
Proof.
  intros Hin Hv. rewrite calculateBoundsFromPoints_valid.
  apply calculateRouteBounds_in_box, validPoints_In. now split.
Qed.

(** C10. [calculateBoundsFromPoints] computes the box of exactly the
    entries that are present and have a non-zero latitude and a non-zero
    longitude, in their order; it answers [null] exactly when no entry
    is of that kind; an entry that is missing or has a zero coordinate
    can be removed from the input without changing the answer.
    [calculateRouteBounds] has no such filter: on [[0, 5], [1, 6]] its
    box starts at latitude 0, while [calculateBoundsFromPoints] answers
    the box of [[1, 6]] alone. *)
Theorem calculateBoundsFromPoints_drops_zero :
  (forall pts,
     calculateBoundsFromPoints (Some pts) =
     calculateRouteBounds (Some (validPoints pts))) /\
  (forall pts c,
     In c (validPoints pts) <->
     In (Some c) pts /\ ~ fst c == 0 /\ ~ snd c == 0) /\
  (forall pts,
     calculateBoundsFromPoints (Some pts) = None <->
     forall p, In p pts -> valid_point p = false) /\
  (forall l1 l2 p,
     valid_point p = false ->
     calculateBoundsFromPoints (Some (l1 ++ p :: l2)) =
     calculateBoundsFromPoints (Some (l1 ++ l2))) /\
  (forall l1 l2 x y,
     x == 0 \/ y == 0 ->
     calculateBoundsFromPoints (Some (l1 ++ Some (x, y) :: l2)) =
     calculateBoundsFromPoints (Some (l1 ++ l2))) /\
  calculateRouteBounds (Some [(0, 5); (1, 6)]) = Some ((0, 5), (1, 6)) /\
  calculateBoundsFromPoints (Some [Some (0, 5); Some (1, 6)]) =
    Some ((1, 6), (1, 6)).
Proof.
  assert (Hdrop : forall l1 l2 p,
             valid_point p = false ->
             calculateBoundsFromPoints (Some (l1 ++ p :: l2)) =
             calculateBoundsFromPoints (Some (l1 ++ l2))).
  { intros l1 l2 p Hp. rewrite !calculateBoundsFromPoints_valid.
    rewrite !validPoints_app. unfold validPoints at 2. simpl.
    rewrite Hp. reflexivity. }
  split; [exact calculateBoundsFromPoints_valid|].
  split; [intros pts c; rewrite validPoints_In, valid_point_nonzero;
          reflexivity|].
  split.
  { intros pts. rewrite calculateBoundsFromPoints_valid. split.
    - intros H p Hp. destruct (valid_point p) eqn:V; [|reflexivity].
      destruct p as [c|]; [|discriminate].
      assert (Hc : In c (validPoints pts)) by (apply validPoints_In; auto).
      destruct (validPoints pts); [destruct Hc | discriminate].
    - intros H. destruct (validPoints pts) as [|c cs] eqn:E; [reflexivity|].
      assert (Hc : In c (validPoints pts)) by (rewrite E; now left).
      apply validPoints_In in Hc. destruct Hc as [Hin Hv].
      rewrite (H _ Hin) in Hv. discriminate. }
  split; [exact Hdrop|].
  split; [|split; reflexivity].
  intros l1 l2 x y Hz. apply Hdrop.
  destruct (valid_point (Some (x, y))) eqn:V; [|reflexivity].
  apply valid_point_nonzero in V. simpl in V. tauto.
Qed.

Lemma calculateBoundsFromPoints_drops_zero_witness :
  calculateBoundsFromPoints (Some ([Some (2, 3)] ++ Some (0, 9) :: [Some (4, 1)])) =
  calculateBoundsFromPoints (Some ([Some (2, 3)] ++ [Some (4, 1)])).
Proof.
  destruct calculateBoundsFromPoints_drops_zero as (_ & _ & _ & H & _).
  apply H. reflexivity.
Defined.

(** *** Facts about the synthetic curve *)

(** C5. For a start and an end pair, whatever the two random draws are,
    [createCurvedRoute] returns 21 points: the samples at [t = i/20],
    [i = 0..20], of the quadratic Bezier curve from start to end whose
    control point is the perturbed midpoint.  The first point is the
    start and the last point is the end. *)
Theorem createCurvedRoute_endpoints (rand1 rand2 : Q) (s e : coord) :
  let g := createCurvedRoute rand1 rand2 (Some s) (Some e) in
  List.length g = 21%nat /\
  g = map (fun i : nat =>
             bezier2 s (controlPoint rand1 rand2 s e) e (Qof_nat i / 20))
          (seq 0 21) /\
  (exists p, head g = Some p /\ coord_eq p s) /\
  (exists q, last g = Some q /\ coord_eq q e).
Proof.
  cbv zeta. split; [| split; [| split]].
  - unfold createCurvedRoute. now rewrite length_map, length_seq.
  - reflexivity.
  - eexists. split; [reflexivity|].
    unfold coord_eq, Qof_nat; simpl; split; field.
  - eexists. split; [reflexivity|].
    unfold coord_eq, Qof_nat; simpl; split; field.
Qed.

(** *** Facts about place-name matching *)

Lemma scores_head (inputNorm : string) (candidates : list Candidate) top rest :
  array_sort (fun a b : Candidate * Q => snd b - snd a)
    (map (fun candidate => (candidate, score_of inputNorm candidate))
         candidates) = top :: rest ->
  In (fst top) candidates /\
  snd top = score_of inputNorm (fst top) /\
  forall c, In c candidates -> score_of inputNorm c <= snd top.
Proof.
  intros H.
  apply (array_sort_head _ (fun a : Candidate * Q => - snd a)) in H.
  - destruct H as [Hin Hmin].
    apply in_map_iff in Hin. destruct Hin as (c0 & <- & Hc0). simpl.
    split; [exact Hc0|]. split; [reflexivity|].
    intros c Hc.
    specialize (Hmin (c, score_of inputNorm c)). simpl in Hmin.
    apply Qopp_le_compat in Hmin.
    + now rewrite !Qopp_involutive in Hmin.
    + apply in_map_iff. now exists c.
  - intros a b. simpl. split; intros Hlt.
    + apply Qopp_lt_compat. apply (Qplus_lt_l _ _ (- snd a)).
      now rewrite Qplus_opp_r.
    + apply Qopp_lt_compat in Hlt. rewrite !Qopp_involutive in Hlt.
      apply (Qplus_lt_l _ _ (- snd a)) in Hlt.
      now rewrite Qplus_opp_r in Hlt.
Qed.

(** C7. For a non-empty input: when every candidate scores at most 0.3
    the answer is [null]; an answer is a candidate of the list whose
    score is strictly above 0.3 and is the highest of the list; and when
    some candidate scores strictly above 0.3 there is an answer. *)
Theorem fuzzyMatchLocation_threshold (input : string)
        (candidates : list Candidate) :
  input <> EmptyString ->
  let inputNorm := normalize input in
  ((forall c, In c candidates -> score_of inputNorm c <= 3#10) ->
   fuzzyMatchLocation input candidates = None) /\
  (forall c,
     fuzzyMatchLocation input candidates = Some c ->
     In c candidates /\ 3#10 < score_of inputNorm c /\
     forall c', In c' candidates ->
                score_of inputNorm c' <= score_of inputNorm c) /\
  ((exists c, In c candidates /\ 3#10 < score_of inputNorm c) ->
   exists c, fuzzyMatchLocation input candidates = Some c).
Proof.
  intros Hne inputNorm. unfold fuzzyMatchLocation. fold inputNorm.
  destruct input as [|ch input']; [congruence|]. simpl String.length.
  simpl Nat.eqb. cbv iota.
  destruct (array_sort _ _) as [|top rest] eqn:E.
  - split; [reflexivity|]. split; [discriminate|].
    intros (c & Hc & _). apply array_sort_nil in E.
    destruct candidates; [destruct Hc | discriminate].
  - apply scores_head in E. destruct E as (Hin & Htop & Hmax).
    destruct (Qltb (3#10) (snd top)) eqn:T.
    + apply Qltb_lt in T. split; [| split].
      * intros Hall. specialize (Hall _ Hin). rewrite <- Htop in Hall.
        exfalso. exact (Qlt_not_le _ _ T Hall).
      * intros c [= <-]. rewrite <- Htop. auto.
      * intros _. eauto.
    + apply Qltb_ge in T. split; [reflexivity|]. split; [discriminate|].
      intros (c & Hc & Hlt). exfalso.
      apply (Qlt_not_le _ _ Hlt). eapply Qle_trans; [now apply Hmax | exact T].
Qed.

Lemma fuzzyMatchLocation_threshold_witness :
  fuzzyMatchLocation "xyz" [mgRoad; cubbonPark] = None.
Proof.
  destruct (fuzzyMatchLocation_threshold "xyz" [mgRoad; cubbonPark])
    as (H & _); [discriminate|].
  apply H. intros c [<-|[<-|[]]]; vm_compute; discriminate.
Defined.

Example fuzzyMatchLocation_exact :
  fuzzyMatchLocation "mg road bangalore" [cubbonPark; mgRoad] = Some mgRoad /\
  score_of (normalize "mg road bangalore") mgRoad = 1.
Proof. split; reflexivity. Qed.

Example fuzzyMatchLocation_typo :
  fuzzyMatchLocation "Cubon Park" [mgRoad; cubbonPark] = Some cubbonPark.
Proof. vm_compute. reflexivity. Qed.

(** *** Facts about the edit distance *)

Lemma edit_nil_r x : edit x [] = List.length x.
Proof. now destruct x. Qed.

Lemma edit_cons c x d y :
  edit (c :: x) (d :: y) =
  Nat.min (Nat.min (edit x (d :: y) + 1) (edit (c :: x) y + 1))
          (edit x y + subst_cost d c).
Proof. reflexivity. Qed.

Lemma subst_cost_sym c d : subst_cost c d = subst_cost d c.
Proof. unfold subst_cost. now rewrite Ascii.eqb_sym. Qed.

Lemma edit_sym x : forall y, edit x y = edit y x.
Proof.
  induction x as [|c x IHx]; intros y.
  - now rewrite edit_nil_r.
  - induction y as [|d y IHy].
    + reflexivity.
    + rewrite !edit_cons, IHy, (IHx (d :: y)), (IHx y), subst_cost_sym. lia.
Qed.

Lemma edit_refl x : edit x x = 0%nat.
Proof.
  induction x as [|c x IH]; [reflexivity|].
  rewrite edit_cons, IH. unfold subst_cost. rewrite Ascii.eqb_refl. lia.
Qed.

Lemma edit_zero x : forall y, edit x y = 0%nat -> x = y.
Proof.
  induction x as [|c x IHx]; intros y.
  - simpl. now destruct y.
  - destruct y as [|d y]; [discriminate|].
    rewrite edit_cons. unfold subst_cost.
    destruct (Ascii.eqb d c) eqn:E; intros H.
    + apply Ascii.eqb_eq in E. subst d. f_equal. apply IHx. lia.
    + lia.
Qed.

Lemma edit_upper x : forall y,
  (edit x y <= Nat.max (List.length x) (List.length y))%nat.
Proof.
  induction x as [|c x IHx]; intros y.
  - simpl. lia.
  - induction y as [|d y IHy].
    + simpl. lia.
    + rewrite edit_cons. specialize (IHx y). unfold subst_cost.
      destruct (Ascii.eqb d c); simpl List.length; lia.
Qed.

Lemma edit_lower x : forall y,
  (List.length x - List.length y <= edit x y /\
   List.length y - List.length x <= edit x y)%nat.
Proof.
  induction x as [|c x IHx]; intros y.
  - simpl. lia.
  - induction y as [|d y IHy].
    + simpl. lia.
    + rewrite edit_cons.
      pose proof (IHx y). pose proof (IHx (d :: y)).
      unfold subst_cost. destruct (Ascii.eqb d c); simpl List.length in *; lia.
Qed.

Lemma lev_row_spec c x a : forall y,
  lev_row c (string_of_list_ascii a) (edit (c :: x) y) (edit x y)
          (row_tail x y a) = row_tail (c :: x) y a.
Proof.
  induction a as [|aj a IH]; intros y; [reflexivity|].
  cbn [string_of_list_ascii lev_row row_tail]. cbv zeta.
  fold (subst_cost aj c). rewrite <- edit_cons. f_equal. apply IH.
Qed.

Lemma row_tail_nil a : forall y,
  row_tail [] y a = seq (S (List.length y)) (List.length a).
Proof.
  induction a as [|aj a IH]; intros y; [reflexivity|].
  cbn [row_tail List.length seq]. f_equal. apply IH.
Qed.

Lemma lev_rows_spec a b : forall x,
  lev_rows (string_of_list_ascii b) (string_of_list_ascii a)
           (List.length x) (edit x [] :: row_tail x [] a) =
  edit (rev b ++ x) [] :: row_tail (rev b ++ x) [] a.
Proof.
  induction b as [|bi b IH]; intros x; [reflexivity|].
  cbn [string_of_list_ascii lev_rows]. cbv zeta.
  assert (Hrow : lev_row bi (string_of_list_ascii a) (S (List.length x))
                         (edit x []) (row_tail x [] a) =
                 row_tail (bi :: x) [] a)
    by exact (lev_row_spec bi x a []).
  rewrite Hrow.
  etransitivity; [exact (IH (bi :: x))|].
  cbn [rev]. now rewrite <- app_assoc.
Qed.

Lemma last_row_tail x a : forall y d,
  List.last (edit x y :: row_tail x y a) d = edit x (rev a ++ y).
Proof.
  induction a as [|aj a IH]; intros y d; [reflexivity|].
  cbn [row_tail rev]. rewrite <- app_assoc. cbn [app].
  rewrite <- (IH (aj :: y) d). reflexivity.
Qed.

Lemma length_chars s : List.length (chars s) = String.length s.
Proof. induction s; simpl; auto. Qed.

Lemma levenshteinDistance_edit a b :
  levenshteinDistance a b = edit (rev (chars b)) (rev (chars a)).
Proof.
  unfold levenshteinDistance.
  destruct (Nat.eqb_spec (String.length a) 0) as [Ha|Ha].
  - destruct a; [|discriminate]. simpl.
    rewrite edit_nil_r, length_rev, length_chars. lia.
  - destruct (Nat.eqb_spec (String.length b) 0) as [Hb|Hb].
    + destruct b; [|discriminate]. simpl.
      rewrite length_rev, length_chars. lia.
    + cbn [orb].
      pose proof (lev_rows_spec (chars a) (chars b) []) as H.
      unfold chars in H at 1 2.
      rewrite !string_of_list_ascii_of_string in H.
      rewrite row_tail_nil, length_chars in H.
      cbn [List.length edit] in H.
      change (seq 0 (S (String.length a)))
        with (0%nat :: seq 1 (String.length a)).
      rewrite H, app_nil_r.
      rewrite (last_row_tail (rev (chars b)) (chars a) [] 0%nat).
      now rewrite app_nil_r.
Qed.

(** X1. The edit distance computed by [levenshteinDistance] is the same
    whichever of the two strings comes first. *)
Theorem levenshteinDistance_sym a b :
  levenshteinDistance a b = levenshteinDistance b a.
Proof. rewrite !levenshteinDistance_edit. apply edit_sym. Qed.

Lemma chars_inj a b : chars a = chars b -> a = b.
Proof.
  intros H. rewrite <- (string_of_list_ascii_of_string a),
                    <- (string_of_list_ascii_of_string b).
  unfold chars in H. now rewrite H.
Qed.

(** X2. [levenshteinDistance] is 0 exactly when the two strings are
    equal. *)
Theorem levenshteinDistance_zero a b :
  levenshteinDistance a b = 0%nat <-> a = b.
Proof.
  rewrite levenshteinDistance_edit. split.
  - intros H. apply edit_zero in H. apply rev_inj in H.
    symmetry. now apply chars_inj.
  - intros ->. apply edit_refl.
Qed.

(** X3. [levenshteinDistance] is at most the length of the longer
    string and at least the difference of the two lengths. *)
Theorem levenshteinDistance_bounds a b :
  (levenshteinDistance a b <= Nat.max (String.length a) (String.length b) /\
   String.length a - String.length b <= levenshteinDistance a b /\
   String.length b - String.length a <= levenshteinDistance a b)%nat.
Proof.
  rewrite levenshteinDistance_edit.
  pose proof (edit_upper (rev (chars b)) (rev (chars a))) as U.
  pose proof (edit_lower (rev (chars b)) (rev (chars a))) as L.
  rewrite !length_rev, !length_chars in U, L. lia.
Qed.

(** *** Facts about scores *)

Lemma Qof_nat_nonneg n : 0 <= Qof_nat n.
Proof. unfold Qof_nat, Qle; simpl. lia. Qed.

Lemma Qof_nat_pos n : (0 < n)%nat -> 0 < Qof_nat n.
Proof. unfold Qof_nat, Qlt; simpl. lia. Qed.

Lemma Qof_nat_le n m : (n <= m)%nat -> Qof_nat n <= Qof_nat m.
Proof. unfold Qof_nat, Qle; simpl. lia. Qed.

(** A ratio of a count to a larger positive count lies in [0, 1]. *)
Lemma ratio_unit n m :
  (n <= m)%nat -> (0 < m)%nat ->
  0 <= Qof_nat n / Qof_nat m /\ Qof_nat n / Qof_nat m <= 1.
Proof.
  intros Hnm Hm. pose proof (Qof_nat_pos m Hm) as Hpos. split.
  - apply Qle_shift_div_l; [exact Hpos|]. rewrite Qmult_0_l.
    apply Qof_nat_nonneg.
  - apply Qle_shift_div_r; [exact Hpos|]. rewrite Qmult_1_l.
    now apply Qof_nat_le.
Qed.

Lemma split_ws_from_nonempty s : forall cur gap,
  (0 < List.length (split_ws_from cur gap s))%nat.
Proof.
  induction s as [|c s IH]; intros cur gap; simpl; [lia|].
  destruct (is_space c); [destruct gap|]; simpl; auto; lia.
Qed.

(** X4. The score [fuzzyMatchLocation] gives a candidate lies between 0
    and 1, and is 1 when the normalised name of the candidate is the
    normalised input. *)
Theorem score_of_unit inputNorm candidate :
  0 <= score_of inputNorm candidate /\ score_of inputNorm candidate <= 1 /\
  (normalize (name candidate) = inputNorm ->
   score_of inputNorm candidate = 1).
Proof.
  unfold score_of. cbv zeta.
  destruct (String.eqb_spec (normalize (name candidate)) inputNorm) as [E|E].
  { repeat split; discriminate. }
  set (cn := normalize (name candidate)) in *.
  set (s0 := if includes cn inputNorm || includes inputNorm cn
             then 8 # 10 else 0).
  assert (H0 : 0 <= s0 /\ s0 <= 1).
  { unfold s0. destruct (_ || _); split; discriminate. }
  set (overlap := List.length (List.filter _ _)).
  set (maxw := Nat.max (List.length _) (List.length _)).
  assert (Hov : (overlap <= maxw)%nat).
  { unfold overlap, maxw.
    pose proof (filter_length_le
                  (fun word => array_includes (split_ws cn) word)
                  (split_ws inputNorm)). lia. }
  assert (Hmw : (0 < maxw)%nat).
  { unfold maxw, split_ws.
    pose proof (split_ws_from_nonempty inputNorm EmptyString false). lia. }
  destruct (ratio_unit overlap maxw Hov Hmw) as [R0 R1].
  assert (H1 : 0 <= Qmax s0 (Qof_nat overlap / Qof_nat maxw) /\
               Qmax s0 (Qof_nat overlap / Qof_nat maxw) <= 1).
  { split.
    - eapply Qle_trans; [apply H0 | apply Q.le_max_l].
    - apply Q.max_lub; tauto. }
  set (maxLength := Nat.max (String.length _) (String.length _)).
  destruct (Nat.ltb_spec 0 maxLength) as [Hm|Hm]; [|tauto].
  split; [| split; [| tauto]].
  - eapply Qle_trans; [apply H1 | apply Q.le_max_l].
  - apply Q.max_lub; [tauto|].
    set (d := levenshteinDistance inputNorm cn).
    assert (Hd : 0 <= Qof_nat d / Qof_nat maxLength).
    { apply Qle_shift_div_l; [now apply Qof_nat_pos|].
      rewrite Qmult_0_l. apply Qof_nat_nonneg. }
    apply Qle_trans with ((1 - 0) * (7 # 10)); [|discriminate].
    apply Qmult_le_compat_r; [|discriminate].
    apply Qplus_le_r. now apply Qopp_le_compat.
Qed.

(** X5. When the non-empty input equals the name of one of the
    candidates up to normalisation, [fuzzyMatchLocation] answers, and
    with a candidate of score 1. *)
Theorem fuzzyMatchLocation_exact_name input candidates c :
  input <> EmptyString -> In c candidates ->
  normalize (name c) = normalize input ->
  exists c', fuzzyMatchLocation input candidates = Some c' /\
             In c' candidates /\
             score_of (normalize input) c' == 1.
Proof.
  intros Hne Hc Hexact. unfold fuzzyMatchLocation.
  destruct input as [|ch input']; [congruence|].
  cbn [String.length Nat.eqb]. cbv zeta.
  set (inputNorm := normalize (String ch input')) in *.
  destruct (array_sort _ _) as [|top rest] eqn:E.
  { apply array_sort_nil in E. destruct candidates; [destruct Hc | discriminate]. }
  apply scores_head in E. destruct E as (Hin & Htop & Hmax).
  assert (H1 : snd top == 1).
  { apply Qle_antisym.
    - rewrite Htop. apply score_of_unit.
    - specialize (Hmax c Hc).
      destruct (score_of_unit inputNorm c) as (_ & _ & Hone).
      rewrite (Hone Hexact) in Hmax. exact Hmax. }
  assert (T : Qltb (3 # 10) (snd top) = true).
  { apply Qltb_lt. rewrite H1. reflexivity. }
  rewrite T. exists (fst top). repeat split; auto. now rewrite <- Htop.
Qed.

Lemma fuzzyMatchLocation_exact_name_witness :
  exists c', fuzzyMatchLocation "M.G. Road Bangalore" [cubbonPark; mgRoad]
             = Some c' /\
             In c' [cubbonPark; mgRoad] /\
             score_of (normalize "M.G. Road Bangalore") c' == 1.
Proof.
  apply (fuzzyMatchLocation_exact_name
           "M.G. Road Bangalore" [cubbonPark; mgRoad] mgRoad).
  - discriminate.
  - right. now left.
  - reflexivity.
Defined.

(** *** Facts about normalisation *)

Lemma lower_char_clean c :
  is_upper (lower_char c) = false /\
  is_word (lower_char c) = is_word c /\
  is_space (lower_char c) = is_space c.
Proof. destruct c as [[] [] [] [] [] [] [] []]; repeat split. Qed.

Lemma toLowerCase_fixed s :
  all_chars (fun c => negb (is_upper c)) s = true -> toLowerCase s = s.
Proof.
  induction s as [|c s IH]; simpl; [reflexivity|].
  intros H. apply andb_true_iff in H. destruct H as [Hc Hs].
  unfold lower_char. apply negb_true_iff in Hc. rewrite Hc. now rewrite IH.
Qed.

Lemma strip_punct_fixed s :
  all_chars (fun c => is_word c || is_space c) s = true -> strip_punct s = s.
Proof.
  induction s as [|c s IH]; simpl; [reflexivity|].
  intros H. apply andb_true_iff in H. destruct H as [Hc Hs].
  rewrite Hc. now rewrite IH.
Qed.

Lemma strip_lower_clean s :
  all_chars clean_char (strip_punct (toLowerCase s)) = true.
Proof.
  induction s as [|c s IH]; simpl; [reflexivity|].
  destruct (lower_char_clean c) as (Hu & Hw & Hs).
  destruct (is_word (lower_char c) || is_space (lower_char c)) eqn:E.
  - simpl. unfold clean_char at 1. now rewrite E, Hu, IH.
  - exact IH.
Qed.

Lemma trimStart_all P s :
  all_chars P s = true -> all_chars P (trimStart s) = true.
Proof.
  induction s as [|c s IH]; simpl; [reflexivity|].
  intros H. destruct (is_space c); [|exact H].
  apply andb_true_iff in H. now apply IH.
Qed.

Lemma trimEnd_all P s :
  all_chars P s = true -> all_chars P (trimEnd s) = true.
Proof.
  induction s as [|c s IH]; simpl; [reflexivity|].
  intros H. apply andb_true_iff in H. destruct H as [Hc Hs].
  specialize (IH Hs). destruct (trimEnd s).
  - destruct (is_space c); simpl; [reflexivity | now rewrite Hc].
  - simpl in *. now rewrite Hc.
Qed.

Lemma trimEnd_idem s : trimEnd (trimEnd s) = trimEnd s.
Proof.
  induction s as [|c s IH]; simpl; [reflexivity|].
  destruct (trimEnd s) as [|d r] eqn:E.
  - destruct (is_space c) eqn:Sc; [reflexivity|].
    cbn [trimEnd]. now rewrite Sc.
  - change (trimEnd (String c (String d r)))
      with (match trimEnd (String d r) with
            | EmptyString =>
                if is_space c then EmptyString else String c EmptyString
            | r' => String c r'
            end).
    now rewrite IH.
Qed.

Lemma trimStart_starts_clean s : starts_clean (trimStart s) = true.
Proof.
  induction s as [|c s IH]; simpl; [reflexivity|].
  destruct (is_space c) eqn:E; [exact IH | simpl; now rewrite E].
Qed.

Lemma trimStart_fixed s : starts_clean s = true -> trimStart s = s.
Proof.
  destruct s as [|c s]; simpl; [reflexivity|].
  intros H. apply negb_true_iff in H. now rewrite H.
Qed.

Lemma trimEnd_starts_clean s :
  starts_clean s = true -> starts_clean (trimEnd s) = true.
Proof.
  destruct s as [|c s]; simpl; [reflexivity|].
  intros H. destruct (trimEnd s).
  - apply negb_true_iff in H. rewrite H. simpl. now rewrite H.
  - exact H.
Qed.

Lemma trim_idem s : trim (trim s) = trim s.
Proof.
  unfold trim.
  rewrite (trimStart_fixed (trimEnd (trimStart s))).
  - apply trimEnd_idem.
  - apply trimEnd_starts_clean, trimStart_starts_clean.
Qed.

Lemma all_chars_weaken (P R : ascii -> bool) s :
  (forall c, P c = true -> R c = true) ->
  all_chars P s = true -> all_chars R s = true.
Proof.
  intros HPR. induction s as [|c s IH]; simpl; [reflexivity|].
  intros H. apply andb_true_iff in H. destruct H as [Hc Hs].
  now rewrite (HPR c Hc), IH.
Qed.

(** X6. A normalised string holds only lower-case letters, digits,
    underscores and white space, has no white space at either end, and
    is left as it is by a second normalisation. *)
Theorem normalize_idempotent str :
  all_chars clean_char (normalize str) = true /\
  trim (normalize str) = normalize str /\
  normalize (normalize str) = normalize str.
Proof.
  assert (Hclean : all_chars clean_char (normalize str) = true).
  { unfold normalize, trim. apply trimEnd_all, trimStart_all, strip_lower_clean. }
  assert (Htrim : trim (normalize str) = normalize str).
  { unfold normalize. apply trim_idem. }
  split; [exact Hclean|]. split; [exact Htrim|].
  unfold normalize at 1.
  rewrite toLowerCase_fixed.
  - rewrite strip_punct_fixed; [exact Htrim|].
    revert Hclean. apply all_chars_weaken. unfold clean_char.
    intros c H. now apply andb_true_iff in H.
  - revert Hclean. apply all_chars_weaken. unfold clean_char.
    intros c H. now apply andb_true_iff in H.
Qed.

(** *** More facts about the bounds functions *)

Lemma Qmin_case x y : Qmin x y = x \/ Qmin x y = y.
Proof.
  unfold Qmin, GenericMinMax.gmin. destruct (x ?= y); auto.
Qed.

Lemma Qmax_case x y : Qmax x y = x \/ Qmax x y = y.
Proof.
  unfold Qmax, GenericMinMax.gmax. destruct (x ?= y); auto.
Qed.

Lemma Math_min_In xs : forall x, In (Math_min x xs) (x :: xs).
Proof.
  induction xs as [|y xs IH]; intros x; [now left|].
  change (Math_min x (y :: xs)) with (Math_min (Qmin x y) xs).
  destruct (IH (Qmin x y)) as [H|H].
  - rewrite <- H. destruct (Qmin_case x y) as [E|E]; rewrite E.
    + now left.
    + right. now left.
  - right. right. exact H.
Qed.

Lemma Math_max_In xs : forall x, In (Math_max x xs) (x :: xs).
Proof.
  induction xs as [|y xs IH]; intros x; [now left|].
  change (Math_max x (y :: xs)) with (Math_max (Qmax x y) xs).
  destruct (IH (Qmax x y)) as [H|H].
  - rewrite <- H. destruct (Qmax_case x y) as [E|E]; rewrite E.
    + now left.
    + right. now left.
  - right. right. exact H.
Qed.

(** X7. [calculateRouteBounds] answers null exactly for an empty
    coordinate list.  Otherwise each of the four sides of its box goes
    through a coordinate of the list, the south-west corner is not
    beyond the north-east corner, and every box that contains all the
    coordinates contains this one: it is the smallest such box. *)
Theorem calculateRouteBounds_tight (coordinates : list coord) :
  (calculateRouteBounds (Some coordinates) = None <-> coordinates = []) /\
  (forall b,
     calculateRouteBounds (Some coordinates) = Some b ->
     (exists p, In p coordinates /\ fst p = fst (fst b)) /\
     (exists p, In p coordinates /\ snd p = snd (fst b)) /\
     (exists p, In p coordinates /\ fst p = fst (snd b)) /\
     (exists p, In p coordinates /\ snd p = snd (snd b)) /\
     fst (fst b) <= fst (snd b) /\ snd (fst b) <= snd (snd b) /\
     forall b', (forall p, In p coordinates -> in_box b' p) ->
                fst (fst b') <= fst (fst b) /\ fst (snd b) <= fst (snd b') /\
                snd (fst b') <= snd (fst b) /\ snd (snd b) <= snd (snd b')).
Proof.
  destruct coordinates as [|c cs].
  { split; [tauto|]. discriminate. }
  split; [split; discriminate|].
  intros b [= <-]. unfold span; cbn [fst snd].
  assert (Hin : forall (f : coord -> Q) v,
             In v (f c :: map f cs) -> exists p, In p (c :: cs) /\ f p = v).
  { intros f v [<-|H]; [exists c; split; [now left | reflexivity]|].
    apply in_map_iff in H. destruct H as (p & <- & Hp).
    exists p. split; [now right | reflexivity]. }
  pose proof (Hin fst _ (Math_min_In (map fst cs) (fst c))) as A1.
  pose proof (Hin snd _ (Math_min_In (map snd cs) (snd c))) as A2.
  pose proof (Hin fst _ (Math_max_In (map fst cs) (fst c))) as A3.
  pose proof (Hin snd _ (Math_max_In (map snd cs) (snd c))) as A4.
  split; [exact A1|]. split; [exact A2|]. split; [exact A3|].
  split; [exact A4|].
  split; [| split].
  - eapply Qle_trans; [apply Math_min_le_acc | apply Math_max_ge_acc].
  - eapply Qle_trans; [apply Math_min_le_acc | apply Math_max_ge_acc].
  - intros b' Hall.
    destruct A1 as (p1 & Hp1 & <-), A2 as (p2 & Hp2 & <-),
             A3 as (p3 & Hp3 & <-), A4 as (p4 & Hp4 & <-).
    pose proof (Hall p1 Hp1) as B1. pose proof (Hall p2 Hp2) as B2.
    pose proof (Hall p3 Hp3) as B3. pose proof (Hall p4 Hp4) as B4.
    unfold in_box in *. tauto.
Qed.

(** *** Facts about the router's answer *)



(** *** More facts about the synthetic curve *)

Lemma bezier_offset_bound (t d : Q) :
  0 <= t -> t <= 1 -> - (1 # 200) <= d -> d <= 1 # 200 ->
  - (1 # 400) <= 2 * (1 - t) * t * d /\ 2 * (1 - t) * t * d <= 1 # 400.
Proof.
  intros Ht0 Ht1 Hd0 Hd1.
  assert (Hu0 : 0 <= (1 - t) * t)
    by (apply Qmult_le_0_compat; lra).
  assert (Hsq : 0 <= (t - (1 # 2)) * (t - (1 # 2))).
  { destruct (Qlt_le_dec t (1 # 2)) as [H|H].
    - assert (E : (t - (1 # 2)) * (t - (1 # 2))
                  == ((1 # 2) - t) * ((1 # 2) - t)) by ring.
      rewrite E. apply Qmult_le_0_compat; lra.
    - apply Qmult_le_0_compat; lra. }
  assert (Hu1 : (1 - t) * t <= 1 # 4).
  { assert (E : (1 - t) * t
                == (1 # 4) - (t - (1 # 2)) * (t - (1 # 2))) by ring.
    rewrite E. lra. }
  set (u := (1 - t) * t) in *.
  assert (E : 2 * (1 - t) * t * d == 2 * (u * d)) by (unfold u; ring).
  rewrite E. clearbody u.
  assert (P1 : 0 <= u * ((1 # 200) - d)) by (apply Qmult_le_0_compat; lra).
  assert (P2 : 0 <= u * (d + (1 # 200))) by (apply Qmult_le_0_compat; lra).
  assert (E1 : u * ((1 # 200) - d) == u * (1 # 200) - u * d) by ring.
  assert (E2 : u * (d + (1 # 200)) == u * d + u * (1 # 200)) by ring.
  rewrite E1 in P1. rewrite E2 in P2.
  set (w := u * d) in *. clearbody w. split; lra.
Qed.

(** X9. With both draws of [Math.random] in [0, 1], every sample of
    [createCurvedRoute] lies within 0.0025 degrees, in latitude and in
    longitude, of the point at the same parameter on the straight
    segment from the start to the end. *)
Theorem createCurvedRoute_near_chord (rand1 rand2 : Q) (s e : coord)
        (i : nat) (p : coord) :
  0 <= rand1 -> rand1 <= 1 -> 0 <= rand2 -> rand2 <= 1 ->
  createCurvedRoute rand1 rand2 (Some s) (Some e) !! i = Some p ->
  let t := Qof_nat i / 20 in
  Qabs (fst p - ((1 - t) * fst s + t * fst e)) <= 1 # 400 /\
  Qabs (snd p - ((1 - t) * snd s + t * snd e)) <= 1 # 400.
Proof.
  intros H1 H1' H2 H2' Hp t.
  unfold createCurvedRoute in Hp. cbv zeta in Hp.
  rewrite list_lookup_fmap in Hp.
  destruct (seq 0 21 !! i) as [k|] eqn:Hk; [|discriminate].
  apply lookup_seq in Hk. destruct Hk as [-> Hi]. cbn [Nat.add] in Hp.
  injection Hp as <-. cbn [fst snd].
  change (Qof_nat 20) with (20 : Q). fold t.
  assert (Ht0 : 0 <= t).
  { unfold t. apply Qle_shift_div_l; [reflexivity|].
    rewrite Qmult_0_l. apply Qof_nat_nonneg. }
  assert (Ht1 : t <= 1).
  { unfold t. apply Qle_shift_div_r; [reflexivity|].
    rewrite Qmult_1_l. change (20 : Q) with (Qof_nat 20).
    apply Qof_nat_le. lia. }
  assert (Hoff : forall a b r, 0 <= r -> r <= 1 ->
            Qabs ((1 - t) ^ 2 * a +
                  2 * (1 - t) * t * ((a + b) / 2 + (r - (1 # 2)) * (1 # 100)) +
                  t ^ 2 * b - ((1 - t) * a + t * b)) <= 1 # 400).
  { intros a b r Hr0 Hr1.
    assert (E : (1 - t) ^ 2 * a +
                2 * (1 - t) * t * ((a + b) / 2 + (r - (1 # 2)) * (1 # 100)) +
                t ^ 2 * b - ((1 - t) * a + t * b)
                == 2 * (1 - t) * t * ((r - (1 # 2)) * (1 # 100))) by field.
    rewrite E. apply Qabs_Qle_condition.
    apply bezier_offset_bound; auto; lra. }
  split; apply Hoff; assumption.
Qed.

Lemma createCurvedRoute_near_chord_witness :
  Qabs (fst (default (0, 0)
               (createCurvedRoute 1 0 (Some (1, 1)) (Some (3, 5)) !! 10%nat))
        - ((1 - Qof_nat 10 / 20) * fst (1, 1) +
           Qof_nat 10 / 20 * fst (3, 5))) <= 1 # 400 /\
  Qabs (snd (default (0, 0)
               (createCurvedRoute 1 0 (Some (1, 1)) (Some (3, 5)) !! 10%nat))
        - ((1 - Qof_nat 10 / 20) * snd (1, 1) +
           Qof_nat 10 / 20 * snd (3, 5))) <= 1 # 400.
Proof.
  apply (createCurvedRoute_near_chord 1 0 (1, 1) (3, 5) 10
           (default (0, 0)
              (createCurvedRoute 1 0 (Some (1, 1)) (Some (3, 5)) !! 10%nat))).
  - discriminate.
  - discriminate.
  - discriminate.
  - discriminate.
  - vm_compute. reflexivity.
Defined.

End RouteServiceFacts.

(** ** Map component *)

Module TrafficMapFacts.

Import RouteService RouteServiceFacts TrafficMap.

(** *** Facts about the merge of a pushed observation *)

Lemma spread_field_idem {A : Type} (old new : option A) :
  spread_field (spread_field old new) new = spread_field old new.
Proof. now destruct new. Qed.

Lemma spread_field_self {A : Type} (x : option A) : spread_field x x = x.
Proof. now destruct x. Qed.

Lemma spread_idem point data :
  spread (spread point data) data = spread point data.
Proof. unfold spread; simpl. now rewrite !spread_field_idem. Qed.

Lemma spread_self data : spread data data = data.
Proof. destruct data. unfold spread; simpl. now rewrite !spread_field_self. Qed.

Lemma str_eq_refl a : str_eq a a = true.
Proof. destruct a; simpl; [apply String.eqb_refl | reflexivity]. Qed.

Lemma str_eq_sym a b : str_eq a b = str_eq b a.
Proof. destruct a, b; simpl; try reflexivity. apply String.eqb_sym. Qed.

Lemma within_threshold_refl x : within_threshold (Some x) (Some x) = true.
Proof.
  simpl. apply Qltb_lt.
  assert (E : Qabs (x - x) == 0).
  { rewrite (Qabs_wd (x - x) 0) by ring. reflexivity. }
  rewrite E. reflexivity.
Qed.

Lemma within_threshold_sym a b : within_threshold a b = within_threshold b a.
Proof.
  destruct a, b; unfold within_threshold; try reflexivity.
  now rewrite Qabs_Qminus.
Qed.

Lemma within_threshold_Some a b :
  within_threshold a b = true -> exists x y, a = Some x /\ b = Some y.
Proof. destruct a, b; simpl; try discriminate. eauto. Qed.

Lemma same_point_refl data : same_point data data = true.
Proof. unfold same_point. now rewrite str_eq_refl. Qed.

Lemma same_point_sym d1 d2 : same_point d1 d2 = same_point d2 d1.
Proof.
  unfold same_point.
  now rewrite str_eq_sym, (within_threshold_sym (lat d2)),
              (within_threshold_sym (lng d2)).
Qed.

(** A point that matched an observation still matches it once the
    observation has been written over it. *)
Lemma same_point_spread data point :
  same_point data point = true -> same_point data (spread point data) = true.
Proof.
  unfold same_point, spread; simpl. intros H.
  destruct (id data) as [i|] eqn:Eid; simpl.
  - now rewrite String.eqb_refl.
  - apply orb_true_iff in H. destruct H as [H|H].
    + rewrite H. reflexivity.
    + apply andb_true_iff in H. destruct H as [Hlat Hlng].
      destruct (within_threshold_Some _ _ Hlat) as (x & y & _ & ->).
      destruct (within_threshold_Some _ _ Hlng) as (x' & y' & _ & ->).
      simpl spread_field. rewrite !within_threshold_refl.
      apply orb_true_r.
Qed.

Lemma mergeTrafficUpdate_found prev data i point :
  list_find (fun p => same_point data p = true) prev = Some (i, point) ->
  mergeTrafficUpdate prev data = <[i := spread point data]> prev.
Proof. unfold mergeTrafficUpdate. now intros ->. Qed.

Lemma mergeTrafficUpdate_fresh prev data :
  list_find (fun p => same_point data p = true) prev = None ->
  mergeTrafficUpdate prev data = prev ++ [data].
Proof. unfold mergeTrafficUpdate. now intros ->. Qed.

(** C3. Merging the same observation a second time changes nothing:
    the collection after two merges is the collection after one. *)
Theorem mergeTrafficUpdate_idempotent (prev : list TrafficPoint)
        (data : TrafficPoint) :
  mergeTrafficUpdate (mergeTrafficUpdate prev data) data =
  mergeTrafficUpdate prev data.
Proof.
  destruct (list_find (fun p => same_point data p = true) prev)
    as [[i point]|] eqn:F.
  - rewrite (mergeTrafficUpdate_found _ _ _ _ F).
    pose proof F as F'. apply list_find_Some in F'.
    destruct F' as (Hi & Hp & Hbefore).
    assert (F2 : list_find (fun p => same_point data p = true)
                           (<[i := spread point data]> prev)
                 = Some (i, spread point data)).
    { apply list_find_insert_Some. right. left.
      repeat split; auto.
      - now apply lookup_lt_Some in Hi.
      - now apply same_point_spread. }
    rewrite (mergeTrafficUpdate_found _ _ _ _ F2).
    now rewrite list_insert_insert_eq, spread_idem.
  - rewrite (mergeTrafficUpdate_fresh _ _ F).
    assert (F2 : list_find (fun p => same_point data p = true)
                           (prev ++ [data])
                 = Some (List.length prev, data)).
    { apply list_find_app_Some. right.
      split; [lia|]. split; [exact F|].
      rewrite Nat.sub_diag. simpl.
      rewrite decide_True by apply same_point_refl. reflexivity. }
    rewrite (mergeTrafficUpdate_found _ _ _ _ F2).
    rewrite spread_self. apply list_insert_id.
    rewrite lookup_app_r by lia. now rewrite Nat.sub_diag.
Qed.

(** Once a keyed observation has been written over a point, what the
    point matches is what the observation itself matches. *)
Lemma same_point_spread_keyed d d1 p :
  keyed d1 = true -> same_point d (spread p d1) = same_point d d1.
Proof.
  unfold keyed, same_point, spread; simpl.
  destruct (id d1), (lat d1), (lng d1); try discriminate. reflexivity.
Qed.

Lemma not_matches_spread d1 d2 p :
  keyed d1 = true -> same_point d2 d1 = false ->
  ~ same_point d2 (spread p d1) = true.
Proof.
  intros K Hap. rewrite same_point_spread_keyed by exact K.
  rewrite Hap. discriminate.
Qed.

Lemma merge_both_fresh prev d1 d2 :
  same_point d1 d2 = false ->
  list_find (fun x => same_point d1 x = true) prev = None ->
  list_find (fun x => same_point d2 x = true) prev = None ->
  mergeTrafficUpdate (mergeTrafficUpdate prev d1) d2 = prev ++ [d1; d2] /\
  mergeTrafficUpdate (mergeTrafficUpdate prev d2) d1 = prev ++ [d2; d1].
Proof.
  intros Hap F1 F2.
  assert (Hap' : same_point d2 d1 = false) by now rewrite same_point_sym.
  rewrite (mergeTrafficUpdate_fresh _ _ F1), (mergeTrafficUpdate_fresh _ _ F2).
  rewrite !mergeTrafficUpdate_fresh.
  - now rewrite <- !app_assoc.
  - apply list_find_snoc_none; [exact F1 | congruence].
  - apply list_find_snoc_none; [exact F2 | congruence].
Qed.

Lemma merge_both_found prev d1 d2 i p j q :
  keyed d1 = true -> keyed d2 = true -> same_point d1 d2 = false ->
  list_find (fun x => same_point d1 x = true) prev = Some (i, p) ->
  list_find (fun x => same_point d2 x = true) prev = Some (j, q) ->
  i <> j ->
  mergeTrafficUpdate (mergeTrafficUpdate prev d1) d2 =
  mergeTrafficUpdate (mergeTrafficUpdate prev d2) d1.
Proof.
  intros K1 K2 Hap F1 F2 Hij.
  assert (Hap' : same_point d2 d1 = false) by now rewrite same_point_sym.
  rewrite (mergeTrafficUpdate_found _ _ _ _ F1),
          (mergeTrafficUpdate_found _ _ _ _ F2).
  rewrite (mergeTrafficUpdate_found _ d2 j q).
  - rewrite (mergeTrafficUpdate_found _ d1 i p).
    + now apply list_insert_insert_ne.
    + apply list_find_insert_other; auto. now apply not_matches_spread.
  - apply list_find_insert_other; auto. now apply not_matches_spread.
Qed.

Lemma merge_found_fresh prev d1 d2 i p :
  keyed d1 = true -> same_point d1 d2 = false ->
  list_find (fun x => same_point d1 x = true) prev = Some (i, p) ->
  list_find (fun x => same_point d2 x = true) prev = None ->
  mergeTrafficUpdate (mergeTrafficUpdate prev d1) d2 =
  mergeTrafficUpdate (mergeTrafficUpdate prev d2) d1.
Proof.
  intros K1 Hap F1 F2.
  assert (Hap' : same_point d2 d1 = false) by now rewrite same_point_sym.
  rewrite (mergeTrafficUpdate_found _ _ _ _ F1),
          (mergeTrafficUpdate_fresh _ _ F2).
  rewrite mergeTrafficUpdate_fresh.
  - rewrite (mergeTrafficUpdate_found _ d1 i p).
    + rewrite insert_app_l; [reflexivity|].
      apply list_find_Some in F1. destruct F1 as (Hi & _).
      now apply lookup_lt_Some in Hi.
    + now apply list_find_app_l.
  - apply list_find_insert_none; [exact F2|].
    now apply not_matches_spread.
Qed.

(** C4, as the code has it.  Take two observations that each carry an
    id and both coordinates, that do not match each other (different
    ids, not within the threshold of each other), and such that no
    existing point matches both of them, by id or by proximity.  Then
    the two merge orders give the same points, up to their order in the
    array.  The two arrays are equal when at least one observation
    matches an existing point; when neither does, both are appended, in
    arrival order. *)
Theorem mergeTrafficUpdate_order (prev : list TrafficPoint)
        (d1 d2 : TrafficPoint) :
  keyed d1 = true -> keyed d2 = true ->
  same_point d1 d2 = false ->
  (forall p, In p prev ->
             ~ (same_point d1 p = true /\ same_point d2 p = true)) ->
  Permutation (mergeTrafficUpdate (mergeTrafficUpdate prev d1) d2)
              (mergeTrafficUpdate (mergeTrafficUpdate prev d2) d1) /\
  ((exists p, In p prev /\
              (same_point d1 p = true \/ same_point d2 p = true)) ->
   mergeTrafficUpdate (mergeTrafficUpdate prev d1) d2 =
   mergeTrafficUpdate (mergeTrafficUpdate prev d2) d1) /\
  ((forall p, In p prev ->
              same_point d1 p = false /\ same_point d2 p = false) ->
   mergeTrafficUpdate (mergeTrafficUpdate prev d1) d2 = prev ++ [d1; d2] /\
   mergeTrafficUpdate (mergeTrafficUpdate prev d2) d1 = prev ++ [d2; d1]).
Proof.
  intros K1 K2 Hap Hcommon.
  assert (Hap' : same_point d2 d1 = false) by now rewrite same_point_sym.
  destruct (list_find (fun x => same_point d1 x = true) prev)
    as [[i p]|] eqn:F1;
  destruct (list_find (fun x => same_point d2 x = true) prev)
    as [[j q]|] eqn:F2.
  - (* both match an existing point *)
    assert (Hij : i <> j).
    { intros ->.
      pose proof F1 as G1. pose proof F2 as G2.
      apply list_find_Some in G1, G2.
      destruct G1 as (Hi1 & Hp & _), G2 as (Hi2 & Hq & _).
      assert (p = q) by congruence. subst q.
      apply (Hcommon p); [|now split].
      apply list_elem_of_In. eapply list_elem_of_lookup_2, Hi1. }
    pose proof (merge_both_found prev d1 d2 i p j q K1 K2 Hap F1 F2 Hij) as E.
    split; [now rewrite E|]. split; [intros _; exact E|].
    intros Hnone. apply list_find_some_In in F1. destruct F1 as (Hin & Hm).
    destruct (Hnone p Hin) as [Hf _]. congruence.
  - pose proof (merge_found_fresh prev d1 d2 i p K1 Hap F1 F2) as E.
    split; [now rewrite E|]. split; [intros _; exact E|].
    intros Hnone. apply list_find_some_In in F1. destruct F1 as (Hin & Hm).
    destruct (Hnone p Hin) as [Hf _]. congruence.
  - pose proof (merge_found_fresh prev d2 d1 j q K2 Hap' F2 F1) as E.
    split; [now rewrite E|]. split; [intros _; now rewrite E|].
    intros Hnone. apply list_find_some_In in F2. destruct F2 as (Hin & Hm).
    destruct (Hnone q Hin) as [_ Hf]. congruence.
  - destruct (merge_both_fresh prev d1 d2 Hap F1 F2) as [E1 E2].
    rewrite E1, E2. split; [|split].
    + apply Permutation_app_head, perm_swap.
    + intros (p & Hin & [Hm|Hm]); exfalso.
      * exact (list_find_none_In _ _ _ F1 Hin Hm).
      * exact (list_find_none_In _ _ _ F2 Hin Hm).
    + intros _. now split.
Qed.

Lemma mergeTrafficUpdate_order_witness :
  Permutation
    (mergeTrafficUpdate
       (mergeTrafficUpdate [stored "p" 0 0 "low" 7] (bare "p" 1 1))
       (bare "q" 5 5))
    (mergeTrafficUpdate
       (mergeTrafficUpdate [stored "p" 0 0 "low" 7] (bare "q" 5 5))
       (bare "p" 1 1)) /\
  mergeTrafficUpdate
    (mergeTrafficUpdate [stored "p" 0 0 "low" 7] (bare "p" 1 1))
    (bare "q" 5 5) =
  mergeTrafficUpdate
    (mergeTrafficUpdate [stored "p" 0 0 "low" 7] (bare "q" 5 5))
    (bare "p" 1 1).
Proof.
  destruct (mergeTrafficUpdate_order
              [stored "p" 0 0 "low" 7] (bare "p" 1 1) (bare "q" 5 5))
    as (HP & HE & _).
  - reflexivity.
  - reflexivity.
  - reflexivity.
  - intros p [<-|[]] [_ H2]. vm_compute in H2. discriminate.
  - split; [exact HP|]. apply HE.
    exists (stored "p" 0 0 "low" 7). split; [now left|]. left. reflexivity.
Defined.

(** C4 as stated fails on the code.  On an empty collection two far
    apart observations with different ids end up in arrival order, so
    the two arrays differ.  And an observation that matches the only
    existing point by id, while the other matches that point by
    proximity, leaves different points behind: the one merged first
    takes over the existing point's fields, the other is appended. *)
Lemma mergeTrafficUpdate_order_matters :
  (non_conflicting [] (bare "a" 1 1) (bare "b" 2 2) /\
   mergeTrafficUpdate (mergeTrafficUpdate [] (bare "a" 1 1)) (bare "b" 2 2)
   <> mergeTrafficUpdate (mergeTrafficUpdate [] (bare "b" 2 2)) (bare "a" 1 1))
  /\
  (non_conflicting [stored "a" 0 0 "low" 7] (bare "a" 1 1) (bare "b" 0 0) /\
   ~ Permutation
       (mergeTrafficUpdate
          (mergeTrafficUpdate [stored "a" 0 0 "low" 7] (bare "a" 1 1))
          (bare "b" 0 0))
       (mergeTrafficUpdate
          (mergeTrafficUpdate [stored "a" 0 0 "low" 7] (bare "b" 0 0))
          (bare "a" 1 1))).
Proof.
  split; split.
  - repeat split; [discriminate | intros p []].
  - vm_compute. discriminate.
  - repeat split; [discriminate|].
    intros p [<-|[]] [H1 _]. vm_compute in H1. discriminate.
  - intros HP.
    assert (Hin : In (spread (stored "a" 0 0 "low" 7) (bare "a" 1 1))
                     (mergeTrafficUpdate
                        (mergeTrafficUpdate [stored "a" 0 0 "low" 7]
                                            (bare "b" 0 0))
                        (bare "a" 1 1))).
    { eapply Permutation_in; [exact HP|]. vm_compute. now left. }
    vm_compute in Hin. destruct Hin as [H|[H|[]]]; discriminate.
Qed.

(** *** Facts about the statistics *)

(** The polling path sets the statistics from the very array it stores
    as the collection. *)
Lemma fetchBackendData_stats_exact trafficPoints speed :
  let '(collection, stats) := fetchBackendData_stats trafficPoints speed in
  total_vehicles stats = sumVehicles collection /\
  congested_points stats = countCongested collection /\
  data_points stats = List.length collection.
Proof. simpl. auto. Qed.

(** C8 on [handleTrafficUpdate].  Raising the level of the only point
    from low to high leaves [congested_points] at 0 although the
    collection now holds one congested point; and with two points at
    the same coordinates an update rewrites both while the total moves
    by the difference for one of them only. *)
Theorem handleTrafficUpdate_statistics_stale :
  (let '(collection, stats) :=
     handleTrafficUpdate [stored "p1" 1 1 "low" 5] stats_one_low
                         (stored "p1" 1 1 "high" 5) in
   collection = [stored "p1" 1 1 "high" 5] /\
   countCongested collection = 1%nat /\
   congested_points stats = 0%nat) /\
  (let '(collection, stats) :=
     handleTrafficUpdate [stored "p1" 1 1 "low" 5; stored "p2" 1 1 "low" 7]
                         stats_two_low (stored "p1" 1 1 "low" 10) in
   sumVehicles collection = 20%Z /\ total_vehicles stats = 17%Z).
Proof. vm_compute. repeat split. Qed.

(** *** Facts about the recommendations *)

Lemma generateRouteRecommendations_parts routes :
  generateRouteRecommendations routes =
  match List.filter usable routes with
  | [] => []
  | v =>
      let ai := List.find (has_type "AI_OPTIMIZED") v in
      let enh := List.find (has_type "ENHANCED_ROUTE") v in
      pick "AI_OPTIMIZED" ai ++ pick "ENHANCED_ROUTE" enh ++
      saver "TIME_SAVER" ai enh
        (array_sort (fun a b => duration (route a) - duration (route b)) v) ++
      saver "DISTANCE_SAVER" ai enh
        (array_sort (fun a b => distance (route a) - distance (route b)) v)
  end.
Proof.
  unfold generateRouteRecommendations. cbv zeta.
  change (fun r => Qltb 0 (distance (route r)) && Qltb 0 (duration (route r)))
    with usable.
  change (fun r => (type (route r) =? "AI_OPTIMIZED")%string)
    with (has_type "AI_OPTIMIZED").
  change (fun r => (type (route r) =? "ENHANCED_ROUTE")%string)
    with (has_type "ENHANCED_ROUTE").
  destruct (List.filter usable routes) as [|r0 v'] eqn:V; [reflexivity|].
  cbn [List.length Nat.ltb Nat.leb].
  destruct (List.find (has_type "AI_OPTIMIZED") (r0 :: v'));
    destruct (List.find (has_type "ENHANCED_ROUTE") (r0 :: v'));
    destruct (array_sort _ (r0 :: v'));
    destruct (array_sort _ (r0 :: v'));
    unfold saver, pick;
    repeat match goal with
           | |- context [absent_or_other ?o ?x && absent_or_other ?o' ?x] =>
               destruct (absent_or_other o x && absent_or_other o' x)
           end; reflexivity.
Qed.

Lemma usable_positive r :
  usable r = true <-> 0 < distance (route r) /\ 0 < duration (route r).
Proof. unfold usable. now rewrite andb_true_iff, !Qltb_lt. Qed.

Lemma difference_rank {A : Type} (key : A -> Q) (a b : A) :
  0 < key a - key b <-> key b < key a.
Proof.
  split; intros H.
  - apply (Qplus_lt_l _ _ (- key b)). now rewrite Qplus_opp_r.
  - apply (Qplus_lt_l _ _ (- key b)) in H. now rewrite Qplus_opp_r in H.
Qed.

Lemma generateRouteRecommendations_empty routes :
  List.filter usable routes = [] -> generateRouteRecommendations routes = [].
Proof. intros V. rewrite generateRouteRecommendations_parts. now rewrite V. Qed.

Ltac sublist_of_categories :=
  unfold categories;
  repeat first [ apply sublist_skip | apply sublist_cons ]; apply sublist_nil.

Ltac ordered_pairs :=
  repeat first [ apply FOP_nil | apply FOP_cons
               | apply List.Forall_nil | apply List.Forall_cons ].

(** A repeat is allowed, or it contradicts a guard or the identity of
    objects. *)
Ltac settle_pair Hwf :=
  unfold repeat_allowed; cbn [rec_route rec_type]; intros Heq;
  first
    [ split; reflexivity
    | exfalso;
      repeat match goal with
             | G : absent_or_other (Some _) _ = true |- _ =>
                 unfold absent_or_other, same_object in G;
                 apply negb_true_iff, Nat.eqb_neq in G
             end;
      congruence
    | exfalso;
      match type of Heq with
      | ref ?x = ref ?y =>
          assert (x = y) by (apply Hwf; tauto); subst; congruence
      end ].

Ltac settle_entry Hv :=
  cbn [rec_route rec_type]; repeat split; try tauto;
  first
    [ intros [?|?]; first [ discriminate | assumption ]
    | intros ?;
      first [ discriminate
            | let r := fresh "r" in
              intros r ? ? ?;
              match goal with
              | Hmin : forall y, In y _ -> _ <= _ |- _ =>
                  apply Hmin; apply Hv; tauto
              end ] ].

(** C2, as the code has it.  With route objects told apart by their
    identity, the recommendation list holds at most one entry per
    category, in the order AI_OPTIMIZED, ENHANCED_ROUTE, TIME_SAVER,
    DISTANCE_SAVER.  Two entries point to the same route object only
    when they are the TIME_SAVER and the DISTANCE_SAVER entry: a route
    recommended as optimised or enhanced is not recommended again.
    Every entry points to a route of the input with positive distance
    and duration; the optimised and the enhanced entry point to a route
    of that type, the TIME_SAVER entry to one of least duration and the
    DISTANCE_SAVER entry to one of least distance among such routes.
    The list is empty when no route has positive distance and
    duration. *)
Theorem generateRouteRecommendations_guarded (routes : list RouteObj) :
  (forall a b, In a routes -> In b routes -> ref a = ref b -> a = b) ->
  let recs := generateRouteRecommendations routes in
  sublist (map rec_type recs) categories /\
  ForallOrdPairs repeat_allowed recs /\
  (forall x, In x recs ->
     In (rec_route x) routes /\
     0 < distance (route (rec_route x)) /\
     0 < duration (route (rec_route x)) /\
     (rec_type x = "AI_OPTIMIZED"%string \/
      rec_type x = "ENHANCED_ROUTE"%string ->
      type (route (rec_route x)) = rec_type x) /\
     (rec_type x = "TIME_SAVER"%string ->
      forall r, In r routes ->
                0 < distance (route r) -> 0 < duration (route r) ->
                duration (route (rec_route x)) <= duration (route r)) /\
     (rec_type x = "DISTANCE_SAVER"%string ->
      forall r, In r routes ->
                0 < distance (route r) -> 0 < duration (route r) ->
                distance (route (rec_route x)) <= distance (route r))) /\
  ((forall r, In r routes ->
              ~ (0 < distance (route r) /\ 0 < duration (route r))) ->
   recs = []).
Proof.
  intros Hwf recs. subst recs.
  destruct (List.filter usable routes) as [|r0 v'] eqn:V.
  { rewrite (generateRouteRecommendations_empty _ V).
    split; [apply sublist_nil_l|]. split; [constructor|].
    split; [intros x []|]. reflexivity. }
  rewrite generateRouteRecommendations_parts, V. cbv zeta.
  set (v := r0 :: v') in *.
  assert (Hv : forall r, In r v <->
                 In r routes /\ 0 < distance (route r) /\
                 0 < duration (route r)).
  { intros r. rewrite <- V, filter_In, usable_positive. reflexivity. }
  pose proof (array_sort_head
                (fun a b => duration (route a) - duration (route b))
                (fun r => duration (route r))
                (difference_rank (fun r => duration (route r))) v) as HT.
  pose proof (array_sort_head
                (fun a b => distance (route a) - distance (route b))
                (fun r => distance (route r))
                (difference_rank (fun r => distance (route r))) v) as HD.
  assert (Hsome : In r0 routes /\ 0 < distance (route r0) /\
                  0 < duration (route r0)) by (apply Hv; now left).
  destruct (List.find (has_type "AI_OPTIMIZED") v) as [a|] eqn:FA;
    [apply find_some in FA; destruct FA as [Ha Hta];
     apply String.eqb_eq in Hta; apply Hv in Ha |];
    (destruct (List.find (has_type "ENHANCED_ROUTE") v) as [e|] eqn:FE;
     [apply find_some in FE; destruct FE as [He Hte];
      apply String.eqb_eq in Hte; apply Hv in He |]);
    (destruct (array_sort _ v) as [|f tlT];
     [clear HT | specialize (HT f tlT eq_refl); destruct HT as [Hf Hfmin];
                 apply Hv in Hf]);
    (destruct (array_sort _ v) as [|s tlD];
     [clear HD | specialize (HD s tlD eq_refl); destruct HD as [Hs Hsmin];
                 apply Hv in Hs]);
    unfold saver, pick;
    repeat match goal with
           | |- context [absent_or_other ?o ?x && absent_or_other ?o' ?x] =>
               let G := fresh "G" in
               destruct (absent_or_other o x && absent_or_other o' x) eqn:G;
               [apply andb_true_iff in G; destruct G as [? ?] | clear G]
           end;
    cbn [app map pick rec_type];
    (split;
     [ sublist_of_categories
     | split;
       [ ordered_pairs; settle_pair Hwf
       | split;
         [ intros x Hx; cbn [In] in Hx;
           repeat (destruct Hx as [<-|Hx]; [settle_entry Hv|]);
           contradiction
         | intros Hnone; exfalso; apply (Hnone r0); tauto ] ] ]).
Qed.

Lemma generateRouteRecommendations_guarded_witness :
  sublist (map rec_type (generateRouteRecommendations [optimisedObj; soleRoute]))
          categories /\
  ForallOrdPairs repeat_allowed
                 (generateRouteRecommendations [optimisedObj; soleRoute]).
Proof.
  destruct (generateRouteRecommendations_guarded [optimisedObj; soleRoute])
    as (H1 & H2 & _).
  - intros a b [<-|[<-|[]]] [<-|[<-|[]]]; simpl;
      first [reflexivity | discriminate].
  - split; [exact H1 | exact H2].
Defined.

Example generateRouteRecommendations_two_sources :
  generateRouteRecommendations [optimisedObj; soleRoute] =
  [ {| rec_type := "AI_OPTIMIZED"; rec_route := optimisedObj |};
    {| rec_type := "DISTANCE_SAVER"; rec_route := soleRoute |} ].
Proof. reflexivity. Qed.

(** C2 as stated fails on the code: a single usable route is
    recommended twice, as the fastest and as the shortest route. *)
Lemma generateRouteRecommendations_repeats_route :
  generateRouteRecommendations [soleRoute] =
    [ {| rec_type := "TIME_SAVER"; rec_route := soleRoute |};
      {| rec_type := "DISTANCE_SAVER"; rec_route := soleRoute |} ] /\
  distinct_routes (generateRouteRecommendations [soleRoute]) = false.
Proof. split; reflexivity. Qed.

(** *** Facts about route bounds *)

Lemma path_bounds_in_box path p :
  In p path -> valid_point (Some p) = true ->
  exists b, path_bounds (Some path) = Some b /\ in_box b p.
Proof.
  intros Hin Hv. destruct path as [|c cs]; [destruct Hin|].
  unfold path_bounds. apply calculateBoundsFromPoints_in_box; [|exact Hv].
  now apply in_map.
Qed.

(** C6, as the code has it.  The box of a route of the external router
    contains every coordinate of its geometry.  The box of an optimised
    route, of an enhanced route and of the synthetic route contains
    every coordinate of the geometry whose latitude and longitude are
    both non-zero; the box of the synthetic route also contains the
    start and the end it was built from. *)
Theorem route_bounds_cover :
  (forall index r p,
     In p (geometry (osrm_to_route index r)) ->
     exists b, bounds (osrm_to_route index r) = Some b /\ in_box b p) /\
  (forall o p,
     In p (geometry (aiRoute o)) -> ~ fst p == 0 -> ~ snd p == 0 ->
     exists b, bounds (aiRoute o) = Some b /\ in_box b p) /\
  (forall r path p,
     In p (geometry (enhancedRoute r path)) -> ~ fst p == 0 -> ~ snd p == 0 ->
     exists b, bounds (enhancedRoute r path) = Some b /\ in_box b p) /\
  (forall calculateDistance rand1 rand2 s e,
     valid_point (Some s) = true -> valid_point (Some e) = true ->
     exists b,
       bounds (fallbackRoute calculateDistance rand1 rand2 s e) = Some b /\
       in_box b s /\ in_box b e /\
       forall p,
         In p (geometry (fallbackRoute calculateDistance rand1 rand2 s e)) ->
         ~ fst p == 0 -> ~ snd p == 0 -> in_box b p).
Proof.
  split; [| split; [| split]].
  - intros index r p. unfold osrm_to_route; simpl.
    set (g := match osrm_coordinates r with
              | Some cs => map _ cs
              | None => []
              end).
    intros Hin. destruct g as [|c cs]; [destruct Hin|].
    simpl. exists (span c cs). split; [reflexivity|]. now apply span_in_box.
  - intros o p. unfold aiRoute; simpl. intros Hin H0 H1.
    destruct (path o) as [pth|]; [|destruct Hin]. simpl in Hin.
    apply path_bounds_in_box; [exact Hin|].
    apply valid_point_nonzero. now split.
  - intros r pth p. unfold enhancedRoute; simpl. intros Hin H0 H1.
    apply path_bounds_in_box; [exact Hin|].
    apply valid_point_nonzero. now split.
  - intros calc rand1 rand2 s e Hs He. unfold fallbackRoute.
    cbn [bounds geometry].
    set (g := createCurvedRoute rand1 rand2 (Some s) (Some e)).
    destruct (calculateBoundsFromPoints_in_box
                (Some s :: Some e :: map Some g) s) as (b & Hb & Hbs);
      [now left | exact Hs |].
    exists b. split; [exact Hb|]. split; [exact Hbs|]. split.
    + destruct (calculateBoundsFromPoints_in_box
                  (Some s :: Some e :: map Some g) e) as (b' & Hb' & Hbe);
        [right; now left | exact He |].
      congruence.
    + intros p Hin H0 H1.
      destruct (calculateBoundsFromPoints_in_box
                  (Some s :: Some e :: map Some g) p) as (b' & Hb' & Hbp).
      * right. right. now apply in_map.
      * apply valid_point_nonzero. now split.
      * congruence.
Qed.

Lemma route_bounds_cover_witness :
  exists b, bounds (aiRoute equatorAnswer) = Some b /\ in_box b (1, 6).
Proof.
  destruct route_bounds_cover as (_ & H & _).
  apply (H equatorAnswer (1, 6)).
  - right. now left.
  - discriminate.
  - discriminate.
Defined.

(** C6 as stated fails on the code.  An optimised route whose path
    passes through [[0, 5]] gets the box of its other vertex only.  And
    the synthetic route from [[0.001, 1]] to [[0.001, 2]] with first
    draw 0.3 has a sample of latitude 0, which its box, starting at
    latitude 0.00001, leaves out. *)
Lemma route_bounds_miss_zero_coordinate :
  (In (0, 5) (geometry (aiRoute equatorAnswer)) /\
   bounds (aiRoute equatorAnswer) = Some ((1, 6), (1, 6)) /\
   ~ in_box ((1, 6), (1, 6)) (0, 5)) /\
  (forall calculateDistance,
     let r := fallbackRoute calculateDistance (3#10) (1#2)
                            (1#1000, 1) (1#1000, 2) in
     exists p b,
       geometry r !! 10%nat = Some p /\
       bounds r = Some b /\
       fst p == 0 /\ 0 < fst (fst b) /\
       ~ in_box b p).
Proof.
  split.
  - split; [now left|]. split; [reflexivity|].
    unfold in_box; simpl. intros (H & _). vm_compute in H. now apply H.
  - intros calc r.
    exists (default (0, 0) (geometry r !! 10%nat)),
           (default ((0, 0), (0, 0)) (bounds r)).
    split; [vm_compute; reflexivity|].
    split; [vm_compute; reflexivity|].
    split; [vm_compute; reflexivity|].
    split; [vm_compute; reflexivity|].
    unfold in_box. intros (H & _). vm_compute in H. now apply H.
Qed.

(** *** Facts about route acquisition *)

Lemma fallbackRoute_usable calc r1 r2 s e :
  (0 <? List.length (geometry (fallbackRoute calc r1 r2 s e)))%nat = true.
Proof.
  unfold fallbackRoute. cbn [geometry]. unfold createCurvedRoute.
  now rewrite length_map, length_seq.
Qed.

Lemma getRoute_valid calc s e r1 r2 reply :
  valid_point (Some s) = true -> valid_point (Some e) = true ->
  getRoute calc (Some s) (Some e) r1 r2 reply =
  match reply with
  | OsrmReplied (Some (r :: rs)) => inr (Some (imap osrm_to_route (r :: rs)))
  | OsrmReplied _ => inr None
  | OsrmFailure => inr (Some [fallbackRoute calc r1 r2 s e])
  end.
Proof. intros Hs He. unfold getRoute. now rewrite Hs, He. Qed.

Lemma osrm_to_route_kind index r :
  isFallback (osrm_to_route index r) = false /\
  type (osrm_to_route index r) <> "AI_OPTIMIZED"%string /\
  type (osrm_to_route index r) <> "ENHANCED_ROUTE"%string.
Proof.
  unfold osrm_to_route; cbn [isFallback type]. unfold getRouteType.
  split; [reflexivity|].
  destruct (index =? 0)%nat; [split; discriminate|].
  destruct (Qltb _ _); [split; discriminate|].
  destruct (Qltb _ _); split; discriminate.
Qed.

Lemma served_kind net r :
  In r (served net) ->
  isFallback r = false /\
  (optimizedRoute net = None -> type r <> "AI_OPTIMIZED"%string) /\
  (startEndRoute net ≫= se_path = None -> type r <> "ENHANCED_ROUTE"%string).
Proof.
  unfold served. intros Hin. apply in_app_or in Hin. destruct Hin as [Hin|Hin].
  - destruct (optimizedRoute net) as [o|]; [|destruct Hin].
    destruct Hin as [<-|[]]. split; [reflexivity|].
    split; [discriminate|]. intros _. discriminate.
  - destruct (startEndRoute net) as [se|]; [|destruct Hin]. simpl in Hin.
    destruct (se_path se) as [pth|] eqn:E; [|destruct Hin].
    destruct Hin as [<-|[]]. split; [reflexivity|].
    split; [intros _; discriminate|]. simpl. rewrite E. discriminate.
Qed.

(** The three ways [autoCalculateRoute] can end for a valid pair. *)
Lemma autoCalculateRoute_shape calc s e net routes0 :
  valid_point (Some s) = true -> valid_point (Some e) = true ->
  (osrm net = OsrmFailure /\
   autoCalculateRoute calc (Some s) (Some e) net routes0 =
   served net ++ [fallbackRoute calc (fst (draws_getRoute net))
                                (snd (draws_getRoute net)) s e]) \/
  (osrm net <> OsrmFailure /\
   autoCalculateRoute calc (Some s) (Some e) net routes0 =
   [fallbackRoute calc (fst (draws_catch net)) (snd (draws_catch net)) s e]) \/
  (exists rs r0 usable,
     osrm net = OsrmReplied (Some rs) /\
     List.filter (fun route => (0 <? List.length (geometry route))%nat)
                 (imap osrm_to_route rs) = r0 :: usable /\
     autoCalculateRoute calc (Some s) (Some e) net routes0 =
     served net ++ r0 :: usable).
Proof.
  intros Hs He. unfold autoCalculateRoute. rewrite Hs, He. cbn [andb].
  rewrite (getRoute_valid _ _ _ _ _ _ Hs He).
  assert (Hpre :
    match startEndRoute net with
    | Some r =>
        match se_path r with
        | Some path =>
            match optimizedRoute net with
            | Some o => [aiRoute o]
            | None => []
            end ++ [enhancedRoute r path]
        | None =>
            match optimizedRoute net with
            | Some o => [aiRoute o]
            | None => []
            end
        end
    | None =>
        match optimizedRoute net with
        | Some o => [aiRoute o]
        | None => []
        end
    end = served net).
  { unfold served. destruct (startEndRoute net) as [se|]; simpl.
    - destruct (se_path se); [reflexivity | now rewrite app_nil_r].
    - now rewrite app_nil_r. }
  rewrite Hpre. clear Hpre.
  destruct (osrm net) as [|[[|r rs]|]] eqn:Eo.
  - left. split; [reflexivity|].
    cbn [List.filter]. rewrite fallbackRoute_usable. reflexivity.
  - right. left. split; [discriminate | reflexivity].
  - destruct (List.filter _ (imap osrm_to_route (r :: rs))) as [|r0 usable] eqn:F.
    + right. left. split; [discriminate | reflexivity].
    + right. right. exists (r :: rs), r0, usable. repeat split; auto.
  - right. left. split; [discriminate | reflexivity].
Qed.

(** C9, as the code has it.  For a valid start and end pair the route
    list is never empty; a server-side source that fails contributes no
    route; a route marked as fallback is the synthetic route, of type
    DIRECT and confidence 0.3, with the great-circle distance and the
    duration derived from it; when the external request fails the
    synthetic route is in the list, after the routes of the server-side
    sources, and it is the whole list when those sources failed too. *)
Theorem autoCalculateRoute_never_empty
        (calculateDistance : Q -> Q -> Q -> Q -> Q)
        (s e : coord) (net : Sources) (routes0 : list Route) :
  valid_point (Some s) = true -> valid_point (Some e) = true ->
  let result :=
    autoCalculateRoute calculateDistance (Some s) (Some e) net routes0 in
  let synthetic (draws : Q * Q) :=
    fallbackRoute calculateDistance (fst draws) (snd draws) s e in
  result <> [] /\
  (optimizedRoute net = None ->
   forall r, In r result -> type r <> "AI_OPTIMIZED"%string) /\
  (startEndRoute net ≫= se_path = None ->
   forall r, In r result -> type r <> "ENHANCED_ROUTE"%string) /\
  (forall r, In r result -> isFallback r = true ->
             (r = synthetic (draws_getRoute net) \/
              r = synthetic (draws_catch net)) /\
             type r = "DIRECT"%string /\
             confidence r = Some (3#10) /\
             distance r =
               calculateDistance (fst s) (snd s) (fst e) (snd e) /\
             duration r = distance r / 1000 * 60 * 3) /\
  (osrm net = OsrmFailure ->
   result = served net ++ [synthetic (draws_getRoute net)]) /\
  (osrm net = OsrmFailure -> optimizedRoute net = None ->
   startEndRoute net ≫= se_path = None ->
   result = [synthetic (draws_getRoute net)]).
Proof.
  intros Hs He result synthetic.
  assert (Hserved0 : optimizedRoute net = None ->
                     startEndRoute net ≫= se_path = None -> served net = []).
  { intros H1 H2. unfold served. rewrite H1, H2. reflexivity. }
  assert (Hmarks : forall d r, r = synthetic d ->
             type r = "DIRECT"%string /\ confidence r = Some (3#10) /\
             distance r = calculateDistance (fst s) (snd s) (fst e) (snd e) /\
             duration r = distance r / 1000 * 60 * 3).
  { intros d r ->. repeat split. }
  destruct (autoCalculateRoute_shape calculateDistance s e net routes0 Hs He)
    as [[Eo E]|[[Eo E]|(rs & r0 & usable & Eo & F & E)]];
    fold result in E.
  - (* the external request failed *)
    split; [rewrite E; now destruct (served net)|].
    split; [|split; [|split; [|split]]].
    + intros Hnone r Hin. rewrite E in Hin. apply in_app_or in Hin.
      destruct Hin as [Hin|[<-|[]]]; [|discriminate].
      now apply (served_kind net r Hin).
    + intros Hnone r Hin. rewrite E in Hin. apply in_app_or in Hin.
      destruct Hin as [Hin|[<-|[]]]; [|discriminate].
      now apply (served_kind net r Hin).
    + intros r Hin Hfb. rewrite E in Hin. apply in_app_or in Hin.
      destruct Hin as [Hin|[<-|[]]].
      * destruct (served_kind net r Hin) as (Hf & _). congruence.
      * split; [now left|]. now apply (Hmarks (draws_getRoute net)).
    + intros _. exact E.
    + intros _ H1 H2. rewrite E, (Hserved0 H1 H2). reflexivity.
  - (* no usable route: the synthetic route replaces the list *)
    split; [rewrite E; discriminate|].
    split; [|split; [|split; [|split]]].
    + intros _ r Hin. rewrite E in Hin. destruct Hin as [<-|[]]. discriminate.
    + intros _ r Hin. rewrite E in Hin. destruct Hin as [<-|[]]. discriminate.
    + intros r Hin _. rewrite E in Hin. destruct Hin as [<-|[]].
      split; [now right|]. now apply (Hmarks (draws_catch net)).
    + intros Eo'. contradiction.
    + intros Eo'. contradiction.
  - (* the external router answered with usable routes *)
    assert (Hosrm : forall r, In r (r0 :: usable) ->
               isFallback r = false /\
               type r <> "AI_OPTIMIZED"%string /\
               type r <> "ENHANCED_ROUTE"%string).
    { intros r Hin. rewrite <- F in Hin. apply filter_In in Hin.
      destruct Hin as [Hin _]. apply list_elem_of_In in Hin.
      apply elem_of_lookup_imap in Hin. destruct Hin as (i & y & -> & _).
      apply osrm_to_route_kind. }
    split; [rewrite E; now destruct (served net)|].
    split; [|split; [|split; [|split]]].
    + intros Hnone r Hin. rewrite E in Hin. apply in_app_or in Hin.
      destruct Hin as [Hin|Hin].
      * now apply (served_kind net r Hin).
      * now apply Hosrm.
    + intros Hnone r Hin. rewrite E in Hin. apply in_app_or in Hin.
      destruct Hin as [Hin|Hin].
      * now apply (served_kind net r Hin).
      * now apply Hosrm.
    + intros r Hin Hfb. rewrite E in Hin. apply in_app_or in Hin.
      destruct Hin as [Hin|Hin].
      * destruct (served_kind net r Hin) as (Hf & _). congruence.
      * destruct (Hosrm r Hin) as (Hf & _). congruence.
    + intros Eo'. congruence.
    + intros Eo'. congruence.
Qed.

Lemma autoCalculateRoute_never_empty_witness :
  autoCalculateRoute (fun _ _ _ _ => 1000) (Some (12, 77)) (Some (13, 78))
                     allFail [] =
  [fallbackRoute (fun _ _ _ _ => 1000) (1#4) (3#4) (12, 77) (13, 78)].
Proof.
  destruct (autoCalculateRoute_never_empty
              (fun _ _ _ _ => 1000) (12, 77) (13, 78) allFail []
              eq_refl eq_refl) as (_ & _ & _ & _ & _ & H).
  apply H; reflexivity.
Defined.

(** C9 as stated fails on the code: when the optimiser answers and the
    external request fails, the route list holds the optimised route
    and the synthetic route after it, although not every source has
    failed. *)
Lemma fallback_beside_optimised_route :
  optimizedRoute optimiserOnly = Some equatorAnswer /\
  osrm optimiserOnly = OsrmFailure /\
  (forall calculateDistance,
     autoCalculateRoute calculateDistance (Some (12, 77)) (Some (13, 78))
                        optimiserOnly [] =
     [aiRoute equatorAnswer;
      fallbackRoute calculateDistance (1#2) (1#2) (12, 77) (13, 78)]) /\
  (forall calculateDistance,
     isFallback (fallbackRoute calculateDistance (1#2) (1#2)
                               (12, 77) (13, 78)) = true).
Proof.
  split; [reflexivity|]. split; [reflexivity|]. split; [|reflexivity].
  intros calc.
  destruct (autoCalculateRoute_shape calc (12, 77) (13, 78) optimiserOnly []
              eq_refl eq_refl)
    as [[_ E]|[[Eo _]|(rs & r0 & usable & Eo & _)]].
  - exact E.
  - now contradiction Eo.
  - discriminate Eo.
Qed.

(** *** More facts about the merge of a pushed observation *)

(** X10. The merge of a pushed observation changes one place of the
    collection: either the first stored point that matches by id or by
    proximity is replaced by itself overlaid with the observation, the
    length and all other places being kept, or no stored point matches
    and the observation is appended. *)
Theorem mergeTrafficUpdate_one_place (prev : list TrafficPoint)
        (data : TrafficPoint) :
  (exists i point,
     list_find (fun p => same_point data p = true) prev = Some (i, point) /\
     List.length (mergeTrafficUpdate prev data) = List.length prev /\
     mergeTrafficUpdate prev data !! i = Some (spread point data) /\
     forall j, j <> i -> mergeTrafficUpdate prev data !! j = prev !! j) \/
  ((forall p, In p prev -> same_point data p = false) /\
   mergeTrafficUpdate prev data = prev ++ [data]).
Proof.
  destruct (list_find (fun p => same_point data p = true) prev)
    as [[i point]|] eqn:F.
  - left. exists i, point. split; [reflexivity|].
    rewrite (mergeTrafficUpdate_found _ _ _ _ F).
    apply list_find_Some in F. destruct F as (Hi & _ & _).
    split; [apply length_insert|].
    split.
    + apply list_lookup_insert_eq. now apply lookup_lt_Some in Hi.
    + intros j Hj. apply list_lookup_insert_ne. congruence.
  - right. split.
    + intros p Hp. pose proof (list_find_none_In _ _ _ F Hp) as H.
      destruct (same_point data p) eqn:E; [|reflexivity].
      exfalso. apply H. exact E.
    + now apply mergeTrafficUpdate_fresh.
Qed.

(** X11. After the merge of a pushed observation the collection holds a
    point that matches the observation and carries every field the
    observation carries; the collection has grown by at most one point
    and lost none. *)
Theorem mergeTrafficUpdate_stored (prev : list TrafficPoint)
        (data : TrafficPoint) :
  exists i point,
    list_find (fun p => same_point data p = true)
              (mergeTrafficUpdate prev data) = Some (i, point) /\
    absorbed data point /\
    (List.length prev <= List.length (mergeTrafficUpdate prev data)
     <= S (List.length prev))%nat.
Proof.
  destruct (list_find (fun p => same_point data p = true) prev)
    as [[i point]|] eqn:F.
  - rewrite (mergeTrafficUpdate_found _ _ _ _ F).
    exists i, (spread point data).
    pose proof F as F'. apply list_find_Some in F'.
    destruct F' as (Hi & Hp & Hbefore).
    split; [| split].
    + apply list_find_insert_Some. right. left.
      repeat split; auto.
      * now apply lookup_lt_Some in Hi.
      * now apply same_point_spread.
    + apply spread_idem.
    + rewrite length_insert. lia.
  - rewrite (mergeTrafficUpdate_fresh _ _ F).
    exists (List.length prev), data. split; [| split].
    + apply list_find_app_Some. right.
      split; [lia|]. split; [exact F|].
      rewrite Nat.sub_diag. simpl.
      rewrite decide_True by apply same_point_refl. reflexivity.
    + apply spread_self.
    + rewrite length_app. simpl. lia.
Qed.

(** *** More facts about [handleTrafficUpdate] *)

Lemma num_eq_refl a : num_eq a a = true.
Proof. destruct a; simpl; [|reflexivity]. apply Qeq_bool_iff. reflexivity. Qed.

Lemma num_eq_spread_field a b :
  num_eq a b = true -> num_eq (spread_field a b) b = true.
Proof.
  destruct b as [y|]; simpl.
  - intros _. apply Qeq_bool_iff. reflexivity.
  - destruct a; [discriminate | reflexivity].
Qed.

Lemma hit_spread u p : hit u p = true -> hit u (spread p u) = true.
Proof.
  unfold hit, spread; simpl. intros H. apply andb_true_iff in H.
  destruct H as [H1 H2]. now rewrite !num_eq_spread_field.
Qed.

Lemma sumVehicles_acc l : forall a,
  fold_left (fun sum point => (sum + default 0 (vehicle_count point))%Z) l a
  = (a + sumVehicles l)%Z.
Proof.
  unfold sumVehicles. induction l as [|p l IH]; intros a; simpl; [lia|].
  rewrite IH, (IH (0 + _)%Z). lia.
Qed.

Lemma sumVehicles_cons p l :
  sumVehicles (p :: l) = (default 0 (vehicle_count p) + sumVehicles l)%Z.
Proof. unfold sumVehicles at 1. simpl. now rewrite sumVehicles_acc. Qed.

Lemma sumVehicles_app l1 l2 :
  sumVehicles (l1 ++ l2) = (sumVehicles l1 + sumVehicles l2)%Z.
Proof.
  induction l1 as [|p l1 IH]; simpl.
  - unfold sumVehicles at 2. simpl. lia.
  - rewrite !sumVehicles_cons, IH. lia.
Qed.

Lemma handleTrafficUpdate_fst trafficData stats u :
  fst (handleTrafficUpdate trafficData stats u) =
  map (fun p => if hit u p then spread p u else p) trafficData.
Proof. reflexivity. Qed.

(** X12. [handleTrafficUpdate] keeps the length and the order of the
    collection, overlays the update on every point at exactly the
    coordinates of the update and leaves the other points as they are;
    applying the same update to the result changes nothing; the number
    of data points and the average speed of the statistics are kept. *)
Theorem handleTrafficUpdate_collection (trafficData : list TrafficPoint)
        (stats : TrafficStats) (u : TrafficPoint) :
  let collection := fst (handleTrafficUpdate trafficData stats u) in
  List.length collection = List.length trafficData /\
  (forall i p, trafficData !! i = Some p ->
     collection !! i = Some (if hit u p then spread p u else p)) /\
  fst (handleTrafficUpdate collection stats u) = collection /\
  data_points (snd (handleTrafficUpdate trafficData stats u)) =
    data_points stats /\
  avg_speed (snd (handleTrafficUpdate trafficData stats u)) = avg_speed stats.
Proof.
  cbv zeta. rewrite !handleTrafficUpdate_fst.
  split; [apply length_map|]. split; [| split; [| split; reflexivity]].
  - intros i p Hp. rewrite list_lookup_fmap, Hp. reflexivity.
  - rewrite map_map. apply map_ext. intros p. cbn beta.
    destruct (hit u p) eqn:Hh.
    + rewrite (hit_spread _ _ Hh). apply spread_idem.
    + now rewrite Hh.
Qed.

(** X13. When exactly one stored point is at the coordinates of an
    update that carries a vehicle count, [handleTrafficUpdate] rewrites
    that point only, and the total it stores is the sum of the vehicle
    counts of the new collection. *)
Theorem handleTrafficUpdate_single_hit (l1 l2 : list TrafficPoint)
        (p u : TrafficPoint) (stats : TrafficStats) (n : Z) :
  hit u p = true ->
  (forall q, In q l1 -> hit u q = false) ->
  (forall q, In q l2 -> hit u q = false) ->
  vehicle_count u = Some n ->
  let result := handleTrafficUpdate (l1 ++ p :: l2) stats u in
  fst result = l1 ++ spread p u :: l2 /\
  total_vehicles (snd result) = sumVehicles (fst result).
Proof.
  intros Hp H1 H2 Hn. cbv zeta. rewrite !handleTrafficUpdate_fst.
  unfold handleTrafficUpdate. cbn [fst snd]. cbv zeta.
  change (fun point : TrafficPoint =>
            num_eq (lat point) (lat u) && num_eq (lng point) (lng u))
    with (hit u).
  assert (Hmap : forall l, (forall q, In q l -> hit u q = false) ->
             map (fun point => if hit u point then spread point u else point) l
             = l).
  { intros l Hl. rewrite <- (map_id l) at 2. apply map_ext_in.
    intros q Hq. now rewrite (Hl q Hq). }
  assert (Hfind : List.find (hit u) (l1 ++ p :: l2) = Some p).
  { clear Hmap. induction l1 as [|q l1 IH]; simpl.
    - now rewrite Hp.
    - rewrite (H1 q) by now left. apply IH. intros q' Hq'. apply H1. now right. }
  rewrite map_app. cbn [map]. rewrite Hp, (Hmap l1 H1), (Hmap l2 H2).
  split; [reflexivity|].
  rewrite Hfind. cbn [mbind option_bind].
  rewrite !sumVehicles_app, !sumVehicles_cons.
  unfold spread; cbn [vehicle_count]. rewrite Hn. simpl. lia.
Qed.

Lemma handleTrafficUpdate_single_hit_witness :
  fst (handleTrafficUpdate
         ([stored "p0" 2 2 "low" 3] ++
          stored "p1" 1 1 "low" 5 :: [stored "p2" 3 3 "high" 20])
         stats_one_low (stored "p1" 1 1 "high" 7)) =
  [stored "p0" 2 2 "low" 3] ++
  spread (stored "p1" 1 1 "low" 5) (stored "p1" 1 1 "high" 7)
  :: [stored "p2" 3 3 "high" 20] /\
  total_vehicles
    (snd (handleTrafficUpdate
            ([stored "p0" 2 2 "low" 3] ++
             stored "p1" 1 1 "low" 5 :: [stored "p2" 3 3 "high" 20])
            stats_one_low (stored "p1" 1 1 "high" 7))) =
  sumVehicles
    (fst (handleTrafficUpdate
            ([stored "p0" 2 2 "low" 3] ++
             stored "p1" 1 1 "low" 5 :: [stored "p2" 3 3 "high" 20])
            stats_one_low (stored "p1" 1 1 "high" 7))).
Proof.
  apply (handleTrafficUpdate_single_hit
           [stored "p0" 2 2 "low" 3] [stored "p2" 3 3 "high" 20]
           (stored "p1" 1 1 "low" 5) (stored "p1" 1 1 "high" 7)
           stats_one_low 7).
  - reflexivity.
  - intros q [<-|[]]. reflexivity.
  - intros q [<-|[]]. reflexivity.
  - reflexivity.
Defined.

(** *** Facts about [getRoute] *)

(** X14. [getRoute] throws exactly when the start or the end is missing
    or has a zero coordinate.  Otherwise it never answers with an empty
    list; it answers null exactly when the router replies without
    routes; a list it answers with is either the single fallback route,
    after a failed request, or one route per route of the reply, none
    of them a fallback and the first of type OPTIMAL. *)
Theorem getRoute_answers (calculateDistance : Q -> Q -> Q -> Q -> Q)
        (start end_ : option coord) (rand1 rand2 : Q) (reply : OsrmReply) :
  let answer := getRoute calculateDistance start end_ rand1 rand2 reply in
  ((exists msg, answer = inl msg) <->
   valid_point start && valid_point end_ = false) /\
  answer <> inr (Some []) /\
  (answer = inr None <->
   valid_point start && valid_point end_ = true /\
   (reply = OsrmReplied None \/ reply = OsrmReplied (Some []))) /\
  (forall l, answer = inr (Some l) ->
     (reply = OsrmFailure /\ List.length l = 1%nat /\
      Forall (fun r => isFallback r = true) l) \/
     (exists rs, reply = OsrmReplied (Some rs) /\
                 List.length l = List.length rs /\
                 Forall (fun r => isFallback r = false) l /\
                 exists r0, head l = Some r0 /\ type r0 = "OPTIMAL"%string)).
Proof.
  cbv zeta.
  destruct (valid_point start && valid_point end_) eqn:V.
  - destruct start as [s|]; [|discriminate].
    destruct end_ as [e|]; [|now rewrite andb_false_r in V].
    pose proof V as V'. apply andb_true_iff in V'. destruct V' as [Vs Ve].
    rewrite (getRoute_valid _ _ _ _ _ _ Vs Ve).
    split; [split; [intros [msg H]|discriminate]|].
    { destruct reply as [|[[|r rs]|]]; discriminate. }
    split; [destruct reply as [|[[|r rs]|]]; discriminate|].
    split.
    + split.
      * intros H. split; [reflexivity|].
        destruct reply as [|[[|r rs]|]]; try discriminate; auto.
      * intros [_ [->| ->]]; reflexivity.
    + intros l H. destruct reply as [|[[|r rs]|]]; try discriminate.
      * left. injection H as <-. repeat split. repeat constructor.
      * right. injection H as <-. exists (r :: rs).
        split; [reflexivity|].
        split; [cbn [List.length]; f_equal; apply length_imap|].
        split; [|eexists; split; reflexivity].
        change (osrm_to_route 0 r :: imap (osrm_to_route ∘ S) rs)
          with (imap osrm_to_route (r :: rs)).
        apply Forall_forall. intros x Hx.
        apply elem_of_lookup_imap in Hx. destruct Hx as (i & y & -> & _).
        reflexivity.
  - assert (E : getRoute calculateDistance start end_ rand1 rand2 reply =
                inl "Invalid start or end coordinates"%string).
    { unfold getRoute. destruct start, end_; try reflexivity. now rewrite V. }
    rewrite E. split; [split; [reflexivity | intros _; eauto]|].
    split; [discriminate|]. split; [split; [discriminate|]|discriminate].
    intros [H _]. discriminate.
Qed.

(** *** More facts about the route acquisition *)

(** X19. [autoCalculateRoute] leaves the routes as they are unless the
    start and the end are both valid points.  For a valid pair the
    routes it leaves do not depend on the routes it found.  When the
    router replies with no route that has a geometry, the result is the
    synthetic route alone, and the routes the server-side sources had
    contributed are discarded; when the router replies with such
    routes, they follow the routes of the server-side sources. *)
Theorem autoCalculateRoute_outcomes
        (calculateDistance : Q -> Q -> Q -> Q -> Q)
        (selectedStart selectedEnd : option coord) (net : Sources) :
  let usable :=
    match osrm net with
    | OsrmReplied (Some rs) =>
        List.filter (fun route => (0 <? List.length (geometry route))%nat)
                    (imap osrm_to_route rs)
    | _ => []
    end in
  (valid_point selectedStart && valid_point selectedEnd = false ->
   forall routes,
     autoCalculateRoute calculateDistance selectedStart selectedEnd net routes
     = routes) /\
  (valid_point selectedStart && valid_point selectedEnd = true ->
   (forall routes1 routes2,
      autoCalculateRoute calculateDistance selectedStart selectedEnd net routes1
      = autoCalculateRoute calculateDistance selectedStart selectedEnd net
                           routes2) /\
   (forall s e routes, selectedStart = Some s -> selectedEnd = Some e ->
      (osrm net <> OsrmFailure -> usable = [] ->
       autoCalculateRoute calculateDistance selectedStart selectedEnd net routes
       = [fallbackRoute calculateDistance (fst (draws_catch net))
                        (snd (draws_catch net)) s e]) /\
      (usable <> [] ->
       autoCalculateRoute calculateDistance selectedStart selectedEnd net routes
       = served net ++ usable))).
Proof.
  cbv zeta. split.
  - intros V routes. unfold autoCalculateRoute.
    destruct selectedStart, selectedEnd; try reflexivity. now rewrite V.
  - intros V. split.
    + intros routes1 routes2. unfold autoCalculateRoute.
      destruct selectedStart, selectedEnd; try discriminate;
        [now rewrite V | now rewrite andb_false_r in V].
    + intros s e routes -> ->.
      apply andb_true_iff in V. destruct V as [Vs Ve].
      destruct (autoCalculateRoute_shape calculateDistance s e net routes Vs Ve)
        as [[Eo E] | [[Eo E] | (rs & r0 & usable & Eo & Ef & E)]].
      * rewrite Eo. split; [intros H; contradiction|].
        intros H; contradiction.
      * split; [intros _ _; exact E|].
        intros Hu. exfalso.
        unfold autoCalculateRoute in E. rewrite Vs, Ve in E. cbn [andb] in E.
        rewrite (getRoute_valid _ _ _ _ _ _ Vs Ve) in E.
        destruct (osrm net) as [|[[|r rs]|]]; try contradiction.
        destruct (List.filter _ (imap osrm_to_route (r :: rs)))
          as [|r0 usable] eqn:F; [contradiction|].
        cbn [List.length Nat.ltb Nat.leb] in E.
        apply app_eq_unit in E. destruct E as [[_ E] | [_ E]]; [|discriminate].
        injection E as E _.
        assert (Hin : In r0 (imap osrm_to_route (r :: rs))).
        { eapply proj1. apply filter_In. rewrite F. now left. }
        apply list_elem_of_In, elem_of_lookup_imap in Hin.
        destruct Hin as (i & y & Hr0 & _).
        apply (f_equal isFallback) in E. rewrite Hr0 in E. discriminate E.
      * rewrite Eo, Ef. split; [intros _ H; discriminate|].
        intros _. exact E.
Qed.

End TrafficMapFacts.

(** ** Backend service *)

Module TrafficBackendServiceFacts.

Import RouteService RouteServiceFacts TrafficMap TrafficMapFacts.
Import TrafficBackendService.

Lemma ceil_div5_bounds count :
  (0 < count -> 1 <= ceil_div5 count /\ ceil_div5 count <= count /\
                5 * ceil_div5 count < count + 5 /\
                count <= 5 * ceil_div5 count)%Z.
Proof.
  intros H. unfold ceil_div5.
  pose proof (Z.div_mod (- count) 5 ltac:(lia)) as E.
  pose proof (Z.mod_pos_bound (- count) 5 ltac:(lia)) as B. lia.
Qed.

Lemma pointsToCreate_bounds count :
  (0 < count)%Z ->
  (1 <= pointsToCreate count <= 3)%nat /\
  (Z.of_nat (pointsToCreate count) <= count)%Z.
Proof.
  intros H. unfold pointsToCreate.
  pose proof (ceil_div5_bounds count H). lia.
Qed.

Lemma share_bounds count :
  (0 < count)%Z ->
  let k := pointsToCreate count in
  (1 <= share count k /\
   Z.of_nat k * share count k <= count /\
   count < Z.of_nat k * share count k + Z.of_nat k)%Z.
Proof.
  intros H k. destruct (pointsToCreate_bounds count H) as [Hk Hkc].
  fold k in Hk, Hkc. unfold share.
  pose proof (Z.div_mod count (Z.of_nat k) ltac:(lia)) as E.
  pose proof (Z.mod_pos_bound count (Z.of_nat k) ltac:(lia)) as B.
  assert (Hq : (1 <= count / Z.of_nat k)%Z).
  { apply Z.div_le_lower_bound; lia. }
  destruct (Z.eqb_spec (count / Z.of_nat k) 0); lia.
Qed.

Lemma sumVehicles_const (l : list TrafficPoint) (v : Z) :
  Forall (fun p => vehicle_count p = Some v) l ->
  sumVehicles l = (Z.of_nat (List.length l) * v)%Z.
Proof.
  induction 1 as [|p l Hp _ IH].
  - reflexivity.
  - rewrite sumVehicles_cons, IH, Hp. cbn [List.length].
    rewrite Nat2Z.inj_succ. simpl. lia.
Qed.

Lemma lanePoints_spec env laneData lane laneIndex pushed :
  let count := default 0%Z (lane_count laneData lane) in
  let pts := lanePoints env laneData lane laneIndex pushed in
  ((count <= 0)%Z -> pts = []) /\
  ((0 < count)%Z ->
   List.length pts = pointsToCreate count /\
   Forall (fun p => vehicle_count p = Some (share count (pointsToCreate count))
                    /\ level p = Some (level_of count)) pts).
Proof.
  cbv zeta. unfold lanePoints.
  destruct (Z.ltb_spec 0 (default 0%Z (lane_count laneData lane))) as [H|H].
  - split; [lia|]. intros _. split.
    + now rewrite length_map, length_seq.
    + apply Forall_forall. intros p Hp. apply list_elem_of_In in Hp.
      apply in_map_iff in Hp. destruct Hp as (i & <- & _). now split.
  - split; [reflexivity | lia].
Qed.

Lemma lanePoints_totals env laneData lane laneIndex pushed :
  let count := default 0%Z (lane_count laneData lane) in
  let pts := lanePoints env laneData lane laneIndex pushed in
  (List.length pts <= 3)%nat /\
  (List.length pts = 0%nat <-> (count <= 0)%Z) /\
  (sumVehicles pts <= Z.max 0 count)%Z /\
  (Z.max 0 count <= sumVehicles pts + Z.of_nat (List.length pts))%Z /\
  Forall (fun p => exists v, vehicle_count p = Some v /\ (1 <= v)%Z /\
                   level p = Some (level_of count)) pts.
Proof.
  cbv zeta.
  destruct (lanePoints_spec env laneData lane laneIndex pushed) as [Hz Hp].
  cbv zeta in Hz, Hp.
  set (count := default 0%Z (lane_count laneData lane)) in *.
  set (pts := lanePoints env laneData lane laneIndex pushed) in *.
  destruct (Z.lt_ge_cases 0 count) as [H|H].
  - destruct (Hp H) as [Hlen Hall].
    destruct (pointsToCreate_bounds count H) as [Hk Hkc].
    pose proof (share_bounds count H) as Hs. cbv zeta in Hs.
    assert (Hsum : sumVehicles pts =
                   (Z.of_nat (List.length pts) *
                    share count (pointsToCreate count))%Z).
    { apply sumVehicles_const. eapply Forall_impl; [exact Hall|]. cbv beta. tauto. }
    rewrite Hsum, Hlen.
    split; [lia|]. split; [lia|]. split; [lia|]. split; [lia|].
    eapply Forall_impl; [exact Hall|]. cbv beta. intros p [Hv Hl].
    exists (share count (pointsToCreate count)). repeat split; auto. lia.
  - rewrite (Hz H). cbn. split; [lia|]. split; [tauto|].
    split; [lia|]. split; [lia|]. constructor.
Qed.

(** X15. The points derived from lane counts: at most three per lane
    and nine in all, none exactly when no lane count is positive.  The
    vehicles attributed to the points never exceed the positive lane
    counts, and fall short of them by at most one vehicle per point.
    Every point carries at least one vehicle and one of the three
    levels. *)
Theorem createTrafficPointsFromLaneData_totals (env : Env)
        (laneData : LaneData) :
  let pts := createTrafficPointsFromLaneData env laneData in
  (List.length pts <= 9)%nat /\
  (pts = [] <-> positive_total laneData = 0%Z) /\
  (sumVehicles pts <= positive_total laneData)%Z /\
  (positive_total laneData <= sumVehicles pts + Z.of_nat (List.length pts))%Z /\
  Forall (fun p => exists v lv,
            vehicle_count p = Some v /\ (1 <= v)%Z /\
            level p = Some lv /\
            (lv = "low" \/ lv = "medium" \/ lv = "high")%string) pts.
Proof.
  cbv zeta. unfold createTrafficPointsFromLaneData. cbv zeta.
  rewrite app_nil_l.
  set (L1 := lanePoints env laneData "lane_1" 0 _).
  set (L2 := lanePoints env laneData "lane_2" 1 _).
  set (L3 := lanePoints env laneData "lane_3" 2 _).
  pose proof (lanePoints_totals env laneData "lane_1" 0 (List.length (@nil TrafficPoint))) as H1.
  pose proof (lanePoints_totals env laneData "lane_2" 1 (List.length L1)) as H2.
  pose proof (lanePoints_totals env laneData "lane_3" 2 (List.length (L1 ++ L2))) as H3.
  cbv zeta in H1, H2, H3. fold L1 in H1. fold L2 in H2. fold L3 in H3.
  change (lane_count laneData "lane_1") with (ld_lane_1 laneData) in H1.
  change (lane_count laneData "lane_2") with (ld_lane_2 laneData) in H2.
  change (lane_count laneData "lane_3") with (ld_lane_3 laneData) in H3.
  destruct H1 as (A1 & B1 & C1 & D1 & E1), H2 as (A2 & B2 & C2 & D2 & E2),
           H3 as (A3 & B3 & C3 & D3 & E3).
  unfold positive_total.
  rewrite !sumVehicles_app, !length_app.
  split; [lia|]. split; [| split; [lia|]; split; [lia|]].
  - split.
    + intros H. apply (f_equal (@List.length TrafficPoint)) in H.
      rewrite !length_app in H. cbn [List.length] in H. lia.
    + intros H.
      assert (Z1 : List.length L1 = 0%nat) by (apply B1; lia).
      assert (Z2 : List.length L2 = 0%nat) by (apply B2; lia).
      assert (Z3 : List.length L3 = 0%nat) by (apply B3; lia).
      destruct L1, L2, L3; try discriminate. reflexivity.
  - assert (Hlv : forall c, (level_of c = "low" \/ level_of c = "medium" \/
                             level_of c = "high")%string).
    { intros c. unfold level_of.
      destruct (15 <? c)%Z; [tauto|]. destruct (8 <? c)%Z; tauto. }
    repeat apply Forall_app_2.
    + eapply Forall_impl; [exact E1|]. cbv beta. intros p (v & Hv & Hv1 & Hl). eauto 6.
    + eapply Forall_impl; [exact E2|]. cbv beta. intros p (v & Hv & Hv1 & Hl). eauto 6.
    + eapply Forall_impl; [exact E3|]. cbv beta. intros p (v & Hv & Hv1 & Hl). eauto 6.
Qed.

(** The base coordinates lie in a box around the city. *)
Lemma base_in_range i :
  (i < 5)%nat ->
  129279#10000 <= nth i baseLats 0 /\ nth i baseLats 0 <= 129784#10000 /\
  775946#10000 <= nth i baseLngs 0 /\ nth i baseLngs 0 <= 777500#10000.
Proof.
  intros H. do 5 (destruct i as [|i]; [repeat split; discriminate|]). lia.
Qed.

(** X16. With every draw of [Math.random] in [0, 1], each point derived
    from lane counts has a latitude and a longitude, within 0.005
    degrees of the box spanned by the base coordinates; both are
    non-zero, so the point is one the map draws. *)
Theorem createTrafficPointsFromLaneData_coordinates (env : Env)
        (laneData : LaneData) :
  (forall k, 0 <= random env k /\ random env k <= 1) ->
  Forall (fun p => exists la lo,
            lat p = Some la /\ lng p = Some lo /\
            129229#10000 <= la /\ la <= 129834#10000 /\
            775896#10000 <= lo /\ lo <= 777550#10000 /\
            valid_point (Some (la, lo)) = true)
         (createTrafficPointsFromLaneData env laneData).
Proof.
  intros Hr.
  assert (Hlane : forall lane laneIndex pushed,
            Forall (fun p => exists la lo,
                      lat p = Some la /\ lng p = Some lo /\
                      129229#10000 <= la /\ la <= 129834#10000 /\
                      775896#10000 <= lo /\ lo <= 777550#10000 /\
                      valid_point (Some (la, lo)) = true)
                   (lanePoints env laneData lane laneIndex pushed)).
  { intros lane laneIndex pushed. unfold lanePoints. cbv zeta.
    destruct (0 <? default 0%Z (lane_count laneData lane))%Z; [|constructor].
    apply Forall_forall. intros p Hp. apply list_elem_of_In in Hp.
    apply in_map_iff in Hp. destruct Hp as (i & <- & _). cbn [lat lng].
    set (pi := (_ mod _)%nat).
    assert (Hpi : (pi < 5)%nat) by (apply Nat.mod_upper_bound; discriminate).
    destruct (base_in_range pi Hpi) as (B1 & B2 & B3 & B4).
    destruct (Hr (2 * (pushed + i))%nat) as [R1 R2].
    destruct (Hr (2 * (pushed + i) + 1)%nat) as [R3 R4].
    eexists. eexists. split; [reflexivity|]. split; [reflexivity|].
    set (la := nth pi baseLats 0) in *. set (lo := nth pi baseLngs 0) in *.
    set (r1 := random env _) in *. set (r2 := random env _) in *.
    clearbody la lo r1 r2.
    split; [lra|]. split; [lra|]. split; [lra|]. split; [lra|].
    apply valid_point_nonzero. cbn [fst snd]. split; intros E; lra. }
  unfold createTrafficPointsFromLaneData. cbv zeta.
  repeat apply Forall_app_2; try apply Hlane. constructor.
Qed.

Lemma createTrafficPointsFromLaneData_coordinates_witness :
  Forall (fun p => exists la lo,
            lat p = Some la /\ lng p = Some lo /\
            129229#10000 <= la /\ la <= 129834#10000 /\
            775896#10000 <= lo /\ lo <= 777550#10000 /\
            valid_point (Some (la, lo)) = true)
         (createTrafficPointsFromLaneData midEnv sampleLanes).
Proof.
  apply (createTrafficPointsFromLaneData_coordinates midEnv sampleLanes).
  intros k. split; discriminate.
Defined.

End TrafficBackendServiceFacts.

(** ** What the map component loads *)

Module MapComponentFacts.

Import RouteService RouteServiceFacts TrafficMap TrafficMapFacts.
Import TrafficBackendService TrafficBackendServiceFacts MapComponent.

(** *** The lane points again: when there are none *)

Lemma createTrafficPointsFromLaneData_nil env laneData :
  createTrafficPointsFromLaneData env laneData = [] <->
  positive_total laneData = 0%Z.
Proof.
  unfold createTrafficPointsFromLaneData. cbv zeta. rewrite app_nil_l.
  set (L1 := lanePoints env laneData "lane_1" 0 _).
  set (L2 := lanePoints env laneData "lane_2" 1 _).
  set (L3 := lanePoints env laneData "lane_3" 2 _).
  pose proof (lanePoints_totals env laneData "lane_1" 0
                (List.length (@nil TrafficPoint))) as H1.
  pose proof (lanePoints_totals env laneData "lane_2" 1 (List.length L1)) as H2.
  pose proof (lanePoints_totals env laneData "lane_3" 2
                (List.length (L1 ++ L2))) as H3.
  cbv zeta in H1, H2, H3. fold L1 in H1. fold L2 in H2. fold L3 in H3.
  change (lane_count laneData "lane_1") with (ld_lane_1 laneData) in H1.
  change (lane_count laneData "lane_2") with (ld_lane_2 laneData) in H2.
  change (lane_count laneData "lane_3") with (ld_lane_3 laneData) in H3.
  destruct H1 as (_ & B1 & _), H2 as (_ & B2 & _), H3 as (_ & B3 & _).
  unfold positive_total. split.
  - intros H. apply (f_equal (@List.length TrafficPoint)) in H.
    rewrite !length_app in H. cbn [List.length] in H. lia.
  - intros H.
    assert (Z1 : List.length L1 = 0%nat) by (apply B1; lia).
    assert (Z2 : List.length L2 = 0%nat) by (apply B2; lia).
    assert (Z3 : List.length L3 = 0%nat) by (apply B3; lia).
    destruct L1, L2, L3; try discriminate. reflexivity.
Qed.

(** *** Draws and their floors *)

Lemma floor_draw (r : Q) (n : Z) :
  0 <= r -> r < 1 -> (0 < n)%Z ->
  (0 <= Qfloor (r * inject_Z n) < n)%Z.
Proof.
  intros H0 H1 Hn.
  assert (Hq : 0 < inject_Z n).
  { change 0 with (inject_Z 0). now rewrite <- Zlt_Qlt. }
  split.
  - change 0%Z with (Qfloor 0). apply Qfloor_resp_le.
    apply Qmult_le_0_compat; [assumption | now apply Qlt_le_weak].
  - rewrite Zlt_Qlt. apply Qle_lt_trans with (r * inject_Z n).
    + apply Qfloor_le.
    + rewrite <- (Qmult_1_l (inject_Z n)) at 2.
      apply Qmult_lt_compat_r; assumption.
Qed.

Lemma pick_level_cases r :
  0 <= r -> r < 1 ->
  pick_level r = Some "low"%string \/ pick_level r = Some "medium"%string \/
  pick_level r = Some "high"%string.
Proof.
  intros H0 H1. unfold pick_level. cbv zeta.
  pose proof (floor_draw r 3 H0 H1 ltac:(lia)) as F.
  change (inject_Z 3) with (3 : Q) in F.
  set (k := Qfloor (r * 3)) in *. clearbody k.
  destruct (Z.ltb_spec k 0); [lia|].
  assert (E : k = 0%Z \/ k = 1%Z \/ k = 2%Z) by lia.
  destruct E as [-> | [-> | ->]]; cbn; tauto.
Qed.

(** *** [createInitialTrafficData] *)

Lemma initialLoop_length env remaining : forall i drawn,
  List.length (initialLoop env remaining i drawn) = remaining.
Proof.
  induction remaining as [|n IH]; intros i drawn; [reflexivity|].
  cbn [initialLoop]. cbv zeta.
  destruct (match pick_level (random env (drawn + 2)) with
            | Some _ => _ | None => _ end) as [vehicleCount drawn'].
  cbn [List.length]. now rewrite IH.
Qed.

Lemma initialLoop_points env :
  (forall k, 0 <= random env k /\ random env k < 1) ->
  forall remaining i drawn,
    Forall demo_point (initialLoop env remaining i drawn).
Proof.
  intros Hr. induction remaining as [|n IH]; intros i drawn; [constructor|].
  cbn [initialLoop]. cbv zeta.
  destruct (Hr drawn) as [A0 A1]. destruct (Hr (drawn + 1)%nat) as [B0 B1].
  destruct (Hr (drawn + 2)%nat) as [C0 C1].
  destruct (Hr (drawn + 3)%nat) as [D0 D1].
  pose proof (floor_draw _ 10 D0 D1 ltac:(lia)) as F10.
  pose proof (floor_draw _ 15 D0 D1 ltac:(lia)) as F15.
  pose proof (floor_draw _ 30 D0 D1 ltac:(lia)) as F30.
  change (inject_Z 10) with (10 : Q) in F10.
  change (inject_Z 15) with (15 : Q) in F15.
  change (inject_Z 30) with (30 : Q) in F30.
  assert (Hi : (i mod 5 < 5)%nat) by (apply Nat.mod_upper_bound; discriminate).
  destruct (base_in_range _ Hi) as (L1 & L2 & L3 & L4).
  change (List.length baseLats) with 5%nat.
  change (List.length baseLngs) with 5%nat.
  set (la := nth (i mod 5) baseLats 0) in *.
  set (lo := nth (i mod 5) baseLngs 0) in *.
  set (r1 := random env drawn) in *.
  set (r2 := random env (drawn + 1)) in *.
  clearbody la lo r1 r2.
  assert (Hbox : forall v d' lv,
            ((lv = "low"%string /\ 1 <= v <= 10)%Z \/
             (lv = "medium"%string /\ 10 <= v <= 24)%Z \/
             (lv = "high"%string /\ 20 <= v <= 49)%Z) ->
            demo_point
              {| id := Some (String.append "traffic_"
                             (String.append (pretty (now env i))
                             (String.append "_" (pretty i))));
                 lat := Some (la + (r1 - (1 # 2)) * (2 # 100));
                 lng := Some (lo + (r2 - (1 # 2)) * (2 # 100));
                 level := Some lv;
                 vehicle_count := Some v;
                 ambulance_detected := Some (Qltb (9 # 10) (random env d'));
                 location_name :=
                   Some (String.append "Traffic Point " (pretty (i + 1)%nat));
                 timestamp := Some (isoNow env i);
                 user_id := Some "system"%string |}).
  { intros v d' lv Hv. unfold demo_point. cbn [lat lng level vehicle_count].
    eexists. eexists. exists lv, v.
    split; [reflexivity|]. split; [reflexivity|].
    split; [reflexivity|]. split; [reflexivity|].
    split; [lra|]. split; [lra|]. split; [lra|]. split; [lra|].
    split; [|exact Hv].
    apply valid_point_nonzero. cbn [fst snd]. split; intros E; lra. }
  destruct (pick_level_cases _ C0 C1) as [E | [E | E]]; rewrite E;
    cbn [String.eqb Ascii.eqb Bool.eqb]; constructor;
    try apply IH; apply Hbox; [left | right; left | right; right];
    split; try reflexivity; lia.
Qed.

Lemma sumVehicles_between (l : list TrafficPoint) (a b : Z) :
  Forall (fun p => exists v, vehicle_count p = Some v /\ (a <= v <= b)%Z) l ->
  (a * Z.of_nat (List.length l) <= sumVehicles l <=
   b * Z.of_nat (List.length l))%Z.
Proof.
  induction 1 as [|p l (v & Hv & Hab) _ IH].
  - cbn. lia.
  - rewrite sumVehicles_cons, Hv. cbn [List.length].
    rewrite Nat2Z.inj_succ, !Z.mul_succ_r. simpl. lia.
Qed.

(** X17. With every draw of [Math.random] in [0, 1), the demonstration
    data are twelve points.  Each has coordinates within 0.01 degrees of
    the box of the base coordinates, both non-zero, one of the three
    levels, and a vehicle count in the range of its level: 1 to 10 for
    low, 10 to 24 for medium, 20 to 49 for high.  The vehicles of the
    twelve points sum to at least 12 and at most 588. *)
Theorem createInitialTrafficData_points (env : Env) :
  (forall k, 0 <= random env k /\ random env k < 1) ->
  List.length (createInitialTrafficData env) = 12%nat /\
  Forall demo_point (createInitialTrafficData env) /\
  (12 <= sumVehicles (createInitialTrafficData env) <= 588)%Z.
Proof.
  intros Hr. unfold createInitialTrafficData.
  pose proof (initialLoop_length env 12 0 0) as Hlen.
  pose proof (initialLoop_points env Hr 12 0 0) as Hall.
  split; [exact Hlen|]. split; [exact Hall|].
  assert (Hv : Forall (fun p => exists v, vehicle_count p = Some v /\
                                          (1 <= v <= 49)%Z)
                      (initialLoop env 12 0 0)).
  { eapply Forall_impl; [exact Hall|]. cbv beta.
    intros p (la & lo & lv & v & _ & _ & _ & Hv & _ & _ & _ & _ & _ & Hc).
    exists v. split; [exact Hv|]. lia. }
  apply sumVehicles_between in Hv. rewrite Hlen in Hv. lia.
Qed.

Lemma createInitialTrafficData_points_witness :
  List.length (createInitialTrafficData midEnv) = 12%nat /\
  Forall demo_point (createInitialTrafficData midEnv) /\
  (12 <= sumVehicles (createInitialTrafficData midEnv) <= 588)%Z.
Proof.
  apply (createInitialTrafficData_points midEnv).
  intros k. split; [discriminate | reflexivity].
Defined.

(** *** One refresh *)

Lemma lanes_reported_with_default l d :
  lanes_reported (with_default_points l d) = lanes_reported d.
Proof. reflexivity. Qed.

Lemma positive_total_with_default l d :
  positive_total (with_default_points l d) = positive_total d.
Proof. reflexivity. Qed.

Lemma createTrafficPointsFromLaneData_with_default env l d :
  createTrafficPointsFromLaneData env (with_default_points l d) =
  createTrafficPointsFromLaneData env d.
Proof. reflexivity. Qed.

Lemma lanes_unreported_total d :
  lanes_reported d = false -> positive_total d = 0%Z.
Proof.
  unfold lanes_reported, positive_total.
  destruct (ld_lane_1 d), (ld_lane_2 d), (ld_lane_3 d); cbn;
    try discriminate. reflexivity.
Qed.

Lemma createInitialTrafficData_cons env :
  createInitialTrafficData env <> [].
Proof.
  intros E. apply (f_equal (@List.length TrafficPoint)) in E.
  unfold createInitialTrafficData in E. rewrite initialLoop_length in E.
  discriminate.
Qed.

(** The points stored by one refresh. *)
Lemma refresh_points serviceEnv env latest collective :
  let pts := fst (snd (refresh serviceEnv env latest collective)) in
  match latest with
  | LatestAnswered (Some d) =>
      match ld_traffic_points d with
      | Some (p :: l) => pts = p :: l
      | _ =>
          if lanes_reported d then
            (positive_total d = 0%Z /\ pts = []) \/
            (positive_total d <> 0%Z /\
             exists e, pts = createTrafficPointsFromLaneData e d /\ pts <> [])
          else pts = createInitialTrafficData env
      end
  | _ => pts = createInitialTrafficData env
  end.
Proof.
  cbv zeta. unfold refresh, service_fetchBackendData, fetchBackendData.
  cbn [latestTraffic collective_avg_speed]. unfold fetchBackendData_stats.
  cbn [fst snd]. unfold chooseTrafficPoints.
  destruct latest as [|[d|]]; [reflexivity| |reflexivity].
  unfold fetchLatestTraffic. cbv zeta.
  destruct (lanes_reported d) eqn:Hl.
  - rewrite lanes_reported_with_default, Hl.
    cbn [ld_traffic_points with_default_points].
    rewrite createTrafficPointsFromLaneData_with_default.
    destruct (ld_traffic_points d) as [[|p l]|]; cbn [default from_option].
    + destruct (Z.eq_dec (positive_total d) 0%Z) as [E|E].
      * left. split; [exact E|].
        apply createTrafficPointsFromLaneData_nil. exact E.
      * right. split; [exact E|]. eexists. split; [reflexivity|].
        intros H. now apply createTrafficPointsFromLaneData_nil in H.
    + reflexivity.
    + destruct (createTrafficPointsFromLaneData serviceEnv d)
        as [|p l] eqn:Ec.
      * left. apply createTrafficPointsFromLaneData_nil in Ec.
        split; [exact Ec|].
        apply createTrafficPointsFromLaneData_nil. exact Ec.
      * right. split.
        { intros E.
          apply (proj2 (createTrafficPointsFromLaneData_nil serviceEnv d)) in E.
          rewrite Ec in E. discriminate. }
        exists serviceEnv. rewrite Ec. split; [reflexivity | discriminate].
  - destruct (ld_traffic_points d) as [[|p l]|] eqn:Et.
    + rewrite Et, Hl. reflexivity.
    + rewrite Et. reflexivity.
    + cbn [ld_traffic_points with_default_points]. rewrite Et.
      cbn [default from_option]. rewrite lanes_reported_with_default, Hl.
      reflexivity.
Qed.

(** X18. One refresh of the map, for every outcome of the two requests
    it depends on.  The status is connected; the total, the number of
    congested points and the number of data points of the statistics
    are those of the stored collection.  The collection is empty
    exactly when the backend answered with lane counts, none of them
    positive, and with no traffic point of its own; a failed request or
    an answer without lane counts and points gives the twelve
    demonstration points.  With a non-empty collection the average
    speed is not zero. *)
Theorem refresh_collection (serviceEnv env : Env) (latest : LatestReply)
        (collective : CollectiveReply) :
  let result := refresh serviceEnv env latest collective in
  let pts := fst (snd result) in
  let stats := snd (snd result) in
  fst result = connected /\
  total_vehicles stats = sumVehicles pts /\
  congested_points stats = countCongested pts /\
  data_points stats = List.length pts /\
  (congested_points stats <= data_points stats)%nat /\
  (pts = [] <->
   exists d, latest = LatestAnswered (Some d) /\
             lanes_reported d = true /\ positive_total d = 0%Z /\
             default [] (ld_traffic_points d) = []) /\
  (latest = LatestFailed -> List.length pts = 12%nat) /\
  (pts <> [] -> ~ avg_speed stats == 0).
Proof.
  cbv zeta.
  pose proof (refresh_points serviceEnv env latest collective) as Hp.
  cbv zeta in Hp.
  set (pts := fst (snd (refresh serviceEnv env latest collective))) in *.
  assert (Hs : snd (snd (refresh serviceEnv env latest collective)) =
               snd (fetchBackendData_stats pts
                      (fetchCollectiveTraffic_avg_speed collective))).
  { reflexivity. }
  rewrite Hs. unfold fetchBackendData_stats.
  cbn [snd total_vehicles congested_points data_points avg_speed].
  split; [reflexivity|]. split; [reflexivity|]. split; [reflexivity|].
  split; [reflexivity|].
  split; [unfold countCongested; apply filter_length_le|].
  split; [|split].
  - destruct latest as [|[d|]].
    + rewrite Hp. split.
      * intros E. now apply createInitialTrafficData_cons in E.
      * intros (d & E & _). discriminate.
    + destruct (ld_traffic_points d) as [[|p l]|] eqn:Et;
        [| rewrite Hp; split; [discriminate|];
           intros (d' & E & _ & _ & Hd); injection E as <-;
           rewrite Et in Hd; discriminate |];
        (destruct (lanes_reported d) eqn:Hl;
         [ destruct Hp as [[Hz Hn] | [Hz (e & _ & Hn)]];
           [ split; [intros _; exists d; rewrite Et; auto | intros _; exact Hn]
           | split; [intros E; contradiction
                    | intros (d' & E & _ & Hz' & _); injection E as <-;
                      contradiction] ]
         | rewrite Hp; split;
           [ intros E; now apply createInitialTrafficData_cons in E
           | intros (d' & E & Hl' & _); injection E as <-; congruence ] ]).
    + rewrite Hp. split.
      * intros E. now apply createInitialTrafficData_cons in E.
      * intros (d & E & _). discriminate.
  - intros ->. rewrite Hp. apply initialLoop_length.
  - intros Hne.
    assert (Hlen : (0 <? List.length pts)%nat = true).
    { destruct pts; [contradiction | reflexivity]. }
    rewrite Hlen.
    destruct (fetchCollectiveTraffic_avg_speed collective) as [v|];
      [|discriminate].
    destruct (truthy v) eqn:Tv; [|discriminate].
    now apply truthy_nonzero.
Qed.

End MapComponentFacts.

(** ** Place suggestions *)

Module PlacesFacts.

Import RouteService RouteServiceFacts Places.

(** *** Lists whose members are pairwise apart *)

Section OrderedPairs.
Context {A : Type} (R : A -> A -> Prop).

Lemma FOP_snoc (l : list A) (x : A) :
  ForallOrdPairs R l -> Forall (fun a => R a x) l ->
  ForallOrdPairs R (l ++ [x]).
Proof.
  induction 1 as [|a l Ha Hl IH]; intros Hx; cbn.
  - constructor; constructor.
  - apply Forall_cons_1 in Hx. destruct Hx as [Hax Hx].
    constructor; [|now apply IH].
    apply Forall_app_2; [exact Ha | now constructor].
Qed.

Lemma Forall_sublist (P : A -> Prop) (l1 l2 : list A) :
  sublist l1 l2 -> Forall P l2 -> Forall P l1.
Proof.
  intros Hs Hall. apply Forall_forall. intros x Hx.
  rewrite Forall_forall in Hall. apply Hall.
  now apply (elem_of_sublist l1 l2).
Qed.

Lemma FOP_sublist (l1 l2 : list A) :
  sublist l1 l2 -> ForallOrdPairs R l2 -> ForallOrdPairs R l1.
Proof.
  induction 1 as [|x l1 l2 Hs IH|x l1 l2 Hs IH]; intros H.
  - constructor.
  - inversion H as [|a l Ha Hl]; subst. constructor; [|now apply IH].
    now apply (Forall_sublist _ l1 l2).
  - inversion H as [|a l Ha Hl]; subst. now apply IH.
Qed.

End OrderedPairs.

(** *** The [reduce] of [PlaceSuggestions] *)

Lemma nearby_refl x : nearby x x = true.
Proof.
  unfold nearby.
  assert (E : forall a : Q, Qltb (Qabs (a - a)) (1 # 1000) = true).
  { intros a. apply Qltb_lt.
    assert (Ea : a - a == 0) by ring. rewrite Ea. reflexivity. }
  now rewrite !E.
Qed.

Lemma nearby_sym x y : nearby x y = nearby y x.
Proof.
  unfold nearby.
  assert (E : forall a b : Q,
            Qltb (Qabs (a - b)) (1 # 1000) = Qltb (Qabs (b - a)) (1 # 1000)).
  { intros a b. unfold Qltb. f_equal.
    rewrite (Qabs_Qminus a b). reflexivity. }
  now rewrite (E (s_lat x)), (E (s_lng x)).
Qed.

Lemma find_none_Forall {A : Type} (f : A -> bool) (l : list A) :
  List.find f l = None -> Forall (fun a => f a = false) l.
Proof.
  intros H. apply Forall_forall. intros a Ha.
  apply (find_none f l H). now apply list_elem_of_In.
Qed.

Lemma keepDistinct_from (all : list Suggestion) : forall acc,
  apart acc ->
  let u :=
    fold_left
      (fun acc current =>
         match List.find (fun item => nearby item current) acc with
         | Some _ => acc
         | None => acc ++ [current]
         end) all acc in
  (exists rest, u = acc ++ rest /\ sublist rest all) /\
  apart u /\
  (forall x, In x all -> exists y, In y u /\ nearby y x = true).
Proof.
  induction all as [|x all IH]; intros acc Hacc; cbn [fold_left]; cbv zeta.
  - split; [exists []; split; [now rewrite app_nil_r | constructor]|].
    split; [exact Hacc | intros x []].
  - destruct (List.find (fun item => nearby item x) acc) as [y|] eqn:Ef.
    + destruct (IH acc Hacc) as ((rest & Eu & Hs) & Hap & Hcov).
      split; [exists rest; split; [exact Eu | now apply sublist_cons]|].
      split; [exact Hap|].
      intros z [<-|Hz]; [|now apply Hcov].
      apply find_some in Ef. destruct Ef as [Hy Hn].
      exists y. split; [|exact Hn]. rewrite Eu. apply in_or_app. now left.
    + assert (Hacc' : apart (acc ++ [x])).
      { apply FOP_snoc; [exact Hacc|]. now apply find_none_Forall. }
      destruct (IH (acc ++ [x]) Hacc') as ((rest & Eu & Hs) & Hap & Hcov).
      split.
      { exists (x :: rest). split; [|now apply sublist_skip].
        rewrite Eu, <- app_assoc. reflexivity. }
      split; [exact Hap|].
      intros z [<-|Hz]; [|now apply Hcov].
      exists x. split; [|apply nearby_refl].
      rewrite Eu. apply in_or_app. left. apply in_or_app. right. now left.
Qed.

Lemma keepDistinct_spec (all : list Suggestion) :
  sublist (keepDistinct all) all /\
  apart (keepDistinct all) /\
  (forall x, In x all -> exists y, In y (keepDistinct all) /\
                                   nearby y x = true) /\
  head (keepDistinct all) = head all.
Proof.
  destruct (keepDistinct_from all [] (FOP_nil _)) as ((rest & Eu & Hs) & Hap & Hc).
  cbv zeta in Eu, Hap, Hc. fold (keepDistinct all) in Eu, Hap, Hc.
  cbn [app] in Eu. split; [now rewrite Eu|]. split; [exact Hap|].
  split; [exact Hc|].
  destruct all as [|x all]; [reflexivity|].
  unfold keepDistinct. cbn [fold_left List.find app].
  destruct (keepDistinct_from all [x]) as ((rest' & Eu' & _) & _).
  { constructor; constructor. }
  cbv zeta in Eu'. rewrite Eu'. reflexivity.
Qed.

(** *** What a suggestion carries *)

Lemma number_or_truthy x d : truthy d = true -> truthy (number_or x d) = true.
Proof. intros Hd. unfold number_or. now destruct (truthy x) eqn:E. Qed.

Lemma string_or_nonempty x d :
  d <> EmptyString -> string_or x d <> EmptyString.
Proof.
  intros Hd. unfold string_or. destruct x; cbn; [exact Hd | discriminate].
Qed.

(** What holds of a suggestion that is offered. *)
Lemma allSuggestions_truthy input sampleLocations reply s :
  In s (allSuggestions input sampleLocations reply) ->
  truthy (s_lat s) = true /\ truthy (s_lng s) = true.
Proof.
  unfold allSuggestions. cbv zeta. intros H. apply in_app_or in H.
  destruct H as [H|H].
  - apply in_map_iff in H. destruct H as (loc & <- & _).
    split; apply number_or_truthy; reflexivity.
  - unfold getPlaceSuggestions in H.
    destruct (String.length input <? 2)%nat; [destruct H|].
    destruct reply as [| |data]; try destruct H.
    apply in_map_iff in H. destruct H as (item & <- & _).
    split; apply number_or_truthy; reflexivity.
Qed.

(** X20. [getPlaceSuggestions] answers with the empty list for a query
    of fewer than two characters, for a failed request and for an answer
    that is not ok; otherwise with one suggestion per entry of the
    answer, in its order, each with a name and a type that are not
    empty and with non-zero coordinates. *)
Theorem getPlaceSuggestions_entries (query : string) (reply : SearchReply) :
  ((String.length query < 2)%nat -> getPlaceSuggestions query reply = []) /\
  (reply = SearchFailed \/ reply = SearchNotOk ->
   getPlaceSuggestions query reply = []) /\
  (forall data, (2 <= String.length query)%nat -> reply = SearchOk data ->
     List.length (getPlaceSuggestions query reply) = List.length data) /\
  Forall (fun s => s_name s <> EmptyString /\ s_type s <> EmptyString /\
                   truthy (s_lat s) = true /\ truthy (s_lng s) = true)
         (getPlaceSuggestions query reply).
Proof.
  unfold getPlaceSuggestions.
  destruct (Nat.ltb_spec (String.length query) 2) as [Hq|Hq].
  - split; [reflexivity|]. split; [reflexivity|].
    split; [intros data H; lia | constructor].
  - split; [intros H; lia|].
    split; [intros [-> | ->]; reflexivity|].
    split; [intros data _ ->; apply length_map|].
    destruct reply as [| |data]; try constructor.
    apply Forall_forall. intros s Hs. apply list_elem_of_In in Hs.
    apply in_map_iff in Hs. destruct Hs as (item & <- & _).
    cbn [s_name s_type s_lat s_lng].
    split; [apply string_or_nonempty; intros ->; cbn in Hq; lia|].
    split; [apply string_or_nonempty; discriminate|].
    split; apply number_or_truthy; reflexivity.
Qed.

(** X21. The suggestions stored by [PlaceSuggestions]: none for an
    input of fewer than two characters, at most seven otherwise, taken
    in their order from the sample matches followed by the answers of
    the geocoder, beginning with the first of those; no two of them are
    within 0.001 degrees of each other in both coordinates; and every
    candidate that was left out is that near to a suggestion that is
    shown, unless seven are shown. *)
Theorem suggestions_distinct (input : string)
        (sampleLocations : list Candidate) (reply : SearchReply) :
  let all := allSuggestions input sampleLocations reply in
  let shown := suggestions input sampleLocations reply in
  (List.length shown <= 7)%nat /\
  ((String.length input < 2)%nat -> shown = []) /\
  sublist shown all /\
  apart shown /\
  ((2 <= String.length input)%nat -> head shown = head all) /\
  ((2 <= String.length input)%nat ->
   forall x, In x all ->
     (exists y, In y shown /\ nearby y x = true) \/
     List.length shown = 7%nat).
Proof.
  cbv zeta. unfold suggestions.
  set (all := allSuggestions input sampleLocations reply).
  destruct (keepDistinct_spec all) as (Hs & Hap & Hcov & Hhd).
  destruct (Nat.ltb_spec (String.length input) 2) as [Hq|Hq].
  - split; [cbn; lia|]. split; [reflexivity|].
    split; [apply sublist_nil_l|]. split; [constructor|].
    split; intros H; lia.
  - split; [rewrite length_take; lia|]. split; [intros H; lia|].
    split; [etransitivity; [apply sublist_take | exact Hs]|].
    split; [apply (FOP_sublist _ _ _ (sublist_take _ 7) Hap)|].
    split.
    + intros _. rewrite <- Hhd. now destruct (keepDistinct all).
    + intros _ x Hx.
      destruct (Nat.le_gt_cases (List.length (keepDistinct all)) 7) as [Hl|Hl].
      * left. rewrite take_ge by exact Hl. now apply Hcov.
      * right. rewrite length_take. lia.
Qed.

Lemma suggestions_sublist_all input sampleLocations reply :
  sublist (suggestions input sampleLocations reply)
          (allSuggestions input sampleLocations reply).
Proof.
  unfold suggestions.
  destruct (String.length input <? 2)%nat; [apply sublist_nil_l|].
  etransitivity; [apply sublist_take | apply keepDistinct_spec].
Qed.

(** X22. Every suggestion that [PlaceSuggestions] shows passes the
    check of [handleFromSuggestionSelect]: selecting it sets the text of
    the From box to its name and the start to its coordinates, which
    are a valid point. *)
Theorem suggestions_selectable (input : string)
        (sampleLocations : list Candidate) (reply : SearchReply)
        (fromLocation : string) (selectedStart : option coord) :
  Forall (fun s =>
            handleFromSuggestionSelect (Some s) fromLocation selectedStart =
              (s_name s, Some (s_lat s, s_lng s)) /\
            valid_point (Some (s_lat s, s_lng s)) = true)
         (suggestions input sampleLocations reply).
Proof.
  apply Forall_forall. intros s Hs.
  assert (Hin : In s (allSuggestions input sampleLocations reply)).
  { pose proof (suggestions_sublist_all input sampleLocations reply) as H.
    apply list_elem_of_In. now apply (elem_of_sublist _ _ s Hs) in H. }
  destruct (allSuggestions_truthy _ _ _ _ Hin) as [Hla Hlo].
  unfold handleFromSuggestionSelect, valid_point. cbn [fst snd].
  now rewrite Hla, Hlo.
Qed.

End PlacesFacts.

(** ** Geocoding of a typed location *)

Module GeocodingFacts.

Import RouteService RouteServiceFacts TrafficMap TrafficMapFacts.
Import Places PlacesFacts Geocoding.







End GeocodingFacts.

(** ** The simulated navigation *)

Module NavigationFacts.

Import RouteService RouteServiceFacts Navigation.

Lemma progressPosition_In geometry progress p :
  progressPosition geometry progress = Some p -> In p geometry.
Proof.
  unfold progressPosition. cbv zeta.
  destruct (Z.min _ _ <? 0)%Z; [discriminate|]. apply nth_error_In.
Qed.

Lemma progressPosition_end geometry :
  progressPosition geometry 100 = List.last (map Some geometry) None.
Proof.
  unfold progressPosition. cbv zeta.
  set (last := (Z.of_nat (List.length geometry) - 1)%Z).
  assert (E : Qfloor (100 / 100 * inject_Z last) = last).
  { assert (E1 : 100 / 100 * inject_Z last == inject_Z last) by field.
    rewrite E1. apply Qfloor_Z. }
  rewrite E, Z.min_id. unfold last.
  destruct geometry as [|c cs] using rev_ind; [reflexivity|].
  rewrite length_app, map_app. cbn [List.length map]. rewrite last_last.
  destruct (Z.ltb_spec (Z.of_nat (List.length cs + 1) - 1) 0); [lia|].
  replace (Z.to_nat (Z.of_nat (List.length cs + 1) - 1))
    with (List.length cs) by lia.
  rewrite nth_error_app2 by lia. now rewrite Nat.sub_diag.
Qed.

(** X25. The progress marker is at a vertex of the geometry of the
    route, with both coordinates non-zero, whenever it is shown; it is
    not shown at progress 0; and at progress 100 it is at the last
    vertex of the geometry, when that vertex has non-zero
    coordinates. *)
Theorem NavigationProgressMarker_on_route (route : Route) (progress : Q) :
  (forall p, NavigationProgressMarker (Some route) progress = Some p ->
     In p (geometry route) /\ valid_point (Some p) = true) /\
  (progress == 0 -> NavigationProgressMarker (Some route) progress = None) /\
  (forall p, List.last (map Some (geometry route)) None = Some p ->
     valid_point (Some p) = true ->
     NavigationProgressMarker (Some route) 100 = Some p).
Proof.
  unfold NavigationProgressMarker. split; [|split].
  - intros p. destruct (_ || _); [discriminate|].
    destruct (progressPosition (geometry route) progress) as [q|] eqn:E;
      [|discriminate].
    unfold valid_point.
    destruct (truthy (fst q) && truthy (snd q)) eqn:V; [|discriminate].
    intros H. injection H as <-. split; [|exact V].
    now apply progressPosition_In in E.
  - intros H. apply Qeq_bool_iff in H. rewrite H. now rewrite orb_true_r.
  - intros p Hl V. rewrite progressPosition_end, Hl.
    unfold valid_point in V. rewrite V.
    destruct (geometry route); [discriminate | reflexivity].
Qed.

(** *** The run of the interval *)

Lemma half_matches (prev : Q) (n k : nat) :
  prev == Qof_nat n / 2 ->
  Qeq_bool prev (Qof_nat k) = (n =? 2 * k)%nat.
Proof.
  intros H. destruct (Nat.eqb_spec n (2 * k)) as [->|Hn].
  - apply Qeq_bool_iff. rewrite H. unfold Qof_nat.
    rewrite Nat2Z.inj_mul, inject_Z_mult. change (inject_Z (Z.of_nat 2)) with 2.
    field.
  - apply not_true_is_false. intros E. apply Qeq_bool_iff in E.
    rewrite H in E. apply Hn.
    assert (E2 : Qof_nat n == Qof_nat (2 * k)).
    { unfold Qof_nat at 2. rewrite Nat2Z.inj_mul, inject_Z_mult.
      change (inject_Z (Z.of_nat 2)) with 2. fold (Qof_nat k).
      rewrite <- E. field. }
    unfold Qof_nat in E2. rewrite inject_Z_injective in E2. lia.
Qed.

Lemma announced_step n :
  (n < 200)%nat ->
  announced (S n) =
  announced n ++
  (if (n =? 50)%nat then ["Continue straight for 2 kilometers."%string] else []) ++
  (if (n =? 100)%nat then ["Take the next right turn."%string] else []) ++
  (if (n =? 150)%nat
   then ["Destination is approaching on your left."%string] else []).
Proof.
  intros Hn. unfold announced, schedule. cbn [List.filter fst snd].
  destruct (Nat.eqb_spec n 50%nat) as [->|H50]; [reflexivity|].
  destruct (Nat.eqb_spec n 100%nat) as [->|H100]; [reflexivity|].
  destruct (Nat.eqb_spec n 150%nat) as [->|H150]; [reflexivity|].
  rewrite !app_nil_r.
  assert (E : forall k, k <> n -> (k <? S n)%nat = (k <? n)%nat).
  { intros k Hk. destruct (Nat.ltb_spec k (S n)), (Nat.ltb_spec k n);
      try reflexivity; lia. }
  rewrite !E by lia. reflexivity.
Qed.

Lemma announced_done n : (200 < n)%nat -> announced n = map snd schedule.
Proof.
  intros Hn. unfold announced, schedule. cbn [List.filter fst snd].
  assert (E : forall k, (k <= 200)%nat -> (k <? n)%nat = true).
  { intros k Hk. apply Nat.ltb_lt. lia. }
  rewrite !E by lia. reflexivity.
Qed.

(** X26. The simulated navigation, for every route: after [n] periods
    of its interval the progress is [n / 2] while [n] is at most 200,
    and the navigation is still on; the period after that sets the
    progress to 100, ends the navigation and clears the interval, so
    every navigation ends after 201 periods.  The messages spoken are
    the opening one, the three instructions after 51, 101 and 151
    periods, and the arrival after 201, each once and in this order.
    The map is flown only to vertices of the route with non-zero
    coordinates, at most once per period. *)
Theorem navigation_run (mapReady : bool) (route : Route)
        (instruction : string) (n : nat) :
  let st := after n mapReady route (startNavigation instruction) in
  ((n <= 200)%nat ->
   navProgress st == Qof_nat n / 2 /\ ticking st = true /\
   isNavigating st = true) /\
  ((200 < n)%nat ->
   navProgress st = 100 /\ ticking st = false /\ isNavigating st = false) /\
  spoken st =
    String.append "Navigation started. " instruction :: announced n /\
  Forall (fun p => In p (geometry route) /\ valid_point (Some p) = true)
         (flownTo st) /\
  (List.length (flownTo st) <= Nat.min n 200)%nat.
Proof.
  cbv zeta. induction n as [|n IH].
  - cbn [after startNavigation navProgress ticking isNavigating spoken flownTo].
    split; [intros _; split; [reflexivity | auto]|].
    split; [intros H; lia|]. split; [reflexivity|].
    split; [constructor | cbn [List.length]; lia].
  - cbn [after].
    remember (after n mapReady route (startNavigation instruction)) as st
      eqn:Est.
    clear Est. destruct IH as (Hrun & Hdone & Hsp & Hfl & Hlen).
    unfold fire. destruct (Nat.le_gt_cases n 200%nat) as [Hn|Hn].
    + destruct (Hrun Hn) as (Hp & Ht & Hi). rewrite Ht. unfold tick. cbv zeta.
      destruct (Nat.eq_dec n 200%nat) as [H200|Hne].
      * assert (E : Qle_bool 100 (navProgress st) = true).
        { apply Qle_bool_iff. rewrite Hp, H200. discriminate. }
        rewrite E.
        cbn [navProgress ticking isNavigating spoken flownTo].
        split; [intros H; lia|]. split; [auto|].
        split.
        { rewrite Hsp, (announced_done (S n)) by lia. rewrite H200.
          reflexivity. }
        split; [exact Hfl | lia].
      * assert (E : Qle_bool 100 (navProgress st) = false).
        { apply not_true_is_false. intros E. apply Qle_bool_iff in E.
          rewrite Hp in E.
          assert (L : Qof_nat n <= Qof_nat 199%nat) by (apply Qof_nat_le; lia).
          change (Qof_nat 199%nat) with (199 # 1) in L.
          set (q := Qof_nat n) in *. clearbody q.
          assert (H : q / 2 == q * (1 # 2)) by field.
          rewrite H in E. lra. }
        rewrite E.
        cbn [navProgress ticking isNavigating spoken flownTo].
        split.
        { intros _. split; [|auto]. rewrite Hp. unfold Qof_nat.
          rewrite Nat2Z.inj_succ, <- Z.add_1_r, inject_Z_plus.
          change (inject_Z 1) with 1. field. }
        split; [intros H; lia|].
        split.
        { rewrite Hsp, announced_step by lia.
          change (Qeq_bool (navProgress st) 25)
            with (Qeq_bool (navProgress st) (Qof_nat 25%nat)).
          change (Qeq_bool (navProgress st) 50)
            with (Qeq_bool (navProgress st) (Qof_nat 50%nat)).
          change (Qeq_bool (navProgress st) 75)
            with (Qeq_bool (navProgress st) (Qof_nat 75%nat)).
          rewrite (half_matches _ n 25%nat Hp), (half_matches _ n 50%nat Hp),
                  (half_matches _ n 75%nat Hp).
          reflexivity. }
        split.
        { destruct mapReady; [|exact Hfl].
          destruct (progressPosition (geometry route) (navProgress st))
            as [p|] eqn:Ep; [|exact Hfl].
          destruct (truthy (fst p) && truthy (snd p)) eqn:V; [|exact Hfl].
          apply Forall_app_2; [exact Hfl|]. constructor; [|constructor].
          split; [now apply progressPosition_In in Ep | exact V]. }
        { destruct mapReady; [|lia].
          destruct (progressPosition _ _) as [p|]; [|lia].
          destruct (truthy (fst p) && truthy (snd p)); [|lia].
          rewrite length_app. cbn [List.length]. lia. }
    + destruct (Hdone Hn) as (Hp & Ht & Hi). rewrite Ht.
      split; [intros H; lia|]. split; [auto|].
      split; [rewrite Hsp, !announced_done by lia; reflexivity|].
      split; [exact Hfl | lia].
Qed.


End NavigationFacts.

(** ** What the map is fitted to *)

Module MapViewFacts.

Import RouteService RouteServiceFacts MapView.

Lemma validPoints_valid pts c :
  In c (validPoints pts) -> valid_point (Some c) = true.
Proof. intros H. apply validPoints_In in H. tauto. Qed.

(** X27. The bounds the map is fitted to.  When a route is selected
    and the effect sets bounds, they contain the start, the end and
    every vertex of the route, as far as these have non-zero
    coordinates, and so they contain the box [autoZoomToLocations]
    sets for the same start and end.  The effect sets no bounds exactly
    when no route is selected, its geometry is empty, or fewer than two
    of the points have non-zero coordinates. *)
Theorem fitSelectedRoute_covers (selectedRoute : option Route)
        (selectedStart selectedEnd : option coord) :
  (forall b, fitSelectedRoute selectedRoute selectedStart selectedEnd = Some b ->
     (forall route p, selectedRoute = Some route ->
        In (Some p) (selectedStart :: selectedEnd :: map Some (geometry route)) ->
        valid_point (Some p) = true -> in_box b p) /\
     (forall b0, autoZoomToLocations selectedStart selectedEnd = Some b0 ->
        in_box b (fst b0) /\ in_box b (snd b0))) /\
  (fitSelectedRoute selectedRoute selectedStart selectedEnd = None <->
   match selectedRoute with
   | Some route =>
       geometry route = [] \/
       (List.length
          (validPoints (selectedStart :: selectedEnd ::
                        map Some (geometry route))) < 2)%nat
   | None => True
   end).
Proof.
  unfold fitSelectedRoute. destruct selectedRoute as [route|].
  2:{ split; [intros b H; discriminate | tauto]. }
  destruct (geometry route) as [|g gs] eqn:Eg.
  { cbn [List.length Nat.ltb Nat.leb].
    split; [intros b H; discriminate | tauto]. }
  cbn [List.length Nat.ltb Nat.leb]. cbv zeta.
  set (pts := selectedStart :: selectedEnd :: map Some (g :: gs)).
  destruct (validPoints pts) as [|c [|c' cs]] eqn:Ev.
  - split; [intros b H; discriminate|].
    split; [intros _; right; cbn; lia | reflexivity].
  - split; [intros b H; discriminate|].
    split; [intros _; right; cbn; lia | reflexivity].
  - split.
    2:{ split; [discriminate|]. intros [H|H]; [discriminate | cbn in H; lia]. }
    intros b H. injection H as <-.
    assert (Hbox : forall p, In (Some p) pts -> valid_point (Some p) = true ->
                             in_box (span c (c' :: cs)) p).
    { intros p Hp Vp. apply span_in_box. rewrite <- Ev.
      apply validPoints_In. split; [exact Hp | exact Vp]. }
    split.
    + intros route' p E Hp Vp. injection E as <-. rewrite Eg in Hp.
      now apply Hbox.
    + intros b0 Hz. unfold autoZoomToLocations in Hz.
      destruct selectedStart as [s|]; [|discriminate].
      destruct selectedEnd as [e|]; [|discriminate].
      destruct (valid_point (Some s)) eqn:Vs; [|discriminate].
      destruct (valid_point (Some e)) eqn:Ve; [|discriminate].
      injection Hz as <-.
      assert (Bs : in_box (span c (c' :: cs)) s).
      { apply Hbox; [now left | exact Vs]. }
      assert (Be : in_box (span c (c' :: cs)) e).
      { apply Hbox; [right; now left | exact Ve]. }
      unfold in_box in *. cbn [fst snd].
      destruct Bs as (S1 & S2 & S3 & S4), Be as (E1 & E2 & E3 & E4).
      destruct (Qmin_case (fst s) (fst e)) as [-> | ->],
               (Qmin_case (snd s) (snd e)) as [-> | ->],
               (Qmax_case (fst s) (fst e)) as [-> | ->],
               (Qmax_case (snd s) (snd e)) as [-> | ->];
        repeat split; assumption.
Qed.

(** X28. The first view of the map and the points it is fitted to.
    The initial centre always has non-zero coordinates; it is the
    user's location at zoom 15 when that is valid, else the selected
    start at zoom 14 when that is valid, else the default centre at
    zoom 12.  [getAllPointsForBounds] answers null exactly when the
    start, the end, the vertices of the selected route and the user's
    location hold no point with non-zero coordinates; the points it
    answers with all have non-zero coordinates, and each comes from
    one of those four places. *)
Theorem initial_view (userLocation selectedStart selectedEnd : option coord)
        (selectedRoute : option Route) :
  let centre := getInitialCenter userLocation selectedStart in
  let zoom := getInitialZoom userLocation selectedStart in
  let places :=
    selectedStart :: selectedEnd ::
    match selectedRoute with
    | Some route => map Some (geometry route)
    | None => []
    end ++ [userLocation] in
  valid_point (Some centre) = true /\
  (zoom = 15%Z /\ userLocation = Some centre \/
   zoom = 14%Z /\ valid_point userLocation = false /\
     selectedStart = Some centre \/
   zoom = 12%Z /\ valid_point userLocation = false /\
     valid_point selectedStart = false /\
     centre = (129716#10000, 775946#10000)) /\
  (getAllPointsForBounds selectedStart selectedEnd selectedRoute userLocation
     = None <-> validPoints places = []) /\
  (forall points,
     getAllPointsForBounds selectedStart selectedEnd selectedRoute userLocation
       = Some points ->
     points = validPoints places /\
     Forall (fun p => valid_point (Some p) = true /\ In (Some p) places)
            points).
Proof.
  cbv zeta. split; [|split].
  - unfold getInitialCenter.
    destruct userLocation as [u|], selectedStart as [s|];
      try destruct (valid_point (Some u)) eqn:Vu;
      try destruct (valid_point (Some s)) eqn:Vs; auto.
  - unfold getInitialCenter, getInitialZoom.
    destruct userLocation as [u|], selectedStart as [s|];
      try destruct (valid_point (Some u)) eqn:Vu;
      try destruct (valid_point (Some s)) eqn:Vs; cbn [valid_point]; auto 10.
  - set (places := selectedStart :: selectedEnd :: _ ++ [userLocation]).
    assert (E : getAllPointsForBounds selectedStart selectedEnd selectedRoute
                  userLocation =
                if (0 <? List.length (validPoints places))%nat
                then Some (validPoints places) else None).
    { unfold getAllPointsForBounds, places. cbv zeta. rewrite app_nil_l.
      change (selectedStart :: selectedEnd :: ?l)
        with ([selectedStart] ++ [selectedEnd] ++ l).
      rewrite !validPoints_app.
      destruct selectedRoute as [route|]; rewrite <- ?app_assoc;
        [reflexivity|].
      change (validPoints []) with (@nil coord). reflexivity. }
    rewrite E. clearbody places.
    destruct (validPoints places) as [|c cs] eqn:Ev.
    + split; [tauto | discriminate].
    + cbn [List.length Nat.ltb Nat.leb]. split; [split; discriminate|].
      intros points H. injection H as <-. split; [reflexivity|].
      apply Forall_forall. intros p Hp. apply list_elem_of_In in Hp.
      rewrite <- Ev in Hp. apply validPoints_In in Hp. tauto.
Qed.

End MapViewFacts.

(** ** The traffic panel of the camera feed *)

Module CameraFeedFacts.

Import RouteService RouteServiceFacts CameraFeed.

Lemma drift_bounds prev r :
  0 <= r -> r < 1 ->
  (0 <= drift prev r /\
   (0 <= prev -> prev - 1 <= drift prev r <= prev + 1))%Z.
Proof.
  intros H0 H1. unfold drift.
  assert (F : (0 <= Qfloor (r * 3) < 3)%Z).
  { split.
    - change 0%Z with (Qfloor 0). apply Qfloor_resp_le.
      apply Qmult_le_0_compat; [assumption | discriminate].
    - rewrite Zlt_Qlt. apply Qle_lt_trans with (r * 3); [apply Qfloor_le|].
      change (inject_Z 3) with (3 # 1). lra. }
  lia.
Qed.

(** X29. The simulated panel data that replace a failed frame request,
    with the draws of [Math.random] in [0, 1): no lane count is
    negative, and a lane count that was not negative moves by at most
    one; the congestion label is High above 15 vehicles in all, Medium
    above 8, Low otherwise; and [getCongestionColor] knows the label:
    it answers with the colour of that level and never with the
    default white. *)
Theorem simulate_step (r1 r2 r3 r4 : Q) (prev : PanelData) :
  (0 <= r1 /\ r1 < 1) -> (0 <= r2 /\ r2 < 1) -> (0 <= r3 /\ r3 < 1) ->
  let next := simulate r1 r2 r3 r4 prev in
  let total := (lane1 next + lane2 next + lane3 next)%Z in
  (0 <= lane1 next /\ 0 <= lane2 next /\ 0 <= lane3 next)%Z /\
  ((0 <= lane1 prev)%Z -> (lane1 prev - 1 <= lane1 next <= lane1 prev + 1)%Z) /\
  ((0 <= lane2 prev)%Z -> (lane2 prev - 1 <= lane2 next <= lane2 prev + 1)%Z) /\
  ((0 <= lane3 prev)%Z -> (lane3 prev - 1 <= lane3 next <= lane3 prev + 1)%Z) /\
  ((15 < total)%Z /\ congestion next = "High"%string /\
     getCongestionColor (Some (congestion next)) = "#ff4444"%string \/
   (8 < total <= 15)%Z /\ congestion next = "Medium"%string /\
     getCongestionColor (Some (congestion next)) = "#ffaa00"%string \/
   (total <= 8)%Z /\ congestion next = "Low"%string /\
     getCongestionColor (Some (congestion next)) = "#44ff44"%string) /\
  (signalStatus next = "Red"%string \/ signalStatus next = "Green"%string).
Proof.
  intros [A0 A1] [B0 B1] [C0 C1]. cbv zeta. unfold simulate. cbv zeta.
  cbn [lane1 lane2 lane3 congestion signalStatus].
  destruct (drift_bounds (lane1 prev) r1 A0 A1) as [P1 D1].
  destruct (drift_bounds (lane2 prev) r2 B0 B1) as [P2 D2].
  destruct (drift_bounds (lane3 prev) r3 C0 C1) as [P3 D3].
  split; [auto|]. split; [exact D1|]. split; [exact D2|]. split; [exact D3|].
  split.
  - set (total := (drift (lane1 prev) r1 + drift (lane2 prev) r2 +
                   drift (lane3 prev) r3)%Z).
    destruct (Z.ltb_spec 15 total) as [H|H]; [left; auto|].
    destruct (Z.ltb_spec 8 total) as [H'|H']; [right; left; auto|].
    right; right; auto.
  - destruct (Qltb (8 # 10) r4); auto.
Qed.

Lemma simulate_step_witness :
  (0 <= lane1 (simulate (1#2) 0 (9#10) (1#2) initialPanel) /\
   0 <= lane2 (simulate (1#2) 0 (9#10) (1#2) initialPanel) /\
   0 <= lane3 (simulate (1#2) 0 (9#10) (1#2) initialPanel))%Z /\
  ((0 <= lane1 initialPanel)%Z ->
   (lane1 initialPanel - 1 <= lane1 (simulate (1#2) 0 (9#10) (1#2) initialPanel)
    <= lane1 initialPanel + 1)%Z) /\
  ((0 <= lane2 initialPanel)%Z ->
   (lane2 initialPanel - 1 <= lane2 (simulate (1#2) 0 (9#10) (1#2) initialPanel)
    <= lane2 initialPanel + 1)%Z) /\
  ((0 <= lane3 initialPanel)%Z ->
   (lane3 initialPanel - 1 <= lane3 (simulate (1#2) 0 (9#10) (1#2) initialPanel)
    <= lane3 initialPanel + 1)%Z) /\
  ((15 < lane1 (simulate (1#2) 0 (9#10) (1#2) initialPanel) +
         lane2 (simulate (1#2) 0 (9#10) (1#2) initialPanel) +
         lane3 (simulate (1#2) 0 (9#10) (1#2) initialPanel))%Z /\
   congestion (simulate (1#2) 0 (9#10) (1#2) initialPanel) = "High"%string /\
   getCongestionColor
     (Some (congestion (simulate (1#2) 0 (9#10) (1#2) initialPanel)))
     = "#ff4444"%string \/
   (8 < lane1 (simulate (1#2) 0 (9#10) (1#2) initialPanel) +
        lane2 (simulate (1#2) 0 (9#10) (1#2) initialPanel) +
        lane3 (simulate (1#2) 0 (9#10) (1#2) initialPanel) <= 15)%Z /\
   congestion (simulate (1#2) 0 (9#10) (1#2) initialPanel) = "Medium"%string /\
   getCongestionColor
     (Some (congestion (simulate (1#2) 0 (9#10) (1#2) initialPanel)))
     = "#ffaa00"%string \/
   (lane1 (simulate (1#2) 0 (9#10) (1#2) initialPanel) +
    lane2 (simulate (1#2) 0 (9#10) (1#2) initialPanel) +
    lane3 (simulate (1#2) 0 (9#10) (1#2) initialPanel) <= 8)%Z /\
   congestion (simulate (1#2) 0 (9#10) (1#2) initialPanel) = "Low"%string /\
   getCongestionColor
     (Some (congestion (simulate (1#2) 0 (9#10) (1#2) initialPanel)))
     = "#44ff44"%string) /\
  (signalStatus (simulate (1#2) 0 (9#10) (1#2) initialPanel) = "Red"%string \/
   signalStatus (simulate (1#2) 0 (9#10) (1#2) initialPanel) = "Green"%string).
Proof.
  apply (simulate_step (1#2) 0 (9#10) (1#2) initialPanel).
  - split; [discriminate | reflexivity].
  - split; [discriminate | reflexivity].
  - split; [discriminate | reflexivity].
Defined.

End CameraFeedFacts.

(** ** The signals under a later payload *)

Module SignalFacts.

Import Dashboard DashboardSamples.
Local Open Scope Z_scope.

(** X30. The signals are stable under traffic that confirms them: when
    a later payload has no more vehicles on the green lane and no
    fewer on each red lane, [updateSignals] gives the same signals,
    whatever else the payload holds; the ambulance flag plays no
    part. *)
Theorem updateSignals_stable (td td' : TrafficData) :
  (if is_green (sig_lane_1 (updateSignals td))
   then getTotal td' "lane_1" <= getTotal td "lane_1"
   else getTotal td "lane_1" <= getTotal td' "lane_1") ->
  (if is_green (sig_lane_2 (updateSignals td))
   then getTotal td' "lane_2" <= getTotal td "lane_2"
   else getTotal td "lane_2" <= getTotal td' "lane_2") ->
  (if is_green (sig_lane_3 (updateSignals td))
   then getTotal td' "lane_3" <= getTotal td "lane_3"
   else getTotal td "lane_3" <= getTotal td' "lane_3") ->
  updateSignals td' = updateSignals td.
Proof.
  unfold updateSignals.
  generalize (getTotal td "lane_1"), (getTotal td "lane_2"),
             (getTotal td "lane_3"), (getTotal td' "lane_1"),
             (getTotal td' "lane_2"), (getTotal td' "lane_3").
  intros l1 l2 l3 l1' l2' l3'. cbv zeta.
  destruct (Z.ltb_spec l2 l1), (Z.ltb_spec l2' l1');
    cbv iota beta;
    repeat match goal with
           | |- context [(?a <? ?b)] => destruct (Z.ltb_spec a b)
           end;
    cbn; intros; try reflexivity; lia.
Qed.

Lemma updateSignals_stable_witness :
  updateSignals sample_728 = updateSignals sample_538.
Proof.
  apply (updateSignals_stable sample_538 sample_728).
  - vm_compute. discriminate.
  - vm_compute. discriminate.
  - vm_compute. discriminate.
Defined.

End SignalFacts.
